(** * goddd: the MongoDB repositories and the booking service

    A shallow embedding of [mongo/mongo.go] (two variants: the padded one,
    which stores a filler record next to every cargo, and the time-tracked
    one, which wraps every repository in a timing decorator) and of the
    booking service that drives them.

    The packages [cargo], [location] and [voyage] are imported by these
    files; their declarations are modelled from the specification where the
    code below needs them. *)

From Stdlib Require Import ZArith NArith.
From stdpp Require Import base option list strings gmap fin_maps.

Local Open Scope string_scope.
Local Open Scope Z_scope.

(** ** Errors

    A Go [error] value; [nil] is [None] of [option error].  [driver_error]
    stands for every error of the mgo driver other than [mgo.ErrNotFound]
    (a lost connection, a time-out, a server-side failure).
    [cargo.ErrUnknown], [location.ErrUnknown] and [voyage.ErrUnknown] are
    the values the repositories return; [cargo_ErrInvalidState] is the
    InvalidState error of section 7 of the specification. *)
Inductive error : Type :=
  | mgo_ErrNotFound
  | cargo_ErrUnknown
  | location_ErrUnknown
  | voyage_ErrUnknown
  | booking_ErrInvalidArgument
  | cargo_ErrInvalidState
  | driver_error (msg : string).

#[global] Instance error_eq_dec : EqDecision error.
Proof. solve_decision. Defined.

(** [err == mgo.ErrNotFound] *)
Definition is_ErrNotFound (err : error) : bool :=
  match err with mgo_ErrNotFound => true | _ => false end.

(** ** Package location *)
Module location.

Abbreviation UNLocode := string.

(** Modelled from the spec: the declaration of [location.Location] is
    missing; a location is its key and a display name (the booking service
    reads [UNLocode] and [Name]). *)
Record Location : Type := mkLocation {
  UNLocode_of : UNLocode;
  Name : string
}.

End location.

(** ** Package voyage *)
Module voyage.

Abbreviation Number := string.

(** Modelled from the spec: the declaration of [voyage.Voyage] is missing;
    a voyage is an opaque key, its [Number]. *)
Record Voyage : Type := mkVoyage {
  Number_of : Number
}.

End voyage.

(** ** Package cargo: the data model *)
Module cargo.

Abbreviation TrackingID := string.

(** [time.Time], as an instant: the nanoseconds since the zero time. *)
Abbreviation Time := Z.

(** Modelled from the spec: the declaration of [RouteSpecification] is
    missing; origin, destination and arrival deadline (section 3), under the
    names the booking service uses. *)
Record RouteSpecification : Type := mkRouteSpecification {
  rs_Origin : location.UNLocode;
  rs_Destination : location.UNLocode;
  rs_ArrivalDeadline : Time
}.

(** Modelled from the spec: the declaration of [Leg] is missing; voyage,
    load and unload location, scheduled load and unload time (section 3). *)
Record Leg : Type := mkLeg {
  leg_VoyageNumber : voyage.Number;
  leg_LoadLocation : location.UNLocode;
  leg_UnloadLocation : location.UNLocode;
  leg_LoadTime : Time;
  leg_UnloadTime : Time
}.

(** Modelled from the spec: the declaration of [Itinerary] is missing; the
    code reads its [Legs]. *)
Record Itinerary : Type := mkItinerary {
  Legs : list Leg
}.

(** Modelled from the spec: the event types of section 3. *)
Inductive HandlingEventType : Type :=
  | Receive | Load | Unload | Customs | Claim.

(** Modelled from the spec: the declaration of [HandlingEvent] is missing;
    the fields of section 3, and the tracking identity the repository
    selects events by. *)
Record HandlingEvent : Type := mkHandlingEvent {
  he_TrackingID : TrackingID;
  he_Type : HandlingEventType;
  he_Location : location.UNLocode;
  he_VoyageNumber : option voyage.Number;
  he_CompletionTime : Time;
  he_RegistrationTime : Time
}.

(** Modelled from the spec: the declaration of [HandlingHistory] is
    missing; the code builds it from [HandlingEvents]. *)
Record HandlingHistory : Type := mkHandlingHistory {
  HandlingEvents : list HandlingEvent
}.

(** Modelled from the spec: the transport statuses of section 3. *)
Inductive TransportStatus : Type :=
  | NotReceived | InPort | OnboardCarrier | Claimed | Unknown.

(** Modelled from the spec: the routing statuses of section 3; the booking
    service compares with [Misrouted]. *)
Inductive RoutingStatus : Type :=
  | NotRouted | Routed | Misrouted.

(** Modelled from the spec: the next expected activity of a Delivery, a
    type, a location and, for Load and Unload, a voyage. *)
Record HandlingActivity : Type := mkHandlingActivity {
  act_Type : HandlingEventType;
  act_Location : location.UNLocode;
  act_VoyageNumber : option voyage.Number
}.

(** Modelled from the spec: the declaration of [Delivery] is missing; the
    fields of section 3. *)
Record Delivery : Type := mkDelivery {
  d_TransportStatus : TransportStatus;
  d_LastKnownLocation : option location.UNLocode;
  d_CurrentVoyage : option voyage.Number;
  d_IsMisdirected : bool;
  d_ETA : option Time;
  d_NextExpectedActivity : option HandlingActivity;
  d_IsUnloadedAtDestination : bool;
  d_RoutingStatus : RoutingStatus;
  d_LastUpdated : option Time
}.

(** Modelled from the spec: the declaration of [Cargo] is missing; the
    fields of section 3, and [Origin], which the booking service reads next
    to [c.TrackingID], [c.RouteSpecification], [c.Itinerary] and
    [c.Delivery]. *)
Record Cargo : Type := mkCargo {
  c_TrackingID : TrackingID;
  c_Origin : location.UNLocode;
  c_RouteSpecification : RouteSpecification;
  c_Itinerary : Itinerary;
  c_Delivery : Delivery
}.

(** Go zero values, what decoding leaves in a field a document lacks. *)
Definition zeroRouteSpecification : RouteSpecification :=
  mkRouteSpecification "" "" 0.
Definition zeroItinerary : Itinerary := mkItinerary [].
Definition zeroDelivery : Delivery :=
  mkDelivery NotReceived None None false None None false NotRouted None.
Definition zeroCargo : Cargo :=
  mkCargo "" "" zeroRouteSpecification zeroItinerary zeroDelivery.

(** Modelled from the spec: [Itinerary.IsEmpty] is missing; an itinerary
    without legs is empty (section 3). *)
Definition IsEmpty (i : Itinerary) : bool :=
  match Legs i with [] => true | _ => false end.

End cargo.

(** ** Package bson: documents

    A stored document maps lower-cased field names to values.  Nested
    structs are kept as values of their Go type: the repositories select
    and set top-level fields only. *)
Module bson.

Inductive Value : Type :=
  | VString (s : string)
  | VTime (t : cargo.Time)
  | VRouteSpecification (rs : cargo.RouteSpecification)
  | VItinerary (i : cargo.Itinerary)
  | VDelivery (d : cargo.Delivery)
  | VEventType (t : cargo.HandlingEventType).

Abbreviation Doc := (gmap string Value).

(** [bson.M{k: v}] used as a selector; every selector of this code
    compares fields with strings, and [bson.M{}] is the empty list. *)
Definition M := list (string * string).

Definition getString (d : Doc) (k : string) : string :=
  match d !! k with Some (VString s) => s | _ => "" end.

(** A stored datetime counts milliseconds: the encoder writes
    [t.Unix()*1000 + t.Nanosecond()/1e6], so the instant a document gives
    back is the one written cut down to the millisecond. *)
Definition millis (t : cargo.Time) : cargo.Time := t / 1000000 * 1000000.

(** The values of the nested structs as a document keeps them. *)
Definition kept_RouteSpecification (rs : cargo.RouteSpecification) : cargo.RouteSpecification :=
  cargo.mkRouteSpecification (cargo.rs_Origin rs) (cargo.rs_Destination rs)
                             (millis (cargo.rs_ArrivalDeadline rs)).

Definition kept_Leg (l : cargo.Leg) : cargo.Leg :=
  cargo.mkLeg (cargo.leg_VoyageNumber l) (cargo.leg_LoadLocation l)
              (cargo.leg_UnloadLocation l)
              (millis (cargo.leg_LoadTime l)) (millis (cargo.leg_UnloadTime l)).

Definition kept_Itinerary (i : cargo.Itinerary) : cargo.Itinerary :=
  cargo.mkItinerary (kept_Leg <$> cargo.Legs i).

Definition kept_Delivery (d : cargo.Delivery) : cargo.Delivery :=
  cargo.mkDelivery (cargo.d_TransportStatus d) (cargo.d_LastKnownLocation d)
                   (cargo.d_CurrentVoyage d) (cargo.d_IsMisdirected d)
                   (millis <$> cargo.d_ETA d) (cargo.d_NextExpectedActivity d)
                   (cargo.d_IsUnloadedAtDestination d) (cargo.d_RoutingStatus d)
                   (millis <$> cargo.d_LastUpdated d).

(** A cargo and a handling event as they come back from the document
    they were written to. *)
Definition kept_Cargo (c : cargo.Cargo) : cargo.Cargo :=
  cargo.mkCargo (cargo.c_TrackingID c) (cargo.c_Origin c)
                (kept_RouteSpecification (cargo.c_RouteSpecification c))
                (kept_Itinerary (cargo.c_Itinerary c))
                (kept_Delivery (cargo.c_Delivery c)).

Definition kept_HandlingEvent (e : cargo.HandlingEvent) : cargo.HandlingEvent :=
  cargo.mkHandlingEvent (cargo.he_TrackingID e) (cargo.he_Type e) (cargo.he_Location e)
                        (cargo.he_VoyageNumber e)
                        (millis (cargo.he_CompletionTime e))
                        (millis (cargo.he_RegistrationTime e)).

(** A type that is written to and read from documents.  [marshal] writes
    every instant in milliseconds and [unmarshal] reads it in
    milliseconds; [unmarshal] ignores the fields the type does not have
    and leaves the zero value where the document has no field. *)
Class Marshal (T : Type) : Type := {
  marshal : T -> Doc;
  unmarshal : Doc -> T
}.

#[global] Instance Marshal_Cargo : Marshal cargo.Cargo := {|
  marshal c :=
    <["trackingid" := VString (cargo.c_TrackingID c)]>
    (<["origin" := VString (cargo.c_Origin c)]>
    (<["routespecification" :=
         VRouteSpecification (kept_RouteSpecification (cargo.c_RouteSpecification c))]>
    (<["itinerary" := VItinerary (kept_Itinerary (cargo.c_Itinerary c))]>
    (<["delivery" := VDelivery (kept_Delivery (cargo.c_Delivery c))]> ∅))));
  unmarshal d :=
    cargo.mkCargo
      (getString d "trackingid")
      (getString d "origin")
      (match d !! "routespecification" with
       | Some (VRouteSpecification rs) => kept_RouteSpecification rs
       | _ => cargo.zeroRouteSpecification end)
      (match d !! "itinerary" with
       | Some (VItinerary i) => kept_Itinerary i
       | _ => cargo.zeroItinerary end)
      (match d !! "delivery" with
       | Some (VDelivery x) => kept_Delivery x
       | _ => cargo.zeroDelivery end)
|}.

#[global] Instance Marshal_Location : Marshal location.Location := {|
  marshal l :=
    <["unlocode" := VString (location.UNLocode_of l)]>
    (<["name" := VString (location.Name l)]> ∅);
  unmarshal d := location.mkLocation (getString d "unlocode") (getString d "name")
|}.

#[global] Instance Marshal_Voyage : Marshal voyage.Voyage := {|
  marshal v := <["number" := VString (voyage.Number_of v)]> ∅;
  unmarshal d := voyage.mkVoyage (getString d "number")
|}.

#[global] Instance Marshal_HandlingEvent : Marshal cargo.HandlingEvent := {|
  marshal e :=
    let d : Doc :=
      <["trackingid" := VString (cargo.he_TrackingID e)]>
      (<["type" := VEventType (cargo.he_Type e)]>
      (<["location" := VString (cargo.he_Location e)]>
      (<["completiontime" := VTime (millis (cargo.he_CompletionTime e))]>
      (<["registrationtime" := VTime (millis (cargo.he_RegistrationTime e))]> ∅)))) in
    match cargo.he_VoyageNumber e with
    | Some v => <["voyagenumber" := VString v]> d
    | None => d
    end;
  unmarshal d :=
    cargo.mkHandlingEvent
      (getString d "trackingid")
      (match d !! "type" with Some (VEventType t) => t | _ => cargo.Receive end)
      (getString d "location")
      (match d !! "voyagenumber" with Some (VString v) => Some v | _ => None end)
      (match d !! "completiontime" with Some (VTime t) => millis t | _ => 0 end)
      (match d !! "registrationtime" with Some (VTime t) => millis t | _ => 0 end)
|}.

#[global] Arguments marshal : simpl never.
#[global] Arguments unmarshal : simpl never.

(** Does document [d] satisfy selector [sel]? *)
Definition matches (sel : M) (d : Doc) : bool :=
  forallb (fun kv : string * string =>
             match d !! kv.1 with
             | Some (VString s) => String.eqb s kv.2
             | _ => false
             end) sel.

(** The document an upsert creates from its selector when nothing matches. *)
Definition of_selector (sel : M) : Doc :=
  foldr (fun kv d => <[kv.1 := VString kv.2]> d) ∅ sel.

End bson.
Import bson.

(** ** Package mgo: the database

    A collection is the sequence of its documents in insertion order, which
    is the order a query without a sort clause returns them in.  The
    functions below are the collection operations the repositories call. *)
Module mgo.

Abbreviation Collection := (list Doc).

(** [c.Find(sel)]: the matching documents, in collection order. *)
Definition find (sel : bson.M) (c : Collection) : Collection :=
  List.filter (matches sel) c.

(** [Query.One]: the first matching document, or [ErrNotFound]. *)
Definition one (sel : bson.M) (c : Collection) : Doc + error :=
  match find sel c with
  | d :: _ => inl d
  | [] => inr mgo_ErrNotFound
  end.

(** [c.Upsert(sel, bson.M{"$set": fields})]: set [fields] in the first
    matching document; when there is none, insert the document made of
    the selector and of [fields]. *)
Fixpoint upsert (sel : bson.M) (fields : Doc) (c : Collection) : Collection :=
  match c with
  | [] => [fields ∪ of_selector sel]
  | d :: c' =>
      if matches sel d then (fields ∪ d) :: c' else d :: upsert sel fields c'
  end.

(** [c.Insert(doc)] *)
Definition insert (d : Doc) (c : Collection) : Collection := c ++ [d].

(** [c.Remove(sel)]: delete the first matching document, [None] when
    there is none (the driver then reports [ErrNotFound]). *)
Fixpoint remove (sel : bson.M) (c : Collection) : option Collection :=
  match c with
  | [] => None
  | d :: c' => if matches sel d then Some c' else cons d <$> remove sel c'
  end.

(** A session and the server it talks to.  [data] holds the collections,
    by database and collection name.  [failure] is the state of the
    connection at the next request: [None] when it works, the driver's
    message when it is broken.  [later] lists the states the requests after
    that one meet, in order; past its end the connection stays as it is.
    [ensured] is the driver's index cache: the collections and keys for
    which [EnsureIndex] has succeeded in this process. *)
Record Session : Type := mkSession {
  data : gmap (string * string) (list Doc);
  failure : option string;
  later : list (option string);
  ensured : list ((string * string) * string)
}.

(** The session after a request has been sent. *)
Definition next (s : Session) : Session :=
  match later s with
  | [] => s
  | f :: rest => mkSession (data s) f rest (ensured s)
  end.

Definition collection (s : Session) (c : string * string) : Collection :=
  default [] (data s !! c).

Definition set_collection (s : Session) (c : string * string) (docs : Collection) : Session :=
  mkSession (<[c := docs]> (data s)) (failure s) (later s) (ensured s).

(** Is the index on [key] of collection [c] in the cache? *)
Definition cached (s : Session) (c : string * string) (key : string) : bool :=
  existsb (fun i : (string * string) * string =>
             String.eqb i.1.1 c.1 && String.eqb i.1.2 c.2 && String.eqb i.2 key)
          (ensured s).

Definition cache (s : Session) (c : string * string) (key : string) : Session :=
  mkSession (data s) (failure s) (later s) ((c, key) :: ensured s).

(** A connection that stays as it is: every request still to come meets
    the state the next one meets. *)
Definition steady (s : Session) : Prop := later s = [].

End mgo.

(** ** The process: database, standard output, clock, environment, globals *)

(** An argument of [fmt.Printf]; [AError e] is the text [e.Error()]. *)
Inductive Arg : Type :=
  | AString (s : string)
  | ADuration (d : Z)
  | AInt (n : Z)
  | AError (e : error).

(** One call of [fmt.Printf] or [fmt.Println]: the format and its arguments. *)
Record Printed : Type := mkPrinted {
  format : string;
  args : list Arg
}.

(** [type Garbage struct { Garbage string }] *)
Record Garbage : Type := mkGarbage {
  Garbage_of : string
}.

#[global] Instance Marshal_Garbage : Marshal Garbage := {|
  marshal g := <["garbage" := VString (Garbage_of g)]> ∅;
  unmarshal d := mkGarbage (getString d "garbage")
|}.

Record World : Type := mkWorld {
  session : mgo.Session;
  stdout : list Printed;
  (** the instants successive readings of the clock return *)
  clock : nat -> cargo.Time;
  ticks : nat;
  (** the environment variables that are set *)
  environ : gmap string string;
  (** [var GARBAGE_CARGO Garbage] of the padded variant *)
  GARBAGE_CARGO : Garbage
}.

Definition with_session (s : mgo.Session) (w : World) : World :=
  mkWorld s (stdout w) (clock w) (ticks w) (environ w) (GARBAGE_CARGO w).

Definition with_garbage (g : Garbage) (w : World) : World :=
  mkWorld (session w) (stdout w) (clock w) (ticks w) (environ w) g.

(** A Go function body: it reads and updates the process state. *)
Definition Go (A : Type) : Type := World -> A * World.

Definition ret {A} (a : A) : Go A := fun w => (a, w).

Definition bind {A B} (m : Go A) (k : A -> Go B) : Go B :=
  fun w => let (a, w') := m w in k a w'.

Declare Scope go_scope.
Delimit Scope go_scope with go.
Notation "x <- m ;; k" := (bind m (fun x => k))
  (at level 100, m at next level, right associativity) : go_scope.
Notation "m ;;; k" := (bind m (fun _ => k))
  (at level 100, right associativity) : go_scope.
Local Open Scope go_scope.

(** [defer d] at the head of a block: [d] runs when the block returns, after
    the returned value has been computed. *)
Definition defer {A} (d : Go unit) (body : Go A) : Go A :=
  a <- body ;; d ;;; ret a.

(** [time.Now()] *)
Definition time_Now : Go cargo.Time :=
  fun w => (clock w (ticks w),
            mkWorld (session w) (stdout w) (clock w) (S (ticks w)) (environ w) (GARBAGE_CARGO w)).

(** [time.Since(start)] *)
Definition time_Since (start : cargo.Time) : Go Z :=
  now <- time_Now ;; ret (now - start).

Definition fmt_Printf (fmt : string) (a : list Arg) : Go unit :=
  fun w => (tt, mkWorld (session w) (stdout w ++ [mkPrinted fmt a]) (clock w) (ticks w)
                        (environ w) (GARBAGE_CARGO w)).

(** [fmt.Println(s + err.Error())] *)
Definition fmt_Println (s : string) (err : error) : Go unit :=
  fmt_Printf "%s%s\n" [AString s; AError err].

(** [os.Getenv]: the empty string when the variable is not set. *)
Definition os_Getenv (k : string) : Go string :=
  fun w => (default "" (environ w !! k), w).

(** *** Requests to the database

    A request that meets a broken connection fails with the driver's error
    and changes no document.  Every request moves the session on to the
    state the next request meets. *)

(** [sess.DB(db).C(name)] *)
Definition C (db name : string) : string * string := (db, name).

(** [r.session.Copy()], [sess.Close()], [sess.SetBatch(n)]: connection
    management, without effect on the stored documents. *)
Definition Copy : Go unit := ret tt.
Definition Close (sess : unit) : Go unit := ret tt.
Definition SetBatch (sess : unit) (n : Z) : Go unit := ret tt.

(** A request that reads collection [c]. *)
Definition query {A} (c : string * string)
    (f : mgo.Collection -> A) (on_failure : error -> A) : Go A :=
  fun w =>
    match mgo.failure (session w) with
    | Some msg => (on_failure (driver_error msg), with_session (mgo.next (session w)) w)
    | None => (f (mgo.collection (session w) c), with_session (mgo.next (session w)) w)
    end.

(** A request that writes collection [c]: [f] gives the new documents, or
    [None] when nothing is written. *)
Definition command {A} (c : string * string)
    (f : mgo.Collection -> A * option mgo.Collection) (on_failure : error -> A) : Go A :=
  fun w =>
    match mgo.failure (session w) with
    | Some msg => (on_failure (driver_error msg), with_session (mgo.next (session w)) w)
    | None =>
        match f (mgo.collection (session w) c) with
        | (a, Some docs) =>
            (a, with_session (mgo.next (mgo.set_collection (session w) c docs)) w)
        | (a, None) => (a, with_session (mgo.next (session w)) w)
        end
    end.

(** [c.Find(sel).One(&result)] *)
Definition One {T} `{Marshal T} (c : string * string) (sel : bson.M) : Go (T + error) :=
  query c (fun docs =>
             match mgo.one sel docs with
             | inl d => inl (unmarshal d)
             | inr e => inr e
             end) inr.

(** [c.Find(sel).All(&result)]: on an error [result] is left as it was, a
    nil slice. *)
Definition All {T} `{Marshal T} (c : string * string) (sel : bson.M) : Go (list T * option error) :=
  query c (fun docs => (unmarshal <$> mgo.find sel docs, None))
          (fun e => ([], Some e)).

(** [c.Upsert(sel, bson.M{"$set": v})] *)
Definition Upsert {T} `{Marshal T} (c : string * string) (sel : bson.M) (v : T) : Go (option error) :=
  command c (fun docs => (None, Some (mgo.upsert sel (marshal v) docs))) Some.

(** [c.Insert(v)] *)
Definition Insert {T} `{Marshal T} (c : string * string) (v : T) : Go (option error) :=
  command c (fun docs => (None, Some (mgo.insert (marshal v) docs))) Some.

(** [c.Remove(sel)] *)
Definition Remove (c : string * string) (sel : bson.M) : Go (option error) :=
  command c (fun docs =>
               match mgo.remove sel docs with
               | Some docs' => (None, Some docs')
               | None => (Some mgo_ErrNotFound, None)
               end) Some.

(** [c.EnsureIndex(index)] with a unique index on one key.  The driver
    caches the indexes it has ensured: for a cached one it returns [nil]
    without a request; otherwise it sends the request and, when that
    succeeds, caches the index.  The index on the server is not
    represented: the only writes this code makes to an indexed collection
    are upserts selected by the indexed key, which never add a second
    document with that key. *)
Definition EnsureIndex (c : string * string) (key : string) : Go (option error) :=
  fun w =>
    if mgo.cached (session w) c key then (None, w)
    else
      match mgo.failure (session w) with
      | Some msg => (Some (driver_error msg), with_session (mgo.next (session w)) w)
      | None => (None, with_session (mgo.cache (mgo.next (session w)) c key) w)
      end.

(** ** The repository interfaces

    [cargo.Repository], [location.Repository], [voyage.Repository] and
    [cargo.HandlingEventRepository], as the methods this code implements
    and calls.  A result that is a pointer and an error is either the
    record or the error. *)
Record cargo_Repository : Type := mkCargoRepository {
  cr_Store : cargo.Cargo -> Go (option error);
  cr_Find : cargo.TrackingID -> Go (cargo.Cargo + error);
  cr_Remove : cargo.Cargo -> Go (option error);
  cr_FindAll : Go (list cargo.Cargo)
}.

Record location_Repository : Type := mkLocationRepository {
  lr_Find : location.UNLocode -> Go (location.Location + error);
  lr_FindAll : Go (list location.Location)
}.

Record voyage_Repository : Type := mkVoyageRepository {
  vr_Find : voyage.Number -> Go (voyage.Voyage + error)
}.

Record cargo_HandlingEventRepository : Type := mkHandlingEventRepository {
  her_Store : cargo.HandlingEvent -> Go unit;
  her_QueryHandlingHistory : cargo.TrackingID -> Go cargo.HandlingHistory
}.

(** [for i := 0; i < n; i++ { body }] with a body that does not use [i]. *)
Definition for_range (n : N) (body : Go unit) : Go unit :=
  fun w => (tt, N.iter n (fun w' => (body w').2) w).

(** Modelled from the spec: the locations ([location.Stockholm] ...) and
    voyages ([voyage.V100] ...) the constructors store are declared in
    missing packages; they are taken as the lists the constructors are
    given. *)
Class Fixtures : Type := {
  initial_locations : list location.Location;
  initial_voyages : list voyage.Voyage
}.

(** [for _, x := range xs { f(x) }], results dropped. *)
Fixpoint for_each {A B} (xs : list A) (f : A -> Go B) : Go unit :=
  match xs with
  | [] => ret tt
  | x :: xs' => f x ;;; for_each xs' f
  end.

(** ** Package mongo, padded variant

    Every method reports its duration on standard output, and the cargo
    repository keeps a filler record, keyed [trackingid_g], next to every
    cargo record. *)
Module padded.

Definition timed (start : cargo.Time) (method : string) : Go unit :=
  elapsed <- time_Since start ;;
  fmt_Printf "%s took %s\n" [AString method; ADuration elapsed].

Record cargoRepository : Type := mkCargoRepo { cargo_db : string }.

Definition cargoRepository_Remove (r : cargoRepository) (cargo : cargo.Cargo) : Go (option error) :=
  start <- time_Now ;;
  defer (timed start "Removing a cargo") (
    sess <- Copy ;;
    defer (Close sess) (
      let c := C (cargo_db r) "cargo" in
      err <- Remove c [("trackingid", cargo.c_TrackingID cargo)] ;;
      Remove c [("trackingid_g", cargo.c_TrackingID cargo)] ;;;
      ret err)).

Definition cargoRepository_Store (r : cargoRepository) (cargo : cargo.Cargo) : Go (option error) :=
  start <- time_Now ;;
  defer (timed start "Storing a cargo") (
    sess <- Copy ;;
    defer (Close sess) (
      let c := C (cargo_db r) "cargo" in
      err <- Upsert c [("trackingid", cargo.c_TrackingID cargo)] cargo ;;
      (fun w => Upsert c [("trackingid_g", cargo.c_TrackingID cargo)] (GARBAGE_CARGO w) w) ;;;
      ret err)).

Definition cargoRepository_Find (r : cargoRepository) (id : cargo.TrackingID) : Go (cargo.Cargo + error) :=
  start <- time_Now ;;
  defer (timed start "Finding a single cargo") (
    sess <- Copy ;;
    defer (Close sess) (
      let c := C (cargo_db r) "cargo" in
      One (T := Garbage) c [("trackingid_g", id)] ;;;
      result <- One (T := cargo.Cargo) c [("trackingid", id)] ;;
      match result with
      | inr err =>
          if is_ErrNotFound err then ret (inr cargo_ErrUnknown)
          else ret (inr err)
      | inl result => ret (inl result)
      end)).

Definition cargoRepository_FindAll (r : cargoRepository) : Go (list cargo.Cargo) :=
  sess <- Copy ;;
  defer (Close sess) (
    SetBatch sess 300 ;;;
    let c := C (cargo_db r) "cargo" in
    start <- time_Now ;;
    defer (timed start "Find all cargos") (
      res <- All (T := cargo.Cargo) c [] ;;
      match res.2 with
      | Some err =>
          fmt_Println "Found error finding all cargos:" err ;;;
          ret []
      | None =>
          fmt_Printf "Found %d cargos\n" [AInt (Z.of_nat (length res.1))] ;;;
          ret res.1
      end)).

Definition as_cargo_Repository (r : cargoRepository) : cargo_Repository :=
  mkCargoRepository (cargoRepository_Store r) (cargoRepository_Find r)
                    (cargoRepository_Remove r) (cargoRepository_FindAll r).

(** [GARBAGE_CARGO.Garbage += "a"] *)
Definition grow_garbage : Go unit :=
  fun w => (tt, with_garbage (mkGarbage (Garbage_of (GARBAGE_CARGO w) ++ "a")) w).

Definition NewCargoRepository (db : string) : Go (cargo_Repository + error) :=
  no_padding <- os_Getenv "NO_PADDING" ;;
  (if String.eqb no_padding "" then for_range (60 * 1024) grow_garbage else ret tt) ;;;
  let r := mkCargoRepo db in
  sess <- Copy ;;
  defer (Close sess) (
    let c := C (cargo_db r) "cargo" in
    err <- EnsureIndex c "trackingid" ;;
    match err with
    | Some err => ret (inr err)
    | None => ret (inl (as_cargo_Repository r))
    end).

Record locationRepository : Type := mkLocationRepo { location_db : string }.

Definition locationRepository_Find (r : locationRepository) (locode : location.UNLocode)
    : Go (location.Location + error) :=
  start <- time_Now ;;
  defer (timed start "Find a location") (
    sess <- Copy ;;
    defer (Close sess) (
      let c := C (location_db r) "location" in
      result <- One (T := location.Location) c [("unlocode", locode)] ;;
      match result with
      | inr err =>
          if is_ErrNotFound err then ret (inr location_ErrUnknown)
          else ret (inr err)
      | inl result => ret (inl result)
      end)).

Definition locationRepository_FindAll (r : locationRepository) : Go (list location.Location) :=
  start <- time_Now ;;
  defer (timed start "Find all locations") (
    sess <- Copy ;;
    defer (Close sess) (
      let c := C (location_db r) "location" in
      res <- All (T := location.Location) c [] ;;
      match res.2 with
      | Some err => ret []
      | None => ret res.1
      end)).

Definition locationRepository_store (r : locationRepository) (l : location.Location) : Go (option error) :=
  start <- time_Now ;;
  defer (timed start "Saving a location") (
    sess <- Copy ;;
    defer (Close sess) (
      let c := C (location_db r) "location" in
      Upsert c [("unlocode", location.UNLocode_of l)] l)).

Definition as_location_Repository (r : locationRepository) : location_Repository :=
  mkLocationRepository (locationRepository_Find r) (locationRepository_FindAll r).

Definition NewLocationRepository `{Fixtures} (db : string) : Go (location_Repository + error) :=
  let r := mkLocationRepo db in
  sess <- Copy ;;
  defer (Close sess) (
    let c := C (location_db r) "location" in
    err <- EnsureIndex c "unlocode" ;;
    match err with
    | Some err => ret (inr err)
    | None =>
        for_each initial_locations (locationRepository_store r) ;;;
        ret (inl (as_location_Repository r))
    end).

Record voyageRepository : Type := mkVoyageRepo { voyage_db : string }.

Definition voyageRepository_Find (r : voyageRepository) (voyageNumber : voyage.Number)
    : Go (voyage.Voyage + error) :=
  start <- time_Now ;;
  defer (timed start "Find a voyage") (
    sess <- Copy ;;
    defer (Close sess) (
      let c := C (voyage_db r) "voyage" in
      result <- One (T := voyage.Voyage) c [("number", voyageNumber)] ;;
      match result with
      | inr err =>
          if is_ErrNotFound err then ret (inr voyage_ErrUnknown)
          else ret (inr err)
      | inl result => ret (inl result)
      end)).

Definition voyageRepository_store (r : voyageRepository) (v : voyage.Voyage) : Go (option error) :=
  start <- time_Now ;;
  defer (timed start "Storing a voyage") (
    sess <- Copy ;;
    defer (Close sess) (
      let c := C (voyage_db r) "voyage" in
      Upsert c [("number", voyage.Number_of v)] v)).

Definition as_voyage_Repository (r : voyageRepository) : voyage_Repository :=
  mkVoyageRepository (voyageRepository_Find r).

Definition NewVoyageRepository `{Fixtures} (db : string) : Go (voyage_Repository + error) :=
  let r := mkVoyageRepo db in
  sess <- Copy ;;
  defer (Close sess) (
    let c := C (voyage_db r) "voyage" in
    err <- EnsureIndex c "number" ;;
    match err with
    | Some err => ret (inr err)
    | None =>
        for_each initial_voyages (voyageRepository_store r) ;;;
        ret (inl (as_voyage_Repository r))
    end).

Record handlingEventRepository : Type := mkHandlingEventRepo { event_db : string }.

Definition handlingEventRepository_Store (r : handlingEventRepository) (e : cargo.HandlingEvent) : Go unit :=
  start <- time_Now ;;
  defer (timed start "Storing a handle event") (
    sess <- Copy ;;
    defer (Close sess) (
      let c := C (event_db r) "handling_event" in
      Insert c e ;;;
      ret tt)).

Definition handlingEventRepository_QueryHandlingHistory (r : handlingEventRepository)
    (id : cargo.TrackingID) : Go cargo.HandlingHistory :=
  start <- time_Now ;;
  defer (timed start "Querying handle history for single cargo") (
    sess <- Copy ;;
    defer (Close sess) (
      let c := C (event_db r) "handling_event" in
      res <- All (T := cargo.HandlingEvent) c [("trackingid", id)] ;;
      ret (cargo.mkHandlingHistory res.1))).

Definition NewHandlingEventRepository (db : string) : cargo_HandlingEventRepository :=
  let r := mkHandlingEventRepo db in
  mkHandlingEventRepository (handlingEventRepository_Store r)
                            (handlingEventRepository_QueryHandlingHistory r).

End padded.

(** ** Package mongo, time-tracked variant

    The repositories proper are silent; the constructors return them
    wrapped in decorators that report the duration of every call. *)
Module timed.

Definition timeTrack (start : cargo.Time) (name : string) : Go unit :=
  elapsed <- time_Since start ;;
  fmt_Printf "%s took %s\n" [AString name; ADuration elapsed].

Record cargoRepository : Type := mkCargoRepo { cargo_db : string }.

Record timeCargoRepository : Type := mkTimeCargoRepo { cargo : cargoRepository }.

Definition cargoRepository_Remove (r : cargoRepository) (cargo : cargo.Cargo) : Go (option error) :=
  sess <- Copy ;;
  defer (Close sess) (
    let c := C (cargo_db r) "cargo" in
    err <- Remove c [("trackingid", cargo.c_TrackingID cargo)] ;;
    ret err).

Definition timeCargoRepository_Remove (r : timeCargoRepository) (cargo : cargo.Cargo) : Go (option error) :=
  start <- time_Now ;;
  defer (timeTrack start "cargo Remove") (
    cargoRepository_Remove (timed.cargo r) cargo).

Definition cargoRepository_Store (r : cargoRepository) (cargo : cargo.Cargo) : Go (option error) :=
  sess <- Copy ;;
  defer (Close sess) (
    let c := C (cargo_db r) "cargo" in
    err <- Upsert c [("trackingid", cargo.c_TrackingID cargo)] cargo ;;
    ret err).

Definition timeCargoRepository_Store (r : timeCargoRepository) (cargo : cargo.Cargo) : Go (option error) :=
  start <- time_Now ;;
  defer (timeTrack start "cargo Store") (
    cargoRepository_Store (timed.cargo r) cargo).

Definition cargoRepository_Find (r : cargoRepository) (id : cargo.TrackingID) : Go (cargo.Cargo + error) :=
  sess <- Copy ;;
  defer (Close sess) (
    let c := C (cargo_db r) "cargo" in
    result <- One (T := cargo.Cargo) c [("trackingid", id)] ;;
    match result with
    | inr err =>
        if is_ErrNotFound err then ret (inr cargo_ErrUnknown)
        else ret (inr err)
    | inl result => ret (inl result)
    end).

Definition timeCargoRepository_Find (r : timeCargoRepository) (id : cargo.TrackingID) : Go (cargo.Cargo + error) :=
  start <- time_Now ;;
  defer (timeTrack start "cargo Find") (
    cargoRepository_Find (timed.cargo r) id).

Definition cargoRepository_FindAll (r : cargoRepository) : Go (list cargo.Cargo) :=
  sess <- Copy ;;
  defer (Close sess) (
    let c := C (cargo_db r) "cargo" in
    res <- All (T := cargo.Cargo) c [] ;;
    match res.2 with
    | Some err => ret []
    | None => ret res.1
    end).

Definition timeCargoRepository_FindAll (r : timeCargoRepository) : Go (list cargo.Cargo) :=
  start <- time_Now ;;
  defer (timeTrack start "cargo FindAll") (
    cargoRepository_FindAll (timed.cargo r)).

Definition as_cargo_Repository (r : timeCargoRepository) : cargo_Repository :=
  mkCargoRepository (timeCargoRepository_Store r) (timeCargoRepository_Find r)
                    (timeCargoRepository_Remove r) (timeCargoRepository_FindAll r).

Definition NewCargoRepository (db : string) : Go (cargo_Repository + error) :=
  let r := mkCargoRepo db in
  sess <- Copy ;;
  defer (Close sess) (
    let c := C (cargo_db r) "cargo" in
    err <- EnsureIndex c "trackingid" ;;
    match err with
    | Some err => ret (inr err)
    | None => ret (inl (as_cargo_Repository (mkTimeCargoRepo r)))
    end).

Record locationRepository : Type := mkLocationRepo { location_db : string }.

Record timeLocationRepository : Type := mkTimeLocationRepo { location : locationRepository }.

Definition locationRepository_Find (r : locationRepository) (locode : location.UNLocode)
    : Go (location.Location + error) :=
  sess <- Copy ;;
  defer (Close sess) (
    let c := C (location_db r) "location" in
    result <- One (T := location.Location) c [("unlocode", locode)] ;;
    match result with
    | inr err =>
        if is_ErrNotFound err then ret (inr location_ErrUnknown)
        else ret (inr err)
    | inl result => ret (inl result)
    end).

Definition timeLocationRepository_Find (r : timeLocationRepository) (locode : location.UNLocode)
    : Go (location.Location + error) :=
  start <- time_Now ;;
  defer (timeTrack start "location Find") (
    locationRepository_Find (timed.location r) locode).

Definition locationRepository_FindAll (r : locationRepository) : Go (list location.Location) :=
  sess <- Copy ;;
  defer (Close sess) (
    let c := C (location_db r) "location" in
    res <- All (T := location.Location) c [] ;;
    match res.2 with
    | Some err => ret []
    | None => ret res.1
    end).

Definition timeLocationRepository_FindAll (r : timeLocationRepository) : Go (list location.Location) :=
  start <- time_Now ;;
  defer (timeTrack start "location FindAll") (
    locationRepository_FindAll (timed.location r)).

Definition locationRepository_store (r : locationRepository) (l : location.Location) : Go (option error) :=
  sess <- Copy ;;
  defer (Close sess) (
    let c := C (location_db r) "location" in
    Upsert c [("unlocode", location.UNLocode_of l)] l).

Definition as_location_Repository (r : timeLocationRepository) : location_Repository :=
  mkLocationRepository (timeLocationRepository_Find r) (timeLocationRepository_FindAll r).

Definition NewLocationRepository `{Fixtures} (db : string) : Go (location_Repository + error) :=
  let r := mkLocationRepo db in
  sess <- Copy ;;
  defer (Close sess) (
    let c := C (location_db r) "location" in
    err <- EnsureIndex c "unlocode" ;;
    match err with
    | Some err => ret (inr err)
    | None =>
        for_each initial_locations (locationRepository_store r) ;;;
        ret (inl (as_location_Repository (mkTimeLocationRepo r)))
    end).

Record voyageRepository : Type := mkVoyageRepo { voyage_db : string }.

Record timeVoyageRepository : Type := mkTimeVoyageRepo { voyage : voyageRepository }.

Definition voyageRepository_Find (r : voyageRepository) (voyageNumber : voyage.Number)
    : Go (voyage.Voyage + error) :=
  sess <- Copy ;;
  defer (Close sess) (
    let c := C (voyage_db r) "voyage" in
    result <- One (T := voyage.Voyage) c [("number", voyageNumber)] ;;
    match result with
    | inr err =>
        if is_ErrNotFound err then ret (inr voyage_ErrUnknown)
        else ret (inr err)
    | inl result => ret (inl result)
    end).

Definition timeVoyageRepository_Find (r : timeVoyageRepository) (voyageNumber : voyage.Number)
    : Go (voyage.Voyage + error) :=
  start <- time_Now ;;
  defer (timeTrack start "voyage Find") (
    voyageRepository_Find (timed.voyage r) voyageNumber).

Definition voyageRepository_store (r : voyageRepository) (v : voyage.Voyage) : Go (option error) :=
  sess <- Copy ;;
  defer (Close sess) (
    let c := C (voyage_db r) "voyage" in
    Upsert c [("number", voyage.Number_of v)] v).

Definition as_voyage_Repository (r : timeVoyageRepository) : voyage_Repository :=
  mkVoyageRepository (timeVoyageRepository_Find r).

Definition NewVoyageRepository `{Fixtures} (db : string) : Go (voyage_Repository + error) :=
  let r := mkVoyageRepo db in
  sess <- Copy ;;
  defer (Close sess) (
    let c := C (voyage_db r) "voyage" in
    err <- EnsureIndex c "number" ;;
    match err with
    | Some err => ret (inr err)
    | None =>
        for_each initial_voyages (voyageRepository_store r) ;;;
        ret (inl (as_voyage_Repository (mkTimeVoyageRepo r)))
    end).

Record handlingEventRepository : Type := mkHandlingEventRepo { event_db : string }.

Record timeHandlingEventRepository : Type := mkTimeHandlingEventRepo { event : handlingEventRepository }.

Definition handlingEventRepository_Store (r : handlingEventRepository) (e : cargo.HandlingEvent) : Go unit :=
  sess <- Copy ;;
  defer (Close sess) (
    let c := C (event_db r) "handling_event" in
    Insert c e ;;;
    ret tt).

Definition timeHandlingEventRepository_Store (r : timeHandlingEventRepository) (e : cargo.HandlingEvent) : Go unit :=
  start <- time_Now ;;
  defer (timeTrack start "event Store") (
    handlingEventRepository_Store (timed.event r) e).

Definition handlingEventRepository_QueryHandlingHistory (r : handlingEventRepository)
    (id : cargo.TrackingID) : Go cargo.HandlingHistory :=
  sess <- Copy ;;
  defer (Close sess) (
    let c := C (event_db r) "handling_event" in
    res <- All (T := cargo.HandlingEvent) c [("trackingid", id)] ;;
    ret (cargo.mkHandlingHistory res.1)).

Definition timeHandlingEventRepository_QueryHandlingHistory (r : timeHandlingEventRepository)
    (id : cargo.TrackingID) : Go cargo.HandlingHistory :=
  start <- time_Now ;;
  defer (timeTrack start "event QueryHandlingHistory") (
    handlingEventRepository_QueryHandlingHistory (timed.event r) id).

Definition as_HandlingEventRepository (r : timeHandlingEventRepository) : cargo_HandlingEventRepository :=
  mkHandlingEventRepository (timeHandlingEventRepository_Store r)
                            (timeHandlingEventRepository_QueryHandlingHistory r).

Definition NewHandlingEventRepository (db : string) : cargo_HandlingEventRepository :=
  let r := mkHandlingEventRepo db in
  as_HandlingEventRepository (mkTimeHandlingEventRepo r).

End timed.

(** ** Package cargo: the delivery derivation engine and the aggregate

    The engine and the aggregate's methods are declared in package [cargo],
    which is missing; the definitions follow sections 4.1 to 4.3 of the
    specification rule by rule. *)

(** Modelled from the spec: two things the specification names without
    giving a rule for them, the last-update timestamp of a Delivery, said
    to be a function of the three inputs, and the handling history the
    aggregate re-derives from when only an itinerary or a route
    specification is handed to it. *)
Class Unspecified : Type := {
  lastUpdated :
    cargo.RouteSpecification -> cargo.Itinerary -> cargo.HandlingHistory -> option cargo.Time;
  fullHistory : cargo.Cargo -> cargo.HandlingHistory
}.

Module engine.
Import cargo.

(** Equality of optional voyage numbers, of event types and of activities. *)
Definition option_string_eqb (a b : option string) : bool :=
  match a, b with
  | Some x, Some y => String.eqb x y
  | None, None => true
  | _, _ => false
  end.

Definition type_eqb (a b : HandlingEventType) : bool :=
  match a, b with
  | Receive, Receive | Load, Load | Unload, Unload
  | Customs, Customs | Claim, Claim => true
  | _, _ => false
  end.

Definition activity_eqb (a b : HandlingActivity) : bool :=
  type_eqb (act_Type a) (act_Type b)
  && String.eqb (act_Location a) (act_Location b)
  && option_string_eqb (act_VoyageNumber a) (act_VoyageNumber b).

(** Modelled from the spec: section 4.1, [satisfies]: non-empty, first
    load location is the origin, last unload location is the destination,
    last unload time at or before the deadline; the zero time is the absent
    deadline. *)
Definition satisfies (i : Itinerary) (rs : RouteSpecification) : bool :=
  match head (Legs i), last (Legs i) with
  | Some first, Some final =>
      String.eqb (leg_LoadLocation first) (rs_Origin rs)
      && String.eqb (leg_UnloadLocation final) (rs_Destination rs)
      && (Z.eqb (rs_ArrivalDeadline rs) 0
          || Z.leb (leg_UnloadTime final) (rs_ArrivalDeadline rs))
  | _, _ => false
  end.

(** Modelled from the spec: section 4.1, [isExpected]. *)
Definition isExpected (i : Itinerary) (e : HandlingEvent) : bool :=
  match head (Legs i), last (Legs i) with
  | Some first, Some final =>
      match he_Type e with
      | Receive => String.eqb (leg_LoadLocation first) (he_Location e)
      | Load =>
          existsb (fun l => option_string_eqb (Some (leg_VoyageNumber l)) (he_VoyageNumber e)
                            && String.eqb (leg_LoadLocation l) (he_Location e)) (Legs i)
      | Unload =>
          existsb (fun l => option_string_eqb (Some (leg_VoyageNumber l)) (he_VoyageNumber e)
                            && String.eqb (leg_UnloadLocation l) (he_Location e)) (Legs i)
      | Claim => String.eqb (leg_UnloadLocation final) (he_Location e)
      | Customs => true
      end
  | _, _ => match he_Type e with Receive => true | _ => false end
  end.

(** Modelled from the spec: the leg boundaries of an itinerary in travel
    order (section 4.2, rule 8): load and unload of every leg, then the
    claim at the last unload location. *)
Definition boundaries (i : Itinerary) : list HandlingActivity :=
  flat_map (fun l =>
              [mkHandlingActivity Load (leg_LoadLocation l) (Some (leg_VoyageNumber l));
               mkHandlingActivity Unload (leg_UnloadLocation l) (Some (leg_VoyageNumber l))])
           (Legs i)
  ++ match last (Legs i) with
     | Some final => [mkHandlingActivity Claim (leg_UnloadLocation final) None]
     | None => []
     end.

(** The activity an event reports. *)
Definition activity_of (e : HandlingEvent) : HandlingActivity :=
  mkHandlingActivity (he_Type e) (he_Location e) (he_VoyageNumber e).

(** Modelled from the spec: an event consumes the boundaries up to the
    earliest one it matches; an event that matches none consumes nothing
    (section 4.1, the earliest unconsumed leg). *)
Fixpoint consume (a : HandlingActivity) (bs : list HandlingActivity)
    : option (list HandlingActivity) :=
  match bs with
  | [] => None
  | b :: bs' => if activity_eqb a b then Some bs' else consume a bs'
  end.

(** Modelled from the spec: the boundaries left after the events are
    replayed in order (section 4.2, rule 8). *)
Definition replay (events : list HandlingEvent) (bs : list HandlingActivity)
    : list HandlingActivity :=
  fold_left (fun bs e => default bs (consume (activity_of e) bs)) events bs.

(** Modelled from the spec: section 4.2, rule 5. *)
Definition routingStatus (i : Itinerary) (rs : RouteSpecification) : RoutingStatus :=
  if IsEmpty i then NotRouted
  else if satisfies i rs then Routed else Misrouted.

(** Modelled from the spec: section 4.2, rule 2. *)
Definition transportStatus (t : HandlingEventType) : TransportStatus :=
  match t with
  | Receive => InPort
  | Load => OnboardCarrier
  | Unload => InPort
  | Customs => InPort
  | Claim => Claimed
  end.

(** Modelled from the spec: section 4.2, rule 7. *)
Definition eta (i : Itinerary) (status : RoutingStatus) : option Time :=
  match status with
  | Routed => leg_UnloadTime <$> last (Legs i)
  | _ => None
  end.

(** Modelled from the spec: section 4.2, the derivation, from a history
    sorted as section 3 says; the last event is the current one.  With an
    empty history the routing status is that of rule 5, as sections 4.3
    and 8 require: rule 1's "Routed if the itinerary is non-empty" for an
    itinerary that satisfies the route specification, Misrouted for one
    that does not. *)
Definition deriveDelivery `{Unspecified}
    (rs : RouteSpecification) (i : Itinerary) (h : HandlingHistory) : Delivery :=
  match last (HandlingEvents h) with
  | None =>
      let status := routingStatus i rs in
      mkDelivery NotReceived None None false (eta i status)
                 (Some (mkHandlingActivity Receive (rs_Origin rs) None))
                 false status (lastUpdated rs i h)
  | Some current =>
      let status := routingStatus i rs in
      mkDelivery
        (transportStatus (he_Type current))
        (Some (he_Location current))
        (match he_Type current with Load => he_VoyageNumber current | _ => None end)
        (existsb (fun e => negb (isExpected i e)) (HandlingEvents h))
        (eta i status)
        (head (replay (HandlingEvents h) (boundaries i)))
        (match he_Type current, last (Legs i) with
         | Unload, Some final => String.eqb (he_Location current) (leg_UnloadLocation final)
         | _, _ => false
         end)
        status
        (lastUpdated rs i h)
  end.

(** Modelled from the spec: [Cargo.AssignToRoute] is missing; section 4.3,
    replace the itinerary, re-derive the Delivery; there is no error. *)
Definition AssignToRoute `{Unspecified} (c : Cargo) (itinerary : Itinerary) : Cargo :=
  mkCargo (c_TrackingID c) (c_Origin c) (c_RouteSpecification c) itinerary
          (deriveDelivery (c_RouteSpecification c) itinerary (fullHistory c)).

(** Modelled from the spec: [Cargo.SpecifyNewRoute] is missing; section
    4.3, fail with InvalidState when origin and destination are equal,
    otherwise replace the route specification and re-derive the Delivery.
    The result is the cargo as the call leaves it and the error. *)
Definition SpecifyNewRoute `{Unspecified} (c : Cargo) (rs : RouteSpecification)
    : Cargo * option error :=
  if String.eqb (rs_Origin rs) (rs_Destination rs) then (c, Some cargo_ErrInvalidState)
  else (mkCargo (c_TrackingID c) (c_Origin c) rs (c_Itinerary c)
                (deriveDelivery rs (c_Itinerary c) (fullHistory c)),
        None).

End engine.

(** ** Package booking *)
Module booking.

(** [type service struct]: the repositories the methods below call; the
    routing service and the icons are used by other methods only. *)
Record service : Type := mkService {
  cargos : cargo_Repository;
  locations : location_Repository;
  handlingEvents : cargo_HandlingEventRepository
}.

Definition AssignCargoToRoute `{Unspecified} (s : service)
    (id : cargo.TrackingID) (itinerary : cargo.Itinerary) : Go (option error) :=
  if String.eqb id "" || Nat.eqb (length (cargo.Legs itinerary)) 0
  then ret (Some booking_ErrInvalidArgument)
  else
    found <- cr_Find (cargos s) id ;;
    match found with
    | inr err =>
        fmt_Printf "Unable to find cargo %s in assigning cargo to route, error: \n"
                   [AString id; AError err] ;;;
        ret (Some err)
    | inl c =>
        let c := engine.AssignToRoute c itinerary in
        cr_Store (cargos s) c
    end.

(** [c.SpecifyNewRoute(...)] is called as a statement: whatever it
    returns is dropped, and the cargo it leaves is stored. *)
Definition ChangeDestination `{Unspecified} (s : service)
    (id : cargo.TrackingID) (destination : location.UNLocode) : Go (option error) :=
  if String.eqb id "" || String.eqb destination ""
  then ret (Some booking_ErrInvalidArgument)
  else
    found <- cr_Find (cargos s) id ;;
    match found with
    | inr err => ret (Some err)
    | inl c =>
        found <- lr_Find (locations s) destination ;;
        match found with
        | inr err => ret (Some err)
        | inl l =>
            let c :=
              (engine.SpecifyNewRoute c
                 (cargo.mkRouteSpecification
                    (cargo.c_Origin c)
                    (location.UNLocode_of l)
                    (cargo.rs_ArrivalDeadline (cargo.c_RouteSpecification c)))).1 in
            err <- cr_Store (cargos s) c ;;
            match err with
            | Some err => ret (Some err)
            | None => ret None
            end
        end
    end.

End booking.

(** ** The two variants side by side *)
Inductive variant : Type := Padded | Timed.

Definition cargo_repo (v : variant) (db : string) : cargo_Repository :=
  match v with
  | Padded => padded.as_cargo_Repository (padded.mkCargoRepo db)
  | Timed => timed.as_cargo_Repository (timed.mkTimeCargoRepo (timed.mkCargoRepo db))
  end.

Definition location_repo (v : variant) (db : string) : location_Repository :=
  match v with
  | Padded => padded.as_location_Repository (padded.mkLocationRepo db)
  | Timed => timed.as_location_Repository (timed.mkTimeLocationRepo (timed.mkLocationRepo db))
  end.

Definition voyage_repo (v : variant) (db : string) : voyage_Repository :=
  match v with
  | Padded => padded.as_voyage_Repository (padded.mkVoyageRepo db)
  | Timed => timed.as_voyage_Repository (timed.mkTimeVoyageRepo (timed.mkVoyageRepo db))
  end.

Definition event_repo (v : variant) (db : string) : cargo_HandlingEventRepository :=
  match v with
  | Padded => padded.NewHandlingEventRepository db
  | Timed => timed.NewHandlingEventRepository db
  end.

(** The booking service over the repositories of one variant and database. *)
Definition service_of (v : variant) (db : string) : booking.service :=
  booking.mkService (cargo_repo v db) (location_repo v db) (event_repo v db).

(** The documents of the cargo collection that carry tracking identity [id]. *)
Definition cargo_records (db : string) (id : cargo.TrackingID) (w : World) : list Doc :=
  mgo.find [("trackingid", id)] (mgo.collection (session w) (C db "cargo")).

(** The cargos on record under tracking identity [id], as their documents
    decode. *)
Definition cargos_on_record (db : string) (id : cargo.TrackingID) (w : World)
    : list cargo.Cargo :=
  unmarshal <$> cargo_records db id w.

Definition location_records (db : string) (k : location.UNLocode) (w : World) : list Doc :=
  mgo.find [("unlocode", k)] (mgo.collection (session w) (C db "location")).

Definition voyage_records (db : string) (k : voyage.Number) (w : World) : list Doc :=
  mgo.find [("number", k)] (mgo.collection (session w) (C db "voyage")).

(** The handling events on record for [id], as their documents decode,
    in collection order. *)
Definition events_on_record (db : string) (id : cargo.TrackingID) (w : World)
    : list cargo.HandlingEvent :=
  unmarshal <$> mgo.find [("trackingid", id)]
                  (mgo.collection (session w) (C db "handling_event")).

(** The filler records of the padded variant for [id]. *)
Definition filler_records (db : string) (id : cargo.TrackingID) (w : World) : list Doc :=
  mgo.find [("trackingid_g", id)] (mgo.collection (session w) (C db "cargo")).

(** Section 3 of the specification: completion time ascending, ties by
    registration time ascending. *)
Definition before (a b : cargo.HandlingEvent) : bool :=
  (cargo.he_CompletionTime a <? cargo.he_CompletionTime b)
  || ((cargo.he_CompletionTime a =? cargo.he_CompletionTime b)
      && (cargo.he_RegistrationTime a <=? cargo.he_RegistrationTime b)).

Fixpoint ordered (h : list cargo.HandlingEvent) : bool :=
  match h with
  | [] => true
  | a :: rest => forallb (before a) rest && ordered rest
  end.

(** A process that has just started: nothing stored, nothing printed, the
    package variables at their zero values. *)
Definition fresh (env : gmap string string) : World :=
  mkWorld (mgo.mkSession ∅ None [] []) [] (fun n => Z.of_nat n) 0 env (mkGarbage "").

(** ** What the requests leave on the server *)

(** The session after [c.Upsert(sel, $set fields)]. *)
Definition upserted (c : string * string) (sel : bson.M) (fields : Doc)
    (s : mgo.Session) : mgo.Session :=
  mgo.next
    match mgo.failure s with
    | Some _ => s
    | None => mgo.set_collection s c (mgo.upsert sel fields (mgo.collection s c))
    end.

(** The session after [c.Insert(doc)]. *)
Definition inserted (c : string * string) (doc : Doc) (s : mgo.Session) : mgo.Session :=
  mgo.next
    match mgo.failure s with
    | Some _ => s
    | None => mgo.set_collection s c (mgo.insert doc (mgo.collection s c))
    end.

(** The session after [c.EnsureIndex(index)] on [key], and its error. *)
Definition index_ensured (c : string * string) (key : string) (s : mgo.Session)
    : mgo.Session :=
  if mgo.cached s c key then s
  else match mgo.failure s with
       | Some _ => mgo.next s
       | None => mgo.cache (mgo.next s) c key
       end.

Definition index_error (c : string * string) (key : string) (s : mgo.Session)
    : option error :=
  if mgo.cached s c key then None else driver_error <$> mgo.failure s.

(** Of the elements of [xs], sent to the server one request each, in
    order, from session [s] on: those whose request gets through. *)
Fixpoint got_through {A} (s : mgo.Session) (xs : list A) : list A :=
  match xs with
  | [] => []
  | x :: xs' =>
      match mgo.failure s with
      | None => x :: got_through (mgo.next s) xs'
      | Some _ => got_through (mgo.next s) xs'
      end
  end.

(** The session after [Store(cargo)] of either variant; [g] is the value of
    [GARBAGE_CARGO] at the call. *)
Definition stored (v : variant) (db : string) (c : cargo.Cargo) (g : Garbage)
    (s : mgo.Session) : mgo.Session :=
  match v with
  | Timed => upserted (C db "cargo") [("trackingid", cargo.c_TrackingID c)] (marshal c) s
  | Padded =>
      upserted (C db "cargo") [("trackingid_g", cargo.c_TrackingID c)] (marshal g)
        (upserted (C db "cargo") [("trackingid", cargo.c_TrackingID c)] (marshal c) s)
  end.

(** The cargo collection after a successful [Store(cargo)]. *)
Definition stored_docs (v : variant) (c : cargo.Cargo) (g : Garbage)
    (docs : list Doc) : list Doc :=
  match v with
  | Timed => mgo.upsert [("trackingid", cargo.c_TrackingID c)] (marshal c) docs
  | Padded =>
      mgo.upsert [("trackingid_g", cargo.c_TrackingID c)] (marshal g)
        (mgo.upsert [("trackingid", cargo.c_TrackingID c)] (marshal c) docs)
  end.

(** The answer of a [Find] by key [k = key] in collection [c], with the
    not-found error of the package. *)
Definition found {T} `{Marshal T} (c : string * string) (k key : string)
    (unknown : error) (s : mgo.Session) : T + error :=
  match mgo.failure s with
  | Some msg => inr (driver_error msg)
  | None =>
      match mgo.find [(k, key)] (mgo.collection s c) with
      | d :: _ => inl (unmarshal d)
      | [] => inr unknown
      end
  end.

(** The session at the request of [Find] that looks the cargo up: the
    padded variant has by then sent its look-up of the filler record. *)
Definition asked (v : variant) (s : mgo.Session) : mgo.Session :=
  match v with
  | Timed => s
  | Padded => mgo.next s
  end.

(** ** Comparing runs *)

(** [m] talks to the database only: what it returns and what it leaves
    on the server depend on the server alone, and the rest of the process
    state is left as it was. *)
Definition db_only {A} (m : Go A) : Prop :=
  forall s, exists a s', forall o k t e g,
    m (mkWorld s o k t e g) = (a, mkWorld s' o k t e g).

(** Two runs that return the same value and leave the same database,
    package variables and environment. *)
Definition same_outcome {A} (x y : A * World) : Prop :=
  x.1 = y.1
  /\ session x.2 = session y.2
  /\ GARBAGE_CARGO x.2 = GARBAGE_CARGO y.2
  /\ environ x.2 = environ y.2.

(** ** Sample data *)
Module sample.

Definition route : cargo.RouteSpecification :=
  cargo.mkRouteSpecification "SESTO" "CNHKG" 1000000000.

Definition leg : cargo.Leg := cargo.mkLeg "V100" "SESTO" "CNHKG" 10000000 20000000.

(** An itinerary that ends in Hamburg: it does not satisfy [route]. *)
Definition detour : cargo.Itinerary :=
  cargo.mkItinerary [cargo.mkLeg "V300" "SESTO" "DEHAM" 10000000 20000000].

Definition booked : cargo.Cargo :=
  cargo.mkCargo "ABC123" "SESTO" route (cargo.mkItinerary [leg]) cargo.zeroDelivery.



Definition Stockholm : location.Location := location.mkLocation "SESTO" "Stockholm".
Definition Hamburg : location.Location := location.mkLocation "DEHAM" "Hamburg".

Definition V100 : voyage.Voyage := voyage.mkVoyage "V100".

#[local] Instance fixtures : Fixtures :=
  {| initial_locations := [Stockholm; Hamburg]; initial_voyages := [V100] |}.

(** No last-update timestamp, no recorded history. *)
Definition unspecified : Unspecified :=
  {| lastUpdated := fun _ _ _ => None;
     fullHistory := fun _ => cargo.mkHandlingHistory [] |}.

(** A process of variant [v] in which the locations are registered and
    [booked] is stored. *)
Definition world (v : variant) : World :=
  let w := fresh ∅ in
  let w := (match v with
            | Padded => padded.NewLocationRepository "goddd" w
            | Timed => timed.NewLocationRepository "goddd" w
            end).2 in
  (cr_Store (cargo_repo v "goddd") booked w).2.

(** The same process after the connection to the server is lost. *)
Definition offline (v : variant) : World :=
  with_session (mgo.mkSession (mgo.data (session (world v))) (Some "no reachable servers")
                              [] (mgo.ensured (session (world v))))
               (world v).

(** Two events of one cargo, recorded in the order unload, load; the
    load was completed first. *)
Definition unloaded : cargo.HandlingEvent :=
  cargo.mkHandlingEvent "ABC123" cargo.Unload "CNHKG" (Some "V100") 20000000 1000000.
Definition loaded : cargo.HandlingEvent :=
  cargo.mkHandlingEvent "ABC123" cargo.Load "SESTO" (Some "V100") 10000000 2000000.

End sample.

(** ** What a removal leaves on the server *)

(** The session after [c.Remove(sel)]. *)
Definition removed (c : string * string) (sel : bson.M) (s : mgo.Session) : mgo.Session :=
  mgo.next
    match mgo.failure s with
    | Some _ => s
    | None =>
        match mgo.remove sel (mgo.collection s c) with
        | Some docs => mgo.set_collection s c docs
        | None => s
        end
    end.

(** The error of [c.Remove(sel)]. *)
Definition remove_error (c : string * string) (sel : bson.M) (s : mgo.Session) : option error :=
  match mgo.failure s with
  | Some msg => Some (driver_error msg)
  | None =>
      match mgo.remove sel (mgo.collection s c) with
      | Some _ => None
      | None => Some mgo_ErrNotFound
      end
  end.

(** The session after [Remove(cargo)] of either variant. *)
Definition unstored (v : variant) (db : string) (id : cargo.TrackingID)
    (s : mgo.Session) : mgo.Session :=
  match v with
  | Timed => removed (C db "cargo") [("trackingid", id)] s
  | Padded =>
      removed (C db "cargo") [("trackingid_g", id)]
        (removed (C db "cargo") [("trackingid", id)] s)
  end.

(** Two servers whose collections hold the same documents and whose
    connections are in the same state. *)
Definition same_documents (s s' : mgo.Session) : Prop :=
  mgo.failure s = mgo.failure s'
  /\ forall c, mgo.collection s c = mgo.collection s' c.

(** No tracking identity has more than one cargo record. *)
Definition unique_cargos (db : string) (w : World) : Prop :=
  forall id, (length (cargo_records db id w) <= 1)%nat.

(** A document that is not both a cargo record and a filler record. *)
Definition apart (d : Doc) : Prop :=
  d !! "trackingid_g" = None \/ d !! "trackingid" = None.

(** No document of the cargo collection is both a cargo record and a filler
    record. *)
Definition records_apart (db : string) (w : World) : Prop :=
  Forall apart (mgo.collection (session w) (C db "cargo")).

(** ** What a constructor leaves on the server *)

(** The documents of a collection after every element of [xs] has been
    upserted under its key, in order: [for _, x := range xs { r.store(x) }]. *)
Definition registered {T} `{Marshal T} (k : string) (key : T -> string)
    (xs : list T) (docs : list Doc) : list Doc :=
  fold_left (fun docs x => mgo.upsert [(k, key x)] (marshal x) docs) xs docs.

(** The constructors of either variant. *)
Definition NewLocationRepository_of `{Fixtures} (v : variant) (db : string)
    : Go (location_Repository + error) :=
  match v with
  | Padded => padded.NewLocationRepository db
  | Timed => timed.NewLocationRepository db
  end.

Definition NewVoyageRepository_of `{Fixtures} (v : variant) (db : string)
    : Go (voyage_Repository + error) :=
  match v with
  | Padded => padded.NewVoyageRepository db
  | Timed => timed.NewVoyageRepository db
  end.

Definition NewCargoRepository_of (v : variant) (db : string)
    : Go (cargo_Repository + error) :=
  match v with
  | Padded => padded.NewCargoRepository db
  | Timed => timed.NewCargoRepository db
  end.

(** ** Package booking: the read side of the service *)

(** [routing.Service]: the interface the booking service calls. *)
Record routing_Service : Type := mkRoutingService {
  FetchRoutesForSpecification : cargo.RouteSpecification -> Go (list cargo.Itinerary)
}.

(** [cargo.CargoIcon], as [NewService] builds it: [CargoIcon{Data: bytes}]. *)
Record CargoIcon : Type := mkCargoIcon {
  Data : list Byte.byte
}.

(** What a call that may panic leaves. *)
Inductive outcome (A : Type) : Type :=
  | returned (a : A)
  | panicked (msg : string).
Arguments returned {A} a.
Arguments panicked {A} msg.

(** [math/rand]: a generator and its [Intn], which for a positive [n]
    draws a number below [n] and moves the generator on. *)
Class Rand : Type := {
  Rng : Type;
  draw : Z -> Rng -> Z * Rng;
  draw_range : forall n g, 0 < n -> 0 <= (draw n g).1 < n
}.

(** [r.Intn(n)]: it panics when [n <= 0]. *)
Definition Intn `{Rand} (n : Z) (g : Rng) : outcome Z * Rng :=
  if n <=? 0 then (panicked "invalid argument to Intn", g)
  else (returned (draw n g).1, (draw n g).2).

(** [xs[i]]: it panics when [i] is out of range. *)
Definition index {A} (xs : list A) (i : Z) : outcome A :=
  if i <? 0 then panicked "index out of range"
  else match xs !! Z.to_nat i with
       | Some x => returned x
       | None => panicked "index out of range"
       end.

Module views.

(** [type Location struct]: the read model of a location. *)
Record Location : Type := mkLocation {
  UNLocode : string;
  Name : string
}.

(** [type Cargo struct]: the read model of a cargo. *)
Record Cargo : Type := mkCargo {
  ArrivalDeadline : cargo.Time;
  Destination : string;
  Legs : list cargo.Leg;
  Misrouted : bool;
  Origin : string;
  Routed : bool;
  TrackingID : string
}.

(** [Cargo{}] *)
Definition zeroCargo : Cargo := mkCargo 0 "" [] false "" false "".

(** [type service struct], with the routing service and the icons next to
    the repositories. *)
Record service : Type := mkService {
  repositories : booking.service;
  routingService : routing_Service;
  icons : list CargoIcon
}.

Definition assemble (c : cargo.Cargo) (events : cargo_HandlingEventRepository) : Cargo :=
  {| TrackingID := cargo.c_TrackingID c;
     Origin := cargo.c_Origin c;
     Destination := cargo.rs_Destination (cargo.c_RouteSpecification c);
     Misrouted := match cargo.d_RoutingStatus (cargo.c_Delivery c) with
                  | cargo.Misrouted => true
                  | _ => false
                  end;
     Routed := negb (cargo.IsEmpty (cargo.c_Itinerary c));
     ArrivalDeadline := cargo.rs_ArrivalDeadline (cargo.c_RouteSpecification c);
     Legs := cargo.Legs (cargo.c_Itinerary c) |}.

(** [pickIcon]: [nil] without icons, otherwise the icon at a drawn index. *)
Definition pickIcon `{Rand} (s : service) (g : Rng) : outcome (option CargoIcon) * Rng :=
  if Nat.eqb (length (icons s)) 0 then (returned None, g)
  else
    match Intn (Z.of_nat (length (icons s))) g with
    | (panicked msg, g) => (panicked msg, g)
    | (returned i, g) =>
        match index (icons s) i with
        | panicked msg => (panicked msg, g)
        | returned icon => (returned (Some icon), g)
        end
    end.

(** [LoadCargo] returns a read model and an error. *)
Definition LoadCargo (s : service) (id : cargo.TrackingID) : Go (Cargo * option error) :=
  if String.eqb id "" then ret (zeroCargo, Some booking_ErrInvalidArgument)
  else
    found <- cr_Find (booking.cargos (repositories s)) id ;;
    match found with
    | inr err => ret (zeroCargo, Some err)
    | inl c => ret (assemble c (booking.handlingEvents (repositories s)), None)
    end.

(** [RequestPossibleRoutesForCargo]: [nil] and [[]cargo.Itinerary{}] are
    both the list without elements. *)
Definition RequestPossibleRoutesForCargo (s : service) (id : cargo.TrackingID)
    : Go (list cargo.Itinerary) :=
  if String.eqb id "" then ret []
  else
    found <- cr_Find (booking.cargos (repositories s)) id ;;
    match found with
    | inr err =>
        fmt_Printf "Unable to find cargo %s in RequestPossibleRoutesForCargo, error: %s\n"
                   [AString id; AError err] ;;;
        ret []
    | inl c =>
        FetchRoutesForSpecification (routingService s) (cargo.c_RouteSpecification c)
    end.

Definition Cargos (s : service) : Go (list Cargo) :=
  found <- cr_FindAll (booking.cargos (repositories s)) ;;
  ret (fold_left
         (fun result c =>
            (result ++ [assemble c (booking.handlingEvents (repositories s))])%list)
         found []).

Definition Locations (s : service) : Go (list Location) :=
  found <- lr_FindAll (booking.locations (repositories s)) ;;
  ret (fold_left
         (fun result v =>
            (result ++ [mkLocation (location.UNLocode_of v) (location.Name v)])%list)
         found []).

End views.

(** The whole booking service over the repositories of one variant. *)
Definition views_of (v : variant) (db : string) (rs : routing_Service)
    (icons : list CargoIcon) : views.service :=
  views.mkService (service_of v db) rs icons.

(** A generator for the examples: a linear congruential one. *)
Definition sample_rand : Rand.
Proof.
  refine {| Rng := Z;
            draw := fun n g => (g mod n, (g * 1103515245 + 12345) mod 2147483648) |}.
  intros n g Hn. cbn. apply Z.mod_pos_bound, Hn.
Defined.
(** * Properties *)

Local Open Scope list_scope.

(** ** Documents *)
Section Documents.

Lemma union_absorb (fields d : Doc) : fields ∪ (fields ∪ d) = fields ∪ d.
Proof. by rewrite (assoc_L (∪)), (idemp_L (∪)). Qed.

Lemma getString_union_l (fields d : Doc) k s :
  fields !! k = Some (VString s) -> getString (fields ∪ d) k = s.
Proof.
  intros Hk. unfold getString.
  by rewrite (lookup_union_Some_l fields d k (VString s) Hk).
Qed.

(** Cutting to the millisecond loses less than a millisecond, and nothing
    of an instant that is a whole number of milliseconds. *)
Lemma millis_le (t : cargo.Time) : millis t <= t < millis t + 1000000.
Proof. unfold millis. pose proof (Z.div_mod t 1000000). pose proof (Z.mod_pos_bound t 1000000). lia. Qed.

Lemma millis_whole (n : Z) : millis (n * 1000000) = n * 1000000.
Proof. unfold millis. by rewrite Z.div_mul. Qed.

Lemma millis_idemp (t : cargo.Time) : millis (millis t) = millis t.
Proof. unfold millis at 2. apply millis_whole. Qed.

Lemma kept_RouteSpecification_idemp rs :
  kept_RouteSpecification (kept_RouteSpecification rs) = kept_RouteSpecification rs.
Proof. unfold kept_RouteSpecification; cbn. by rewrite millis_idemp. Qed.

Lemma kept_Itinerary_idemp i : kept_Itinerary (kept_Itinerary i) = kept_Itinerary i.
Proof.
  unfold kept_Itinerary; cbn. f_equal. rewrite <- list_fmap_compose.
  apply list_fmap_ext. intros _ l _. unfold kept_Leg; cbn. by rewrite !millis_idemp.
Qed.

Lemma kept_Delivery_idemp d : kept_Delivery (kept_Delivery d) = kept_Delivery d.
Proof.
  unfold kept_Delivery; cbn. rewrite <- !option_fmap_compose.
  f_equal; apply option_fmap_ext; intros t; apply millis_idemp.
Qed.

(** What has come back from a document comes back from it again. *)
Lemma kept_Cargo_idemp c : kept_Cargo (kept_Cargo c) = kept_Cargo c.
Proof.
  unfold kept_Cargo; cbn.
  by rewrite kept_RouteSpecification_idemp, kept_Itinerary_idemp, kept_Delivery_idemp.
Qed.

Lemma kept_HandlingEvent_idemp e : kept_HandlingEvent (kept_HandlingEvent e) = kept_HandlingEvent e.
Proof. unfold kept_HandlingEvent; cbn. by rewrite !millis_idemp. Qed.

(** The document of a cargo and of what comes back of it are the same. *)
Lemma marshal_kept_Cargo c : marshal (kept_Cargo c) = marshal c.
Proof.
  unfold marshal, Marshal_Cargo, kept_Cargo; cbn.
  by rewrite kept_RouteSpecification_idemp, kept_Itinerary_idemp, kept_Delivery_idemp.
Qed.

Lemma unmarshal_marshal_cargo (c : cargo.Cargo) (d : Doc) :
  unmarshal (marshal c ∪ d) = kept_Cargo c.
Proof.
  destruct c as [id o rs i dl]. unfold unmarshal, marshal, Marshal_Cargo.
  cbn [cargo.c_TrackingID cargo.c_Origin cargo.c_RouteSpecification
       cargo.c_Itinerary cargo.c_Delivery].
  set (m := <["trackingid":=_]> _).
  assert (H1 : m !! "trackingid" = Some (VString id)) by done.
  assert (H2 : m !! "origin" = Some (VString o)) by done.
  assert (H3 : m !! "routespecification"
               = Some (VRouteSpecification (kept_RouteSpecification rs))) by done.
  assert (H4 : m !! "itinerary" = Some (VItinerary (kept_Itinerary i))) by done.
  assert (H5 : m !! "delivery" = Some (VDelivery (kept_Delivery dl))) by done.
  rewrite (getString_union_l _ _ _ _ H1), (getString_union_l _ _ _ _ H2).
  rewrite (lookup_union_Some_l _ d _ _ H3), (lookup_union_Some_l _ d _ _ H4),
          (lookup_union_Some_l _ d _ _ H5).
  by rewrite kept_RouteSpecification_idemp, kept_Itinerary_idemp, kept_Delivery_idemp.
Qed.

(** A cargo read from a document is one the codec keeps as it is. *)
Lemma kept_unmarshal (d : Doc) :
  kept_Cargo (unmarshal (T := cargo.Cargo) d) = unmarshal d.
Proof.
  unfold unmarshal, Marshal_Cargo, kept_Cargo; cbn. f_equal.
  - destruct (d !! "routespecification") as [[]|]; try done.
    apply kept_RouteSpecification_idemp.
  - destruct (d !! "itinerary") as [[]|]; try done. apply kept_Itinerary_idemp.
  - destruct (d !! "delivery") as [[]|]; try done. apply kept_Delivery_idemp.
Qed.

End Documents.

(** ** Collections *)
Section Collections.

Variables (sel : bson.M) (fields : Doc).

(** Setting [fields] keeps a selected document selected, and the document
    an upsert creates is selected. *)
Hypothesis keeps : forall d, matches sel d = true -> matches sel (fields ∪ d) = true.
Hypothesis creates : matches sel (fields ∪ of_selector sel) = true.

Lemma find_upsert (c : list Doc) :
  mgo.find sel (mgo.upsert sel fields c)
  = match mgo.find sel c with
    | [] => [fields ∪ of_selector sel]
    | d :: rest => (fields ∪ d) :: rest
    end.
Proof using keeps creates.
  induction c as [|d c IH]; cbn.
  - by rewrite creates.
  - destruct (matches sel d) eqn:Hd; cbn.
    + by rewrite (keeps d Hd).
    + by rewrite Hd.
Qed.


(** An upsert adds a document only when none is selected. *)
Lemma length_upsert (c : list Doc) :
  length (mgo.upsert sel fields c)
  = match mgo.find sel c with
    | [] => S (length c)
    | _ :: _ => length c
    end.
Proof.
  induction c as [|d c IH]; cbn; [done|].
  destruct (matches sel d) eqn:Hd; cbn; [done|].
  rewrite IH. unfold mgo.find. by destruct (List.filter _ c).
Qed.

(** An upsert whose fields the first selected document already holds
    changes nothing. *)
Lemma upsert_fixpoint (c : list Doc) d rest :
  mgo.find sel c = d :: rest -> fields ∪ d = d -> mgo.upsert sel fields c = c.
Proof.
  revert d rest. induction c as [|d0 c IH]; intros d rest; cbn; [done|].
  destruct (matches sel d0) eqn:Hd.
  - intros [= -> _] Hfix. by rewrite Hfix.
  - intros Hf Hfix. by rewrite (IH _ _ Hf Hfix).
Qed.

(** What a query with another selector sees of an upsert: the same
    documents, one of them possibly with [fields] set. *)
Lemma find_upsert_other (sel' : bson.M) (c : list Doc) :
  (forall d, matches sel' (fields ∪ d) = matches sel' d) ->
  matches sel' (fields ∪ of_selector sel) = false ->
  Forall2 (fun d' d => d' = d \/ d' = fields ∪ d)
          (mgo.find sel' (mgo.upsert sel fields c)) (mgo.find sel' c).
Proof.
  intros Hframe Hnew. induction c as [|d c IH]; cbn.
  - rewrite Hnew. constructor.
  - destruct (matches sel d) eqn:Hd; cbn.
    + rewrite Hframe. destruct (matches sel' d).
      * constructor; [by right|]. apply Forall2_same_length_lookup_2; [done|].
        intros i x y Hx Hy. left. congruence.
      * apply Forall2_same_length_lookup_2; [done|].
        intros i x y Hx Hy. left. congruence.
    + destruct (matches sel' d); [constructor; [by left|]|]; exact IH.
Qed.

End Collections.

(** ** Selectors *)
Section Selectors.

Lemma matches_single k v (d : Doc) :
  matches [(k, v)] d
  = match d !! k with Some (VString s) => String.eqb s v | _ => false end.
Proof. cbn. by rewrite andb_true_r. Qed.

Lemma matches_single_true k v (d : Doc) :
  matches [(k, v)] d = true <-> d !! k = Some (VString v).
Proof.
  rewrite matches_single. destruct (d !! k) as [[s| | | | |]|]; try (split; [done|congruence]).
  rewrite String.eqb_eq. split; congruence.
Qed.

(** A field that [fields] does not set is selected as before. *)
Lemma matches_union_fresh k v (fields d : Doc) :
  fields !! k = None -> matches [(k, v)] (fields ∪ d) = matches [(k, v)] d.
Proof. intros Hk. by rewrite !matches_single, (lookup_union_r _ _ _ Hk). Qed.

Lemma matches_union_set k v (fields d : Doc) :
  fields !! k = Some (VString v) -> matches [(k, v)] (fields ∪ d) = true.
Proof. intros Hk. apply matches_single_true. by apply lookup_union_Some_l. Qed.

Lemma getString_matches k v (d : Doc) :
  matches [(k, v)] d = true -> getString d k = v.
Proof. intros Hm%matches_single_true. unfold getString. by rewrite Hm. Qed.

Lemma find_matches sel (c : list Doc) d rest :
  mgo.find sel c = d :: rest -> matches sel d = true.
Proof.
  intros Hf. assert (Hin : In d (mgo.find sel c)) by (rewrite Hf; left; done).
  by apply List.filter_In in Hin as [_ ?].
Qed.

(** *** The cargo and filler records *)

Lemma cargo_selected (c : cargo.Cargo) (d : Doc) :
  matches [("trackingid", cargo.c_TrackingID c)] (marshal c ∪ d) = true.
Proof. by apply matches_union_set. Qed.

Lemma cargo_not_filler (c : cargo.Cargo) id (d : Doc) :
  matches [("trackingid_g", id)] (marshal c ∪ d) = matches [("trackingid_g", id)] d.
Proof. by apply matches_union_fresh. Qed.

Lemma filler_selected (g : Garbage) id (d : Doc) :
  matches [("trackingid_g", id)] (marshal g ∪ d) = matches [("trackingid_g", id)] d.
Proof. by apply matches_union_fresh. Qed.

Lemma filler_created (g : Garbage) id :
  matches [("trackingid_g", id)] (marshal g ∪ of_selector [("trackingid_g", id)]) = true.
Proof. rewrite filler_selected. by apply matches_single_true. Qed.

Lemma filler_not_cargo (g : Garbage) id (d : Doc) :
  matches [("trackingid", id)] (marshal g ∪ d) = matches [("trackingid", id)] d.
Proof. by apply matches_union_fresh. Qed.

Lemma new_filler_not_cargo (g : Garbage) id id' :
  matches [("trackingid", id)] (marshal g ∪ of_selector [("trackingid_g", id')]) = false.
Proof. rewrite filler_not_cargo. by rewrite matches_single. Qed.

Lemma new_cargo_not_filler (c : cargo.Cargo) id id' :
  matches [("trackingid_g", id)] (marshal c ∪ of_selector [("trackingid", id')]) = false.
Proof. rewrite cargo_not_filler. by rewrite matches_single. Qed.

(** Decoding a cargo does not look at the filler field. *)
Lemma unmarshal_cargo_filler (g : Garbage) (d : Doc) :
  unmarshal (T := cargo.Cargo) (marshal g ∪ d) = unmarshal d.
Proof.
  unfold unmarshal, Marshal_Cargo, getString; cbv beta iota.
  by rewrite !(lookup_union_r (marshal g) d) by done.
Qed.


Lemma unmarshal_marshal_location (l : location.Location) (d : Doc) :
  unmarshal (marshal l ∪ d) = l.
Proof.
  destruct l as [k n]. unfold unmarshal, marshal, Marshal_Location.
  cbn [location.UNLocode_of location.Name].
  by rewrite (getString_union_l _ _ "unlocode" k), (getString_union_l _ _ "name" n).
Qed.

Lemma unmarshal_marshal_voyage (v : voyage.Voyage) (d : Doc) :
  unmarshal (marshal v ∪ d) = v.
Proof.
  destruct v as [k]. unfold unmarshal, marshal, Marshal_Voyage.
  cbn [voyage.Number_of].
  by rewrite (getString_union_l _ _ "number" k).
Qed.

Lemma unmarshal_marshal_event (e : cargo.HandlingEvent) :
  unmarshal (marshal e) = kept_HandlingEvent e.
Proof.
  destruct e as [id t l v ct rt]. unfold kept_HandlingEvent; cbn.
  transitivity (cargo.mkHandlingEvent id t l v (millis (millis ct)) (millis (millis rt)));
    [by destruct v|by rewrite !millis_idemp].
Qed.

Lemma event_selected (e : cargo.HandlingEvent) id :
  matches [("trackingid", id)] (marshal e) = String.eqb (cargo.he_TrackingID e) id.
Proof. rewrite matches_single. by destruct e as [i t l [v|] ct rt]. Qed.

End Selectors.

(** ** The repository methods, run *)
Ltac run_body :=
  unfold defer, bind, One, All, Upsert, Insert, Remove, EnsureIndex, query, command,
    found, upserted, mgo.one, C; cbn.

Ltac case_failure s :=
  let E := fresh "E" in
  destruct (mgo.failure s) eqn:E; cbn; rewrite ?E; cbn.

(** The states the first requests of a run meet, case by case. *)
Ltac case_requests :=
  repeat match goal with
         | |- context [match ?f with Some _ => _ | None => _ end] =>
             is_var f; destruct f as [?|]; cbn
         | |- context [match ?l with [] => _ | _ :: _ => _ end] =>
             is_var l; destruct l as [|? ?]; cbn
         end.

Section Run.

Lemma collection_set s c docs : mgo.collection (mgo.set_collection s c docs) c = docs.
Proof. unfold mgo.collection, mgo.set_collection; cbn. by rewrite lookup_insert_eq. Qed.

Lemma collection_set_ne s c c' docs :
  c <> c' -> mgo.collection (mgo.set_collection s c docs) c' = mgo.collection s c'.
Proof.
  intros Hne. unfold mgo.collection, mgo.set_collection; cbn.
  by rewrite lookup_insert_ne.
Qed.

Lemma set_collection_twice s c docs docs' :
  mgo.set_collection (mgo.set_collection s c docs) c docs' = mgo.set_collection s c docs'.
Proof. unfold mgo.set_collection; cbn. by rewrite insert_insert_eq. Qed.

(** *** A connection that stays as it is *)

Lemma next_steady s : mgo.steady s -> mgo.next s = s.
Proof. unfold mgo.steady, mgo.next. by intros ->. Qed.

Lemma collection_next s c : mgo.collection (mgo.next s) c = mgo.collection s c.
Proof. unfold mgo.next. by destruct (mgo.later s). Qed.

Lemma data_next s : mgo.data (mgo.next s) = mgo.data s.
Proof. unfold mgo.next. by destruct (mgo.later s). Qed.

Lemma ensured_next s : mgo.ensured (mgo.next s) = mgo.ensured s.
Proof. unfold mgo.next. by destruct (mgo.later s). Qed.

Lemma steady_next s : mgo.steady s -> mgo.steady (mgo.next s).
Proof. intros Hs. by rewrite next_steady. Qed.

(** Which requests get through depends on the connection alone. *)
Lemma next_set_collection s c docs :
  mgo.next (mgo.set_collection s c docs) = mgo.set_collection (mgo.next s) c docs.
Proof. by destruct s as [d f [|f' l] i]. Qed.

Lemma got_through_set {A} s c docs (xs : list A) :
  got_through (mgo.set_collection s c docs) xs = got_through s xs.
Proof.
  revert s docs. induction xs as [|x xs IH]; intros s docs; cbn; [done|].
  by rewrite next_set_collection, IH.
Qed.

Lemma asked_steady v s : mgo.steady s -> asked v s = s.
Proof. intros Hs. destruct v; [by apply next_steady|done]. Qed.

(** On such a connection an upsert is what it is on the documents. *)
Lemma upserted_steady c sel fields s :
  mgo.steady s ->
  upserted c sel fields s
  = match mgo.failure s with
    | Some _ => s
    | None => mgo.set_collection s c (mgo.upsert sel fields (mgo.collection s c))
    end.
Proof. intros Hs. unfold upserted. apply next_steady. by destruct (mgo.failure s). Qed.

Lemma steady_upserted c sel fields s :
  mgo.steady s -> mgo.steady (upserted c sel fields s).
Proof. intros Hs. rewrite upserted_steady by done. by destruct (mgo.failure s). Qed.

Lemma failure_upserted c sel fields s :
  mgo.steady s -> mgo.failure (upserted c sel fields s) = mgo.failure s.
Proof. intros Hs. rewrite upserted_steady by done. by destruct (mgo.failure s) eqn:E. Qed.

Lemma collection_upserted c sel fields s :
  mgo.failure s = None ->
  mgo.collection (upserted c sel fields s) c = mgo.upsert sel fields (mgo.collection s c).
Proof. intros E. unfold upserted. rewrite E, collection_next. apply collection_set. Qed.

Lemma steady_stored v db c g s : mgo.steady s -> mgo.steady (stored v db c g s).
Proof. intros Hs. destruct v; cbn; by repeat apply steady_upserted. Qed.

Lemma failure_stored v db c g s :
  mgo.steady s -> mgo.failure (stored v db c g s) = mgo.failure s.
Proof.
  intros Hs. destruct v; cbn; rewrite ?failure_upserted; try done.
  by apply steady_upserted.
Qed.

Lemma run_cargo_Store v db c w :
  let r := cr_Store (cargo_repo v db) c w in
  r.1 = driver_error <$> mgo.failure (session w)
  /\ session r.2 = stored v db c (GARBAGE_CARGO w) (session w)
  /\ GARBAGE_CARGO r.2 = GARBAGE_CARGO w.
Proof.
  destruct w as [[d f l i] o k t e g]. destruct v; cbn.
  - unfold padded.cargoRepository_Store; run_body. unfold mgo.next; cbn.
    by case_requests.
  - unfold timed.timeCargoRepository_Store, timed.cargoRepository_Store; run_body.
    unfold mgo.next; cbn. by case_requests.
Qed.

Lemma run_cargo_Find v db id w :
  let r := cr_Find (cargo_repo v db) id w in
  r.1 = found (C db "cargo") "trackingid" id cargo_ErrUnknown (asked v (session w))
  /\ session r.2 = mgo.next (asked v (session w))
  /\ GARBAGE_CARGO r.2 = GARBAGE_CARGO w.
Proof.
  destruct w as [[d f l i] o k t e g]. destruct v; cbn.
  - unfold padded.cargoRepository_Find; run_body. unfold mgo.next; cbn.
    case_requests; try done;
      unfold mgo.collection; cbn; destruct (mgo.find [("trackingid", id)] _); cbn; done.
  - unfold timed.timeCargoRepository_Find, timed.cargoRepository_Find; run_body.
    unfold mgo.next; cbn.
    case_requests; try done;
      unfold mgo.collection; cbn; destruct (mgo.find [("trackingid", id)] _); cbn; done.
Qed.

Lemma run_location_Find v db key w :
  let r := lr_Find (location_repo v db) key w in
  r.1 = found (C db "location") "unlocode" key location_ErrUnknown (session w)
  /\ session r.2 = mgo.next (session w)
  /\ GARBAGE_CARGO r.2 = GARBAGE_CARGO w.
Proof.
  destruct w as [[d f l i] o k t e g]. destruct v; cbn.
  - unfold padded.locationRepository_Find; run_body. unfold mgo.next; cbn.
    case_requests; try done;
      unfold mgo.collection; cbn; destruct (mgo.find [("unlocode", key)] _); cbn; done.
  - unfold timed.timeLocationRepository_Find, timed.locationRepository_Find; run_body.
    unfold mgo.next; cbn.
    case_requests; try done;
      unfold mgo.collection; cbn; destruct (mgo.find [("unlocode", key)] _); cbn; done.
Qed.

Lemma run_voyage_Find v db key w :
  let r := vr_Find (voyage_repo v db) key w in
  r.1 = found (C db "voyage") "number" key voyage_ErrUnknown (session w)
  /\ session r.2 = mgo.next (session w)
  /\ GARBAGE_CARGO r.2 = GARBAGE_CARGO w.
Proof.
  destruct w as [[d f l i] o k t e g]. destruct v; cbn.
  - unfold padded.voyageRepository_Find; run_body. unfold mgo.next; cbn.
    case_requests; try done;
      unfold mgo.collection; cbn; destruct (mgo.find [("number", key)] _); cbn; done.
  - unfold timed.timeVoyageRepository_Find, timed.voyageRepository_Find; run_body.
    unfold mgo.next; cbn.
    case_requests; try done;
      unfold mgo.collection; cbn; destruct (mgo.find [("number", key)] _); cbn; done.
Qed.

End Run.

(** ** The timing decorators *)
Section Decorators.

Lemma db_only_ret {A} (a : A) : db_only (ret a).
Proof. intros s. by exists a, s. Qed.

Lemma db_only_bind {A B} (m : Go A) (k : A -> Go B) :
  db_only m -> (forall a, db_only (k a)) -> db_only (bind m k).
Proof.
  intros Hm Hk s. destruct (Hm s) as (a & s' & Ha).
  destruct (Hk a s') as (b & s'' & Hb).
  exists b, s''. intros. unfold bind. by rewrite Ha, Hb.
Qed.

Lemma db_only_defer {A} (d : Go unit) (m : Go A) :
  db_only d -> db_only m -> db_only (defer d m).
Proof.
  intros Hd Hm. unfold defer.
  apply db_only_bind; [done|]. intros a.
  apply db_only_bind; [done|]. intros _. apply db_only_ret.
Qed.

Lemma db_only_query {A} c (f : mgo.Collection -> A) h : db_only (query c f h).
Proof.
  intros s. unfold query; cbn. destruct (mgo.failure s); eauto.
Qed.

Lemma db_only_command {A} c (f : mgo.Collection -> A * option mgo.Collection) h :
  db_only (command c f h).
Proof.
  intros s. unfold command; cbn. destruct (mgo.failure s); [by eauto|].
  destruct (f _) as [a [docs|]]; by eauto.
Qed.

Lemma db_only_Copy : db_only Copy.
Proof. apply db_only_ret. Qed.

Lemma db_only_Close sess : db_only (Close sess).
Proof. apply db_only_ret. Qed.

Create HintDb db_only.
Hint Resolve db_only_ret db_only_query db_only_command db_only_Copy db_only_Close : db_only.

Ltac db_only :=
  repeat first
    [ apply db_only_defer | apply db_only_bind; [|intros ?]
    | progress auto with db_only
    | match goal with |- db_only (match ?x with _ => _ end) => destruct x end
    | match goal with |- db_only (if ?x then _ else _) => destruct x end ].

Lemma db_only_cargo_Remove r c : db_only (timed.cargoRepository_Remove r c).
Proof. unfold timed.cargoRepository_Remove, Remove. db_only. Qed.

Lemma db_only_cargo_Store r c : db_only (timed.cargoRepository_Store r c).
Proof. unfold timed.cargoRepository_Store, Upsert. db_only. Qed.

Lemma db_only_cargo_Find r id : db_only (timed.cargoRepository_Find r id).
Proof. unfold timed.cargoRepository_Find, One. db_only. Qed.

Lemma db_only_cargo_FindAll r : db_only (timed.cargoRepository_FindAll r).
Proof. unfold timed.cargoRepository_FindAll, All. db_only. Qed.

Lemma db_only_location_Find r k : db_only (timed.locationRepository_Find r k).
Proof. unfold timed.locationRepository_Find, One. db_only. Qed.

Lemma db_only_location_FindAll r : db_only (timed.locationRepository_FindAll r).
Proof. unfold timed.locationRepository_FindAll, All. db_only. Qed.

Lemma db_only_voyage_Find r k : db_only (timed.voyageRepository_Find r k).
Proof. unfold timed.voyageRepository_Find, One. db_only. Qed.

Lemma db_only_event_Store r e : db_only (timed.handlingEventRepository_Store r e).
Proof. unfold timed.handlingEventRepository_Store, Insert. db_only. Qed.

Lemma db_only_event_Query r id :
  db_only (timed.handlingEventRepository_QueryHandlingHistory r id).
Proof. unfold timed.handlingEventRepository_QueryHandlingHistory, All. db_only. Qed.

(** A decorated call: the clock is read, the delegate runs, and the
    duration is printed; the value and the database are the delegate's. *)
Lemma timeTrack_transparent {A} (m : Go A) (name : string) (w : World) :
  db_only m ->
  same_outcome ((start <- time_Now ;; defer (timed.timeTrack start name) m) w) (m w)
  /\ stdout ((start <- time_Now ;; defer (timed.timeTrack start name) m) w).2
     = (stdout (m w).2
        ++ [mkPrinted "%s took %s\n"
              [AString name; ADuration (clock w (S (ticks w)) - clock w (ticks w))]])%list.
Proof.
  intros Hm. destruct w as [s o k t e g]. destruct (Hm s) as (a & s' & Ha).
  unfold same_outcome, bind, defer, bind, time_Now; cbn.
  rewrite !Ha; cbn. done.
Qed.

End Decorators.

(** C10: every time-tracking decorator returns the value (and error) of the
    repository it wraps and leaves the same database; the only difference
    is the line it prints. *)
Theorem time_decorators_transparent :
  forall (w : World),
    (forall r c, same_outcome (timed.timeCargoRepository_Remove r c w)
                              (timed.cargoRepository_Remove (timed.cargo r) c w))
    /\ (forall r c, same_outcome (timed.timeCargoRepository_Store r c w)
                                 (timed.cargoRepository_Store (timed.cargo r) c w))
    /\ (forall r id, same_outcome (timed.timeCargoRepository_Find r id w)
                                  (timed.cargoRepository_Find (timed.cargo r) id w))
    /\ (forall r, same_outcome (timed.timeCargoRepository_FindAll r w)
                               (timed.cargoRepository_FindAll (timed.cargo r) w))
    /\ (forall r k, same_outcome (timed.timeLocationRepository_Find r k w)
                                 (timed.locationRepository_Find (timed.location r) k w))
    /\ (forall r, same_outcome (timed.timeLocationRepository_FindAll r w)
                               (timed.locationRepository_FindAll (timed.location r) w))
    /\ (forall r k, same_outcome (timed.timeVoyageRepository_Find r k w)
                                 (timed.voyageRepository_Find (timed.voyage r) k w))
    /\ (forall r e, same_outcome (timed.timeHandlingEventRepository_Store r e w)
                                 (timed.handlingEventRepository_Store (timed.event r) e w))
    /\ (forall r id, same_outcome (timed.timeHandlingEventRepository_QueryHandlingHistory r id w)
                                  (timed.handlingEventRepository_QueryHandlingHistory (timed.event r) id w)).
Proof.
  intros w. repeat match goal with |- _ /\ _ => split end; intros.
  all: refine (proj1 (timeTrack_transparent _ _ _ _)).
  - apply db_only_cargo_Remove.
  - apply db_only_cargo_Store.
  - apply db_only_cargo_Find.
  - apply db_only_cargo_FindAll.
  - apply db_only_location_Find.
  - apply db_only_location_FindAll.
  - apply db_only_voyage_Find.
  - apply db_only_event_Store.
  - apply db_only_event_Query.
Qed.

(** ** Storing a cargo *)
Section Store.

Lemma upserted_healthy c sel fields s :
  mgo.steady s ->
  mgo.failure s = None ->
  upserted c sel fields s
  = mgo.set_collection s c (mgo.upsert sel fields (mgo.collection s c)).
Proof. intros Hs E. rewrite upserted_steady by done. by rewrite E. Qed.

Lemma upserted_broken c sel fields s msg :
  mgo.steady s -> mgo.failure s = Some msg -> upserted c sel fields s = s.
Proof. intros Hs E. rewrite upserted_steady by done. by rewrite E. Qed.

Lemma stored_healthy v db c g s :
  mgo.steady s ->
  mgo.failure s = None ->
  stored v db c g s
  = mgo.set_collection s (C db "cargo")
      (stored_docs v c g (mgo.collection s (C db "cargo"))).
Proof.
  intros Hs E. destruct v; cbn.
  - rewrite (upserted_healthy _ _ _ s Hs E).
    rewrite upserted_healthy by done.
    by rewrite collection_set, set_collection_twice.
  - by rewrite upserted_healthy.
Qed.

Lemma stored_broken v db c g s msg :
  mgo.steady s -> mgo.failure s = Some msg -> stored v db c g s = s.
Proof.
  intros Hs E. destruct v; cbn; by rewrite !(upserted_broken _ _ _ s msg Hs E).
Qed.

Lemma cargo_upsert_keeps (c : cargo.Cargo) :
  forall d, matches [("trackingid", cargo.c_TrackingID c)] d = true ->
            matches [("trackingid", cargo.c_TrackingID c)] (marshal c ∪ d) = true.
Proof. intros d _. apply cargo_selected. Qed.

Lemma filler_upsert_keeps (g : Garbage) id :
  forall d, matches [("trackingid_g", id)] d = true ->
            matches [("trackingid_g", id)] (marshal g ∪ d) = true.
Proof. intros d Hd. by rewrite filler_selected. Qed.

(** The documents selected by some tracking identity, decoded, are the
    same before and after a filler upsert. *)
Lemma find_cargo_after_filler (g : Garbage) id id' (docs : list Doc) :
  Forall2 (fun d' d => d' = d \/ d' = marshal g ∪ d)
    (mgo.find [("trackingid", id')] (mgo.upsert [("trackingid_g", id)] (marshal g) docs))
    (mgo.find [("trackingid", id')] docs).
Proof.
  apply find_upsert_other.
  - intros d. apply filler_not_cargo.
  - apply new_filler_not_cargo.
Qed.

Lemma decode_after_filler (g : Garbage) (l' l : list Doc) :
  Forall2 (fun d' d => d' = d \/ d' = marshal g ∪ d) l' l ->
  unmarshal (T := cargo.Cargo) <$> l' = unmarshal <$> l.
Proof.
  induction 1 as [|d' d l' l [->| ->] _ IH]; cbn; [done| |].
  - by rewrite IH.
  - by rewrite IH, unmarshal_cargo_filler.
Qed.

(** After a store the first record of the tracking identity decodes to the
    cargo stored, with its instants in milliseconds, and no record of that
    identity is added when there was one. *)
Lemma find_stored_docs v (c : cargo.Cargo) g (docs : list Doc) :
  unmarshal <$> mgo.find [("trackingid", cargo.c_TrackingID c)] (stored_docs v c g docs)
  = match mgo.find [("trackingid", cargo.c_TrackingID c)] docs with
    | [] => [kept_Cargo c]
    | _ :: rest => kept_Cargo c :: (unmarshal <$> rest)
    end.
Proof.
  assert (Htimed :
    unmarshal <$> mgo.find [("trackingid", cargo.c_TrackingID c)]
                    (mgo.upsert [("trackingid", cargo.c_TrackingID c)] (marshal c) docs)
    = match mgo.find [("trackingid", cargo.c_TrackingID c)] docs with
      | [] => [kept_Cargo c]
      | _ :: rest => kept_Cargo c :: (unmarshal <$> rest)
      end).
  { rewrite find_upsert; [|apply cargo_upsert_keeps|apply cargo_selected].
    destruct (mgo.find _ docs); cbn; by rewrite unmarshal_marshal_cargo. }
  destruct v; unfold stored_docs; [|done].
  by rewrite (decode_after_filler g _ _ (find_cargo_after_filler g _ _ _)).
Qed.

(** The records of another tracking identity are not touched. *)
Lemma find_stored_docs_other v (c : cargo.Cargo) g id (docs : list Doc) :
  id <> cargo.c_TrackingID c ->
  unmarshal (T := cargo.Cargo) <$> mgo.find [("trackingid", id)] (stored_docs v c g docs)
  = unmarshal <$> mgo.find [("trackingid", id)] docs.
Proof.
  intros Hne.
  assert (Htimed : forall docs,
    mgo.find [("trackingid", id)]
      (mgo.upsert [("trackingid", cargo.c_TrackingID c)] (marshal c) docs)
    = mgo.find [("trackingid", id)] docs).
  { clear docs. assert (Hc : forall d : Doc, matches [("trackingid", id)] (marshal c ∪ d) = false).
    { intros d. rewrite matches_single.
      rewrite (lookup_union_Some_l _ d "trackingid" (VString (cargo.c_TrackingID c))) by done.
      apply String.eqb_neq. congruence. }
    induction docs as [|d docs IH]; unfold mgo.find in *; cbn [mgo.upsert List.filter].
    - by rewrite Hc.
    - destruct (matches [("trackingid", cargo.c_TrackingID c)] d) eqn:Hd;
        cbn [mgo.upsert List.filter].
      + rewrite Hc. apply matches_single_true in Hd.
        rewrite matches_single, Hd.
        by replace (cargo.c_TrackingID c =? id)%string with false
          by (symmetry; apply String.eqb_neq; congruence).
      + by rewrite IH. }
  destruct v; unfold stored_docs; [|by rewrite Htimed].
  rewrite (decode_after_filler g _ _ (find_cargo_after_filler g _ _ _)).
  by rewrite Htimed.
Qed.



End Store.

(** ** Finding after storing *)
Section FindStored.

Lemma found_decode {T} `{Marshal T} c k key unknown s :
  found (T := T) c k key unknown s
  = match mgo.failure s with
    | Some msg => inr (driver_error msg)
    | None =>
        match unmarshal <$> mgo.find [(k, key)] (mgo.collection s c) with
        | x :: _ => inl x
        | [] => inr unknown
        end
    end.
Proof. unfold found. destruct (mgo.failure s); [done|]. by destruct (mgo.find _ _). Qed.

Lemma found_stored v db (c : cargo.Cargo) g s :
  mgo.steady s ->
  mgo.failure s = None ->
  found (C db "cargo") "trackingid" (cargo.c_TrackingID c) cargo_ErrUnknown
        (stored v db c g s) = inl (kept_Cargo c).
Proof.
  intros Hs E.
  rewrite found_decode, failure_stored, E, (stored_healthy _ _ _ _ _ Hs E) by done.
  rewrite collection_set, find_stored_docs. by destruct (mgo.find _ _).
Qed.

Lemma found_stored_other v db (c : cargo.Cargo) g id s :
  mgo.steady s ->
  id <> cargo.c_TrackingID c ->
  found (T := cargo.Cargo) (C db "cargo") "trackingid" id cargo_ErrUnknown (stored v db c g s)
  = found (C db "cargo") "trackingid" id cargo_ErrUnknown s.
Proof.
  intros Hs Hne. destruct (mgo.failure s) as [msg|] eqn:E.
  - by rewrite (stored_broken _ _ _ _ _ msg Hs E).
  - rewrite !found_decode, failure_stored, E, (stored_healthy _ _ _ _ _ Hs E) by done.
    by rewrite collection_set, find_stored_docs_other.
Qed.

(** *** Whatever the later requests meet

    The documents a [Store] leaves depend on what each of its requests
    met; the cargo record is written whenever the first one got through,
    and for a query by tracking identity nothing else matters. *)
Lemma collection_upserted_any c sel fields s :
  mgo.collection (upserted c sel fields s) c
  = match mgo.failure s with
    | Some _ => mgo.collection s c
    | None => mgo.upsert sel fields (mgo.collection s c)
    end.
Proof.
  unfold upserted. rewrite collection_next.
  destruct (mgo.failure s); [done|apply collection_set].
Qed.

Lemma collection_upserted_ne c c' sel fields s :
  c <> c' -> mgo.collection (upserted c sel fields s) c' = mgo.collection s c'.
Proof.
  intros Hne. unfold upserted. rewrite collection_next.
  destruct (mgo.failure s); [done|by apply collection_set_ne].
Qed.

Lemma decoded_cargo_upsert (c : cargo.Cargo) (docs : list Doc) :
  unmarshal <$> mgo.find [("trackingid", cargo.c_TrackingID c)]
                  (mgo.upsert [("trackingid", cargo.c_TrackingID c)] (marshal c) docs)
  = match mgo.find [("trackingid", cargo.c_TrackingID c)] docs with
    | [] => [kept_Cargo c]
    | _ :: rest => kept_Cargo c :: (unmarshal <$> rest)
    end.
Proof. exact (find_stored_docs Timed c (mkGarbage "") docs). Qed.

Lemma decoded_other_upsert (c : cargo.Cargo) id (docs : list Doc) :
  id <> cargo.c_TrackingID c ->
  unmarshal (T := cargo.Cargo)
    <$> mgo.find [("trackingid", id)]
          (mgo.upsert [("trackingid", cargo.c_TrackingID c)] (marshal c) docs)
  = unmarshal <$> mgo.find [("trackingid", id)] docs.
Proof. exact (find_stored_docs_other Timed c (mkGarbage "") id docs). Qed.

Lemma decoded_stored v db (c : cargo.Cargo) g s id :
  unmarshal (T := cargo.Cargo)
    <$> mgo.find [("trackingid", id)] (mgo.collection (stored v db c g s) (C db "cargo"))
  = unmarshal
      <$> mgo.find [("trackingid", id)]
            match mgo.failure s with
            | Some _ => mgo.collection s (C db "cargo")
            | None => mgo.upsert [("trackingid", cargo.c_TrackingID c)] (marshal c)
                        (mgo.collection s (C db "cargo"))
            end.
Proof.
  destruct v; cbn [stored]; rewrite !collection_upserted_any; [|done].
  destruct (mgo.failure (upserted _ _ _ s)); [done|].
  apply (decode_after_filler g), find_cargo_after_filler.
Qed.

Lemma records_after_Store v db (c : cargo.Cargo) g s :
  mgo.failure s = None ->
  unmarshal <$> mgo.find [("trackingid", cargo.c_TrackingID c)]
                  (mgo.collection (stored v db c g s) (C db "cargo"))
  = match mgo.find [("trackingid", cargo.c_TrackingID c)] (mgo.collection s (C db "cargo")) with
    | [] => [kept_Cargo c]
    | _ :: rest => kept_Cargo c :: (unmarshal <$> rest)
    end.
Proof. intros E. rewrite decoded_stored, E. apply decoded_cargo_upsert. Qed.



End FindStored.



(** ** Finding by key *)
Section Find.

Context {T : Type} `{Marshal T}.

Lemma found_broken c k key unknown s msg :
  mgo.failure s = Some msg ->
  found (T := T) c k key unknown s = inr (driver_error msg).
Proof. intros E. unfold found. by rewrite E. Qed.

Lemma found_none c k key unknown s :
  mgo.failure s = None ->
  found (T := T) c k key unknown s = inr unknown
  <-> mgo.find [(k, key)] (mgo.collection s c) = [].
Proof.
  intros E. unfold found. rewrite E.
  destruct (mgo.find _ _); split; done.
Qed.

Lemma found_some c k key unknown s d rest :
  mgo.failure s = None ->
  mgo.find [(k, key)] (mgo.collection s c) = d :: rest ->
  found (T := T) c k key unknown s = inl (unmarshal d).
Proof. intros E Hf. unfold found. by rewrite E, Hf. Qed.

End Find.

(** The padded look-up of the filler record changes no document. *)
Lemma collection_asked v s c : mgo.collection (asked v s) c = mgo.collection s c.
Proof. destruct v; [apply collection_next|done]. Qed.

(** C4, as the code has it: when the look-up itself succeeds every [Find]
    returns the package's [ErrUnknown] exactly when no record carries the
    key, and otherwise the first record that carries it, decoded, whose key
    is the one asked for; when the look-up meets a broken connection
    [Find] returns the driver's error as it is, and no record.  The
    look-up is the only request of [Find], except in the padded cargo
    repository, where it follows the look-up of the filler record. *)
Theorem Find_unknown_iff_absent :
  forall (v : variant) (db : string) (w : World),
    (mgo.failure (asked v (session w)) = None ->
     forall id,
       ((cr_Find (cargo_repo v db) id w).1 = inr cargo_ErrUnknown
        <-> cargo_records db id w = [])
       /\ (forall d rest, cargo_records db id w = d :: rest ->
           (cr_Find (cargo_repo v db) id w).1 = inl (unmarshal d)
           /\ cargo.c_TrackingID (unmarshal d) = id))
    /\ (mgo.failure (session w) = None ->
        (forall k,
           ((lr_Find (location_repo v db) k w).1 = inr location_ErrUnknown
            <-> location_records db k w = [])
           /\ (forall d rest, location_records db k w = d :: rest ->
               (lr_Find (location_repo v db) k w).1 = inl (unmarshal d)
               /\ location.UNLocode_of (unmarshal d) = k))
        /\ (forall k,
           ((vr_Find (voyage_repo v db) k w).1 = inr voyage_ErrUnknown
            <-> voyage_records db k w = [])
           /\ (forall d rest, voyage_records db k w = d :: rest ->
               (vr_Find (voyage_repo v db) k w).1 = inl (unmarshal d)
               /\ voyage.Number_of (unmarshal d) = k)))
    /\ (forall msg, mgo.failure (asked v (session w)) = Some msg ->
        forall id, (cr_Find (cargo_repo v db) id w).1 = inr (driver_error msg))
    /\ (forall msg, mgo.failure (session w) = Some msg ->
        (forall k, (lr_Find (location_repo v db) k w).1 = inr (driver_error msg))
        /\ (forall k, (vr_Find (voyage_repo v db) k w).1 = inr (driver_error msg))).
Proof.
  intros v db w. repeat match goal with |- _ /\ _ => split end.
  - intros E id. destruct (run_cargo_Find v db id w) as (-> & _).
    unfold cargo_records. rewrite <- (collection_asked v). split.
    + by apply found_none.
    + intros d rest Hf. split; [by apply (found_some _ _ _ _ _ d rest)|].
      apply find_matches in Hf. by apply getString_matches.
  - intros E. split.
    + intros k. destruct (run_location_Find v db k w) as (-> & _). split.
      * by apply found_none.
      * intros d rest Hf. split; [by apply (found_some _ _ _ _ _ d rest)|].
        apply find_matches in Hf. by apply getString_matches.
    + intros k. destruct (run_voyage_Find v db k w) as (-> & _). split.
      * by apply found_none.
      * intros d rest Hf. split; [by apply (found_some _ _ _ _ _ d rest)|].
        apply find_matches in Hf. by apply getString_matches.
  - intros msg E id. destruct (run_cargo_Find v db id w) as (-> & _). by apply found_broken.
  - intros msg E. split.
    + intros k. destruct (run_location_Find v db k w) as (-> & _). by apply found_broken.
    + intros k. destruct (run_voyage_Find v db k w) as (-> & _). by apply found_broken.
Qed.

Lemma Find_unknown_iff_absent_witness :
  let w := sample.world Timed in
  (mgo.failure (asked Timed (session w)) = None /\ mgo.failure (session w) = None)
  /\ cargo_records "goddd" "XYZ789" w = []
  /\ (cr_Find (cargo_repo Timed "goddd") "XYZ789" w).1 = inr cargo_ErrUnknown
  /\ (lr_Find (location_repo Timed "goddd") "NLRTM" w).1 = inr location_ErrUnknown.
Proof.
  intros w.
  assert (Hok : mgo.failure (session w) = None) by (vm_compute; reflexivity).
  assert (Hnone : cargo_records "goddd" "XYZ789" w = []) by (vm_compute; reflexivity).
  assert (Hloc : location_records "goddd" "NLRTM" w = []) by (vm_compute; reflexivity).
  destruct (Find_unknown_iff_absent Timed "goddd" w) as (Hc & Hl & _).
  exact (conj (conj Hok Hok)
           (conj Hnone (conj (proj2 (proj1 (Hc Hok "XYZ789")) Hnone)
                             (proj2 (proj1 (proj1 (Hl Hok) "NLRTM")) Hloc)))).
Defined.

(** C4 as stated fails: with the connection lost, the cargo ABC123 is on
    record and [Find] returns neither the record nor [ErrUnknown], but the
    driver's error. *)
Lemma Find_offline_counterexample :
  length (cargo_records "goddd" "ABC123" (sample.offline Timed)) = 1%nat
  /\ (cr_Find (cargo_repo Timed "goddd") "ABC123" (sample.offline Timed)).1
     = inr (driver_error "no reachable servers")
  /\ (cr_Find (cargo_repo Padded "goddd") "ABC123" (sample.offline Padded)).1
     = inr (driver_error "no reachable servers").
Proof. vm_compute. done. Qed.

(** ** The handling-event repository *)
Section Events.

Lemma run_event_Store v db e w :
  session (her_Store (event_repo v db) e w).2
  = inserted (C db "handling_event") (marshal e) (session w).
Proof.
  destruct w as [[d f l i] o k t en g]. destruct v; cbn.
  - unfold padded.handlingEventRepository_Store, inserted; run_body.
    unfold mgo.next; cbn. by case_requests.
  - unfold timed.timeHandlingEventRepository_Store, timed.handlingEventRepository_Store,
      inserted; run_body.
    unfold mgo.next; cbn. by case_requests.
Qed.

Lemma run_event_Query v db id w :
  let r := her_QueryHandlingHistory (event_repo v db) id w in
  cargo.HandlingEvents r.1
  = match mgo.failure (session w) with
    | Some _ => []
    | None => events_on_record db id w
    end
  /\ session r.2 = mgo.next (session w).
Proof.
  destruct w as [[d f l i] o k t en g]. destruct v; cbn.
  - unfold padded.handlingEventRepository_QueryHandlingHistory; run_body.
    unfold mgo.next; cbn. by case_requests.
  - unfold timed.timeHandlingEventRepository_QueryHandlingHistory,
      timed.handlingEventRepository_QueryHandlingHistory; run_body.
    unfold mgo.next; cbn. by case_requests.
Qed.

Lemma for_each_cons {A B} (x : A) (xs : list A) (f : A -> Go B) w :
  (for_each (x :: xs) f w).2 = (for_each xs f (f x w).2).2.
Proof. cbn. unfold bind. by destruct (f x w). Qed.

Lemma find_event_app id (docs : list Doc) (e : cargo.HandlingEvent) :
  unmarshal <$> mgo.find [("trackingid", id)] (docs ++ [marshal e])
  = ((unmarshal <$> mgo.find [("trackingid", id)] docs)
     ++ List.filter (fun e => String.eqb (cargo.he_TrackingID e) id)
          [kept_HandlingEvent e])%list.
Proof.
  unfold mgo.find. rewrite List.filter_app, fmap_app. f_equal.
  cbn [List.filter kept_HandlingEvent cargo.he_TrackingID]. rewrite event_selected.
  destruct (String.eqb _ _); cbn [fmap list_fmap]; [|done].
  by rewrite unmarshal_marshal_event.
Qed.

End Events.

(** C1, as the code has it: when its query gets through,
    [QueryHandlingHistory] returns the events on record for the tracking
    identity in collection order, which is the order in which they were
    stored: [Store] appends, and the query has no sort clause.  After
    [Store] has been called for the events [es] in turn, the events on
    record are those there were before, followed by the events of [es]
    whose [Store] got through, as the codec keeps them (instants in
    milliseconds).  When the query fails the history is empty: the error
    is dropped. *)
Theorem QueryHandlingHistory_insertion_order :
  forall (v : variant) (db : string) (id : cargo.TrackingID)
         (es : list cargo.HandlingEvent) (w : World),
    let r := event_repo v db in
    let w' := (for_each es (her_Store r) w).2 in
    cargo.HandlingEvents (her_QueryHandlingHistory r id w').1
    = match mgo.failure (session w') with
      | Some _ => []
      | None =>
          (events_on_record db id w
           ++ List.filter (fun e => String.eqb (cargo.he_TrackingID e) id)
                (kept_HandlingEvent <$> got_through (session w) es))%list
      end.
Proof.
  intros v db id es w r w'. subst r.
  destruct (run_event_Query v db id w') as (-> & _).
  destruct (mgo.failure (session w')); [done|]. subst w'.
  revert w. induction es as [|e es IH]; intros w.
  - cbn. by rewrite app_nil_r.
  - rewrite for_each_cons, IH.
    pose proof (run_event_Store v db e w) as Hs.
    unfold events_on_record at 1. rewrite Hs. unfold inserted.
    rewrite collection_next. cbn [got_through].
    destruct (mgo.failure (session w)) eqn:E; [done|].
    rewrite collection_set, next_set_collection, got_through_set.
    unfold mgo.insert. rewrite find_event_app, fmap_cons.
    set (rest := kept_HandlingEvent <$> got_through _ es).
    change (kept_HandlingEvent e :: rest) with ([kept_HandlingEvent e] ++ rest).
    by rewrite List.filter_app, app_assoc.
Qed.

(** C1 as stated fails: an unload completed at 20 ms is stored before a
    load completed at 10 ms; the history comes back in that order, which is not
    ascending in completion time. *)
Lemma QueryHandlingHistory_unordered_counterexample :
  let r := event_repo Timed "goddd" in
  let w := (for_each [sample.unloaded; sample.loaded] (her_Store r) (fresh ∅)).2 in
  cargo.HandlingEvents (her_QueryHandlingHistory r "ABC123" w).1
  = [sample.unloaded; sample.loaded]
  /\ ordered (cargo.HandlingEvents (her_QueryHandlingHistory r "ABC123" w).1) = false.
Proof. vm_compute. done. Qed.

(** ** The filler of the padded variant *)
Section Padding.

Lemma bind_run {A B} (m : Go A) (k : A -> Go B) w : bind m k w = k (m w).1 (m w).2.
Proof. unfold bind. by destruct (m w). Qed.

Lemma length_append_a (s : string) : String.length (s ++ "a")%string = S (String.length s).
Proof. induction s as [|a s IH]; [done|]. simpl. f_equal. exact IH. Qed.

(** The loop of the constructor appends one character per turn and
    touches nothing else. *)
Lemma for_range_grow (n : N) (w : World) :
  let w' := (for_range n padded.grow_garbage w).2 in
  session w' = session w
  /\ environ w' = environ w
  /\ N.of_nat (String.length (Garbage_of (GARBAGE_CARGO w')))
     = (N.of_nat (String.length (Garbage_of (GARBAGE_CARGO w))) + n)%N.
Proof.
  unfold for_range; cbn [snd].
  apply (N.iter_ind _ (fun w' => (padded.grow_garbage w').2) w
           (fun n w' =>
              session w' = session w /\ environ w' = environ w
              /\ N.of_nat (String.length (Garbage_of (GARBAGE_CARGO w')))
                 = (N.of_nat (String.length (Garbage_of (GARBAGE_CARGO w))) + n)%N)).
  - by rewrite N.add_0_r.
  - intros k w' (Hs & He & Hl).
    unfold padded.grow_garbage, with_garbage.
    cbn [snd GARBAGE_CARGO Garbage_of session environ].
    rewrite length_append_a. repeat split; [done..|]. lia.
Qed.

Lemma run_EnsureIndex c key w :
  EnsureIndex c key w
  = (index_error c key (session w), with_session (index_ensured c key (session w)) w).
Proof.
  destruct w as [s o k t e g].
  unfold EnsureIndex, index_error, index_ensured, with_session; cbn.
  destruct (mgo.cached s c key); [done|]. by destruct (mgo.failure s).
Qed.

Lemma run_NewCargoRepository db w :
  let r := padded.NewCargoRepository db w in
  session r.2 = index_ensured (C db "cargo") "trackingid" (session w)
  /\ r.1 = match index_error (C db "cargo") "trackingid" (session w) with
           | Some err => inr err
           | None => inl (padded.as_cargo_Repository (padded.mkCargoRepo db))
           end
  /\ GARBAGE_CARGO r.2
     = GARBAGE_CARGO
         (if String.eqb (os_Getenv "NO_PADDING" w).1 ""
          then (for_range (60 * 1024) padded.grow_garbage w).2 else w).
Proof.
  unfold padded.NewCargoRepository.
  rewrite (bind_run (os_Getenv _)). cbn [os_Getenv fst snd].
  set (b := String.eqb _ _).
  rewrite (bind_run (if b then _ else _)).
  assert (Hw1 : ((if b then for_range (60 * 1024) padded.grow_garbage else ret tt) w).2
                = if b then (for_range (60 * 1024) padded.grow_garbage w).2 else w)
    by by destruct b.
  rewrite Hw1. set (w1 := if b then _ else w).
  assert (Hs : session w1 = session w).
  { unfold w1. destruct b; [apply for_range_grow|done]. }
  clearbody w1. clear Hw1.
  unfold defer, Copy, Close. rewrite !bind_run. cbn [ret fst snd].
  rewrite run_EnsureIndex. cbn [fst snd]. rewrite Hs.
  destruct (index_error _ _ _); cbn; by destruct w1.
Qed.

(** After a store whose second request gets through, the first filler
    record of the tracking identity holds the value of [GARBAGE_CARGO]. *)
Lemma filler_stored db (c : cargo.Cargo) g s :
  mgo.failure (mgo.next s) = None ->
  head (unmarshal <$> mgo.find [("trackingid_g", cargo.c_TrackingID c)]
                        (mgo.collection (stored Padded db c g s) (C db "cargo")))
  = Some g.
Proof.
  intros E. cbn [stored]. rewrite collection_upserted_any.
  assert (E' : mgo.failure (upserted (C db "cargo")
                              [("trackingid", cargo.c_TrackingID c)] (marshal c) s) = None).
  { unfold upserted. destruct (mgo.failure s); [done|]. by rewrite next_set_collection. }
  rewrite E'.
  rewrite find_upsert; [|apply filler_upsert_keeps|apply filler_created].
  assert (Hg : forall d : Doc, unmarshal (marshal g ∪ d) = g).
  { intros d. destruct g as [x]. unfold unmarshal, marshal, Marshal_Garbage; cbn.
    by rewrite (getString_union_l _ _ "garbage" x). }
  destruct (mgo.find _ _); cbn; by rewrite Hg.
Qed.

Lemma filler_after_Store db (c : cargo.Cargo) (g : Garbage) w :
  mgo.failure (mgo.next (session w)) = None ->
  head (unmarshal <$> filler_records db (cargo.c_TrackingID c)
                        (padded.cargoRepository_Store (padded.mkCargoRepo db) c
                           (with_garbage g w)).2)
  = Some g.
Proof.
  intros E.
  destruct (run_cargo_Store Padded db c (with_garbage g w)) as (_ & Hs & _).
  unfold filler_records.
  change (cr_Store (cargo_repo Padded db) c (with_garbage g w))
    with (padded.cargoRepository_Store (padded.mkCargoRepo db) c (with_garbage g w)) in Hs.
  rewrite Hs. by apply filler_stored.
Qed.

(** The filler the constructor leaves in a process that has just started. *)
Lemma filler_built db w :
  GARBAGE_CARGO w = mkGarbage "" ->
  N.of_nat (String.length (Garbage_of (GARBAGE_CARGO (padded.NewCargoRepository db w).2)))
  = match environ w !! "NO_PADDING" with
    | None | Some "" => (60 * 1024)%N
    | Some _ => 0%N
    end.
Proof.
  intros Hg. destruct (run_NewCargoRepository db w) as (_ & _ & ->).
  unfold os_Getenv; cbn [fst].
  destruct (environ w !! "NO_PADDING") as [[|a x]|];
    cbn [default from_option Datatypes.id String.eqb].
  - destruct (for_range_grow (60 * 1024) w) as (_ & _ & ->). by rewrite Hg.
  - by rewrite Hg.
  - destruct (for_range_grow (60 * 1024) w) as (_ & _ & ->). by rewrite Hg.
Qed.

End Padding.

(** C5, as the code has it: the padded constructor reads the toggle with
    [os.Getenv("NO_PADDING") == ""], which is true when the variable is
    unset and when it is set to the empty string.  In a process that has
    just started the constructor then builds a filler of 60 * 1024
    characters; with NO_PADDING set to anything else the filler stays
    empty.  Every later store whose second request gets through, in
    whatever state [w'] the rest of the process is, writes the filler as
    the constructor left it into the filler record of the cargo. *)
Theorem padding_toggle :
  forall (db : string) (c : cargo.Cargo) (w w' : World),
    let built := (padded.NewCargoRepository db w).2 in
    let later := with_garbage (GARBAGE_CARGO built) w' in
    let after := (padded.cargoRepository_Store (padded.mkCargoRepo db) c later).2 in
    GARBAGE_CARGO w = mkGarbage "" ->
    mgo.failure (mgo.next (session w')) = None ->
    head (unmarshal <$> filler_records db (cargo.c_TrackingID c) after)
    = Some (GARBAGE_CARGO built)
    /\ N.of_nat (String.length (Garbage_of (GARBAGE_CARGO built)))
       = match environ w !! "NO_PADDING" with
         | None | Some "" => (60 * 1024)%N
         | Some _ => 0%N
         end.
Proof.
  intros db c w w' built later after Hg E'. split.
  - by apply filler_after_Store.
  - by apply filler_built.
Qed.

Lemma padding_toggle_witness :
  let w := fresh {["NO_PADDING" := "1"]} in
  let built := (padded.NewCargoRepository "goddd" w).2 in
  let later := with_garbage (GARBAGE_CARGO built) w in
  let after :=
    (padded.cargoRepository_Store (padded.mkCargoRepo "goddd") sample.booked later).2 in
  (GARBAGE_CARGO w = mkGarbage "" /\ mgo.failure (mgo.next (session w)) = None)
  /\ N.of_nat (String.length (Garbage_of (GARBAGE_CARGO built))) = 0%N
  /\ head (unmarshal <$> filler_records "goddd" (cargo.c_TrackingID sample.booked) after)
     = Some (GARBAGE_CARGO built).
Proof.
  intros w built later after.
  assert (Hg : GARBAGE_CARGO w = mkGarbage "") by reflexivity.
  assert (E : mgo.failure (mgo.next (session w)) = None) by reflexivity.
  destruct (padding_toggle "goddd" sample.booked w w Hg E) as (Hfiller & Hlen).
  exact (conj (conj Hg E) (conj Hlen Hfiller)).
Defined.

(** C5 as stated fails: with NO_PADDING set, to the empty string, the
    constructor still builds the filler of 60 * 1024 characters, and the
    next store writes it. *)
Lemma padding_set_empty_counterexample :
  let w := fresh {["NO_PADDING" := ""]} in
  let built := (padded.NewCargoRepository "goddd" w).2 in
  let later := with_garbage (GARBAGE_CARGO built) w in
  let after :=
    (padded.cargoRepository_Store (padded.mkCargoRepo "goddd") sample.booked later).2 in
  environ w !! "NO_PADDING" = Some ""
  /\ N.of_nat (String.length (Garbage_of (GARBAGE_CARGO built))) = (60 * 1024)%N
  /\ head (unmarshal <$> filler_records "goddd" (cargo.c_TrackingID sample.booked) after)
     = Some (GARBAGE_CARGO built).
Proof.
  intros w built later after. split; [reflexivity|]. split.
  - exact (filler_built "goddd" w eq_refl).
  - exact (filler_after_Store "goddd" sample.booked (GARBAGE_CARGO built) w eq_refl).
Qed.

(** ** The booking service, run *)
Section Booking.

Context `{Unspecified}.

Lemma found_cargo_id db id s (c : cargo.Cargo) :
  found (C db "cargo") "trackingid" id cargo_ErrUnknown s = inl c ->
  mgo.failure s = None /\ cargo.c_TrackingID c = id.
Proof.
  unfold found. destruct (mgo.failure s); [done|].
  destruct (mgo.find _ _) as [|d rest] eqn:Hf; [done|].
  intros [= <-]. split; [done|].
  apply find_matches in Hf. by apply getString_matches.
Qed.

Lemma found_location_key db k s (l : location.Location) :
  found (C db "location") "unlocode" k location_ErrUnknown s = inl l ->
  location.UNLocode_of l = k.
Proof.
  unfold found. destruct (mgo.failure s); [done|].
  destruct (mgo.find _ _) as [|d rest] eqn:Hf; [done|].
  intros [= <-]. apply find_matches in Hf. by apply getString_matches.
Qed.

Lemma found_not_InvalidState {T} `{Marshal T} c k key unknown s :
  unknown <> cargo_ErrInvalidState ->
  found (T := T) c k key unknown s <> inr cargo_ErrInvalidState.
Proof.
  intros Hu. unfold found. destruct (mgo.failure s); [done|].
  destruct (mgo.find _ _); congruence.
Qed.

(** What [Find] returns is the first cargo on record, which the codec
    keeps as it is. *)
Lemma found_on_record db id s (c : cargo.Cargo) :
  found (C db "cargo") "trackingid" id cargo_ErrUnknown s = inl c ->
  head (unmarshal <$> mgo.find [("trackingid", id)] (mgo.collection s (C db "cargo")))
  = Some c
  /\ kept_Cargo c = c.
Proof.
  unfold found. destruct (mgo.failure s); [done|].
  destruct (mgo.find _ _) as [|d rest]; [done|].
  intros [= <-]. split; [done|apply kept_unmarshal].
Qed.

(** [AssignCargoToRoute], case by case; [s1] is the session at the look-up
    of the cargo, and [Store] is called in the one after it. *)
Lemma run_AssignCargoToRoute v db id itinerary w :
  let r := booking.AssignCargoToRoute (service_of v db) id itinerary w in
  let s1 := asked v (session w) in
  if String.eqb id "" || Nat.eqb (length (cargo.Legs itinerary)) 0
  then r = (Some booking_ErrInvalidArgument, w)
  else
    match found (C db "cargo") "trackingid" id cargo_ErrUnknown s1 with
    | inr err => r.1 = Some err /\ session r.2 = mgo.next s1
    | inl c =>
        r.1 = driver_error <$> mgo.failure (mgo.next s1)
        /\ session r.2
           = stored v db (engine.AssignToRoute c itinerary) (GARBAGE_CARGO w) (mgo.next s1)
    end.
Proof.
  unfold booking.AssignCargoToRoute. destruct (_ || _); [done|].
  cbn [service_of booking.cargos]. rewrite bind_run.
  destruct (run_cargo_Find v db id w) as (Hf & Hs & Hg). rewrite Hf.
  destruct (found _ _ _ _ _) as [c|err] eqn:Hc.
  - destruct (run_cargo_Store v db (engine.AssignToRoute c itinerary)
                (cr_Find (cargo_repo v db) id w).2) as (Hr & Hs2 & _).
    by rewrite Hr, Hs2, Hs, Hg.
  - rewrite bind_run. cbn. by rewrite Hs.
Qed.

(** [ChangeDestination], case by case; [s1] and [s2] are the sessions at
    the look-ups of the cargo and of the location. *)
Lemma run_ChangeDestination v db id destination w :
  let r := booking.ChangeDestination (service_of v db) id destination w in
  let s1 := asked v (session w) in
  let s2 := mgo.next s1 in
  if String.eqb id "" || String.eqb destination ""
  then r = (Some booking_ErrInvalidArgument, w)
  else
    match found (C db "cargo") "trackingid" id cargo_ErrUnknown s1 with
    | inr err => r.1 = Some err /\ session r.2 = s2
    | inl c =>
        match found (C db "location") "unlocode" destination location_ErrUnknown s2 with
        | inr err => r.1 = Some err /\ session r.2 = mgo.next s2
        | inl l =>
            r.1 = driver_error <$> mgo.failure (mgo.next s2)
            /\ session r.2
               = stored v db
                   (engine.SpecifyNewRoute c
                      (cargo.mkRouteSpecification (cargo.c_Origin c) (location.UNLocode_of l)
                         (cargo.rs_ArrivalDeadline (cargo.c_RouteSpecification c)))).1
                   (GARBAGE_CARGO w) (mgo.next s2)
        end
    end.
Proof.
  unfold booking.ChangeDestination. destruct (_ || _); [done|].
  cbn [service_of booking.cargos booking.locations]. rewrite bind_run.
  destruct (run_cargo_Find v db id w) as (Hf & Hs & Hg). rewrite Hf.
  destruct (found _ _ _ _ _) as [c|err] eqn:Hc; [|by rewrite <- Hs].
  set (w1 := (cr_Find (cargo_repo v db) id w).2) in *.
  rewrite bind_run.
  destruct (run_location_Find v db destination w1) as (Hl & Hs1 & Hg1).
  rewrite Hs in Hl, Hs1. rewrite Hl.
  destruct (found (C db "location") _ _ _ _) as [l|err] eqn:Hloc;
    [|unfold ret; cbn [fst snd]; by rewrite Hs1].
  set (w2 := (lr_Find (location_repo v db) destination w1).2) in *.
  rewrite bind_run.
  match goal with |- context [cr_Store _ ?c' _] =>
    destruct (run_cargo_Store v db c' w2) as (Hr & Hs2 & _) end.
  rewrite Hr, Hs1. unfold ret.
  assert (Hs3 : session (cr_Store (cargo_repo v db)
                  (engine.SpecifyNewRoute c
                     (cargo.mkRouteSpecification (cargo.c_Origin c) (location.UNLocode_of l)
                        (cargo.rs_ArrivalDeadline (cargo.c_RouteSpecification c)))).1 w2).2
                = stored v db
                    (engine.SpecifyNewRoute c
                       (cargo.mkRouteSpecification (cargo.c_Origin c) (location.UNLocode_of l)
                          (cargo.rs_ArrivalDeadline (cargo.c_RouteSpecification c)))).1
                    (GARBAGE_CARGO w) (mgo.next (mgo.next (asked v (session w)))))
    by (by rewrite Hs2, Hs1, Hg1, Hg).
  clear Hr Hs2.
  destruct (mgo.failure _); cbn [fmap option_fmap option_map fst snd]; by split.
Qed.

(** On a connection that stays as it is the sessions of a run are one. *)
Lemma run_AssignCargoToRoute_steady v db id itinerary w :
  mgo.steady (session w) ->
  let r := booking.AssignCargoToRoute (service_of v db) id itinerary w in
  if String.eqb id "" || Nat.eqb (length (cargo.Legs itinerary)) 0
  then r = (Some booking_ErrInvalidArgument, w)
  else
    match found (C db "cargo") "trackingid" id cargo_ErrUnknown (session w) with
    | inr err => r.1 = Some err /\ session r.2 = session w
    | inl c =>
        r.1 = None
        /\ session r.2
           = stored v db (engine.AssignToRoute c itinerary) (GARBAGE_CARGO w) (session w)
    end.
Proof.
  intros Hst. pose proof (run_AssignCargoToRoute v db id itinerary w) as Hrun.
  cbn zeta in *. rewrite (asked_steady v _ Hst), (next_steady _ Hst) in Hrun.
  destruct (_ || _); [done|].
  destruct (found _ _ _ _ _) as [c|err] eqn:Hc; [|done].
  apply found_cargo_id in Hc as [E _]. by rewrite E in Hrun.
Qed.

Lemma run_ChangeDestination_steady v db id destination w :
  mgo.steady (session w) ->
  let r := booking.ChangeDestination (service_of v db) id destination w in
  if String.eqb id "" || String.eqb destination ""
  then r = (Some booking_ErrInvalidArgument, w)
  else
    match found (C db "cargo") "trackingid" id cargo_ErrUnknown (session w) with
    | inr err => r.1 = Some err /\ session r.2 = session w
    | inl c =>
        match found (C db "location") "unlocode" destination location_ErrUnknown
                    (session w) with
        | inr err => r.1 = Some err /\ session r.2 = session w
        | inl l =>
            r.1 = None
            /\ session r.2
               = stored v db
                   (engine.SpecifyNewRoute c
                      (cargo.mkRouteSpecification (cargo.c_Origin c) (location.UNLocode_of l)
                         (cargo.rs_ArrivalDeadline (cargo.c_RouteSpecification c)))).1
                   (GARBAGE_CARGO w) (session w)
        end
    end.
Proof.
  intros Hst. pose proof (run_ChangeDestination v db id destination w) as Hrun.
  cbn zeta in *. rewrite (asked_steady v _ Hst), !(next_steady _ Hst) in Hrun.
  destruct (_ || _); [done|].
  destruct (found (C db "cargo") _ _ _ _) as [c|err] eqn:Hc; [|done].
  destruct (found (C db "location") _ _ _ _) as [l|err] eqn:Hl; [|done].
  apply found_cargo_id in Hc as [E _]. by rewrite E in Hrun.
Qed.

End Booking.

(** ** The derivation engine on the scenarios of the specification *)
Section Scenarios.

Let shanghai_rotterdam : cargo.Itinerary :=
  cargo.mkItinerary [cargo.mkLeg "V1" "CNSHA" "NLRTM" 10 20].
Let spec : cargo.RouteSpecification := cargo.mkRouteSpecification "CNSHA" "NLRTM" 100.
Let received := cargo.mkHandlingEvent "ABC123" cargo.Receive "CNSHA" None 5 5.
Let loaded := cargo.mkHandlingEvent "ABC123" cargo.Load "CNSHA" (Some "V1") 10 10.
Let unloaded_in_hamburg :=
  cargo.mkHandlingEvent "ABC123" cargo.Unload "DEHAM" (Some "V1") 20 20.

(** Scenario A: no history, no itinerary. *)
Example scenario_A :
  let d := engine.deriveDelivery (H := sample.unspecified) spec cargo.zeroItinerary
             (cargo.mkHandlingHistory []) in
  cargo.d_TransportStatus d = cargo.NotReceived
  /\ cargo.d_RoutingStatus d = cargo.NotRouted.
Proof. done. Qed.

(** Scenario B: received and loaded in Shanghai. *)
Example scenario_B :
  let d := engine.deriveDelivery (H := sample.unspecified) spec shanghai_rotterdam
             (cargo.mkHandlingHistory [received; loaded]) in
  cargo.d_TransportStatus d = cargo.OnboardCarrier
  /\ cargo.d_IsMisdirected d = false
  /\ cargo.d_NextExpectedActivity d
     = Some (cargo.mkHandlingActivity cargo.Unload "NLRTM" (Some "V1")).
Proof. done. Qed.

(** Scenario C: then unloaded in Hamburg. *)
Example scenario_C :
  let d := engine.deriveDelivery (H := sample.unspecified) spec shanghai_rotterdam
             (cargo.mkHandlingHistory [received; loaded; unloaded_in_hamburg]) in
  cargo.d_TransportStatus d = cargo.InPort
  /\ cargo.d_IsMisdirected d = true
  /\ cargo.d_LastKnownLocation d = Some "DEHAM".
Proof. done. Qed.

End Scenarios.

(** ** The commands of the booking service *)
Section Commands.

Context `{Unspecified}.

Lemma data_asked v s : mgo.data (asked v s) = mgo.data s.
Proof. destruct v; [apply data_next|done]. Qed.

(** After a [Store] whose upsert of the cargo got through, the first cargo
    on record under its identity is the cargo stored, as the codec keeps
    it; the sessions [s] and [s'] hold the same documents. *)
Lemma on_record_after_Store v db (c : cargo.Cargo) g s w :
  mgo.failure s = None ->
  session w = stored v db c g s ->
  head (cargos_on_record db (cargo.c_TrackingID c) w) = Some (kept_Cargo c).
Proof.
  intros E Hs. unfold cargos_on_record, cargo_records.
  rewrite Hs, (records_after_Store _ _ _ _ _ E). by destruct (mgo.find _ _).
Qed.


End Commands.

(** C2, as the code has it: an empty tracking identity or an empty itinerary
    is refused with [ErrInvalidArgument] and nothing changes; an error of
    [Find] is returned, and no document changes; for a cargo that [Find]
    returns and an itinerary with a leg the call returns what [Store]
    returns, which is no error exactly when the upsert of the cargo gets
    through; the cargo then on record has the new itinerary, as the codec
    keeps it and whether it satisfies the route specification or not, and
    the identity, origin and route specification it had. *)
Theorem AssignCargoToRoute_replaces_itinerary `{Unspecified} :
  forall (v : variant) (db : string) (id : cargo.TrackingID)
         (itinerary : cargo.Itinerary) (w : World),
    let r := booking.AssignCargoToRoute (service_of v db) id itinerary w in
    let looked := cr_Find (cargo_repo v db) id w in
    (id = "" \/ cargo.Legs itinerary = [] -> r = (Some booking_ErrInvalidArgument, w))
    /\ (id <> "" -> cargo.Legs itinerary <> [] ->
        forall err, looked.1 = inr err ->
          r.1 = Some err /\ mgo.data (session r.2) = mgo.data (session w))
    /\ (id <> "" -> cargo.Legs itinerary <> [] ->
        forall c, looked.1 = inl c ->
          r.1 = (cr_Store (cargo_repo v db) (engine.AssignToRoute c itinerary) looked.2).1
          /\ (r.1 = None <-> mgo.failure (session looked.2) = None)
          /\ (r.1 = None ->
              exists c', head (cargos_on_record db id r.2) = Some c'
                /\ cargo.c_Itinerary c' = kept_Itinerary itinerary
                /\ cargo.c_TrackingID c' = cargo.c_TrackingID c
                /\ cargo.c_Origin c' = cargo.c_Origin c
                /\ cargo.c_RouteSpecification c' = cargo.c_RouteSpecification c)).
Proof.
  intros v db id itinerary w r looked.
  pose proof (run_AssignCargoToRoute v db id itinerary w) as Hrun.
  cbn zeta in Hrun. fold r in Hrun.
  destruct (run_cargo_Find v db id w) as (Hf & Hsf & _). fold looked in Hf, Hsf.
  repeat match goal with |- _ /\ _ => split end.
  - intros Hempty.
    assert (Hg : String.eqb id "" || Nat.eqb (length (cargo.Legs itinerary)) 0 = true).
    { destruct Hempty as [-> | ->]; [done|]. by rewrite orb_true_r. }
    by rewrite Hg in Hrun.
  - intros Hid Hlegs err Herr.
    apply String.eqb_neq in Hid. rewrite Hid in Hrun.
    destruct (cargo.Legs itinerary) eqn:Hl; [done|]. cbn in Hrun.
    rewrite <- Hf, Herr in Hrun. destruct Hrun as [Hr Hs]. split; [done|].
    by rewrite Hs, data_next, data_asked.
  - intros Hid Hlegs c Hc.
    apply String.eqb_neq in Hid. rewrite Hid in Hrun.
    destruct (cargo.Legs itinerary) eqn:Hl; [done|]. cbn in Hrun.
    rewrite <- Hf, Hc in Hrun. destruct Hrun as [Hr Hs].
    destruct (run_cargo_Store v db (engine.AssignToRoute c itinerary) looked.2)
      as (Hstore & _).
    rewrite Hf in Hc. destruct (found_cargo_id _ _ _ _ Hc) as [_ Hcid].
    destruct (found_on_record _ _ _ _ Hc) as [_ Hkept].
    rewrite <- Hsf in Hr, Hs.
    split; [by rewrite Hr, Hstore|]. split.
    { rewrite Hr. by destruct (mgo.failure (session looked.2)). }
    intros Hnone. rewrite Hr in Hnone.
    destruct (mgo.failure (session looked.2)) eqn:E; [done|].
    exists (kept_Cargo (engine.AssignToRoute c itinerary)). split.
    + rewrite <- Hcid.
      by apply (on_record_after_Store v db (engine.AssignToRoute c itinerary)
                  (GARBAGE_CARGO w) (session looked.2)).
    + apply (f_equal cargo.c_RouteSpecification) in Hkept. by cbn in *.
Qed.

Lemma AssignCargoToRoute_replaces_itinerary_witness :
  let w := sample.world Timed in
  let r := booking.AssignCargoToRoute (H := sample.unspecified)
             (service_of Timed "goddd") "ABC123" sample.detour w in
  ("ABC123" <> "" /\ cargo.Legs sample.detour <> []
   /\ (cr_Find (cargo_repo Timed "goddd") "ABC123" w).1 = inl sample.booked
   /\ engine.satisfies sample.detour (cargo.c_RouteSpecification sample.booked) = false
   /\ r.1 = None)
  /\ exists c', head (cargos_on_record "goddd" "ABC123" r.2) = Some c'
       /\ cargo.c_Itinerary c' = kept_Itinerary sample.detour
       /\ cargo.c_TrackingID c' = cargo.c_TrackingID sample.booked
       /\ cargo.c_Origin c' = cargo.c_Origin sample.booked
       /\ cargo.c_RouteSpecification c' = cargo.c_RouteSpecification sample.booked.
Proof.
  intros w r.
  assert (Hid : "ABC123" <> "") by discriminate.
  assert (Hlegs : cargo.Legs sample.detour <> []) by discriminate.
  assert (Hc : (cr_Find (cargo_repo Timed "goddd") "ABC123" w).1 = inl sample.booked)
    by (vm_compute; reflexivity).
  assert (Hsat : engine.satisfies sample.detour (cargo.c_RouteSpecification sample.booked)
                 = false) by reflexivity.
  assert (Hnone : r.1 = None) by (vm_compute; reflexivity).
  destruct (AssignCargoToRoute_replaces_itinerary (H := sample.unspecified)
              Timed "goddd" "ABC123" sample.detour w) as (_ & _ & Hok).
  exact (conj (conj Hid (conj Hlegs (conj Hc (conj Hsat Hnone))))
              (proj2 (proj2 (Hok Hid Hlegs sample.booked Hc)) Hnone)).
Defined.

(** C2 as stated fails: for the cargo ABC123 on record and the empty
    itinerary the call returns [ErrInvalidArgument], and the cargo keeps
    the itinerary it had. *)
Lemma AssignCargoToRoute_empty_itinerary_counterexample :
  let r := booking.AssignCargoToRoute (H := sample.unspecified)
             (service_of Timed "goddd") "ABC123" (cargo.mkItinerary []) (sample.world Timed) in
  r.1 = Some booking_ErrInvalidArgument
  /\ (cr_Find (cargo_repo Timed "goddd") "ABC123" r.2).1 = inl sample.booked
  /\ cargo.c_Itinerary sample.booked <> cargo.mkItinerary [].
Proof. vm_compute. repeat split; discriminate. Qed.

(** C7: [SpecifyNewRoute] as [ChangeDestination] reaches it.  The route
    specification of the call is made of the origin of the cargo that
    [Find] returned, the code of the location found and the deadline the
    cargo had.  When its origin equals its destination the call fails with
    InvalidState and leaves the cargo as it was; otherwise it returns no
    error and the cargo carries the new route specification.
    [ChangeDestination] makes the call as a statement: it stores the cargo
    the call leaves and returns what [Store] returns, so after a
    [ChangeDestination] without error the cargo on record is that cargo,
    as the codec keeps it. *)
Theorem SpecifyNewRoute_via_ChangeDestination `{Unspecified} :
  forall (v : variant) (db : string) (id : cargo.TrackingID)
         (destination : location.UNLocode) (w : World)
         (c : cargo.Cargo) (l : location.Location),
    let looked := cr_Find (cargo_repo v db) id w in
    let located := lr_Find (location_repo v db) destination looked.2 in
    let rs := cargo.mkRouteSpecification (cargo.c_Origin c) (location.UNLocode_of l)
                (cargo.rs_ArrivalDeadline (cargo.c_RouteSpecification c)) in
    let called := engine.SpecifyNewRoute c rs in
    let r := booking.ChangeDestination (service_of v db) id destination w in
    id <> "" -> destination <> "" ->
    looked.1 = inl c -> located.1 = inl l ->
    cargo.rs_Destination rs = destination
    /\ (cargo.rs_Origin rs = cargo.rs_Destination rs ->
        called.2 = Some cargo_ErrInvalidState /\ called.1 = c)
    /\ (cargo.rs_Origin rs <> cargo.rs_Destination rs ->
        called.2 = None
        /\ cargo.c_RouteSpecification called.1 = rs
        /\ cargo.c_TrackingID called.1 = cargo.c_TrackingID c
        /\ cargo.c_Origin called.1 = cargo.c_Origin c
        /\ cargo.c_Itinerary called.1 = cargo.c_Itinerary c)
    /\ r.1 = (cr_Store (cargo_repo v db) called.1 located.2).1
    /\ (r.1 = None -> head (cargos_on_record db id r.2) = Some (kept_Cargo called.1)).
Proof.
  intros v db id destination w c l looked located rs called r Hid Hdest Hc Hl.
  pose proof (run_ChangeDestination v db id destination w) as Hrun.
  cbn zeta in Hrun. fold r in Hrun.
  destruct (run_cargo_Find v db id w) as (Hf & Hsf & _). fold looked in Hf, Hsf.
  destruct (run_location_Find v db destination looked.2) as (Hlf & Hsl & _).
  fold located in Hlf, Hsl.
  apply String.eqb_neq in Hid, Hdest. rewrite Hid, Hdest in Hrun. cbn [orb] in Hrun.
  rewrite <- Hsf, <- Hf, Hc, <- Hlf, Hl, <- Hsl in Hrun. destruct Hrun as [Hr Hs].
  fold rs in Hs. fold called in Hs.
  rewrite Hf in Hc. destruct (found_cargo_id _ _ _ _ Hc) as [_ Hcid].
  rewrite Hlf in Hl. apply found_location_key in Hl.
  destruct (run_cargo_Store v db called.1 located.2) as (Hstore & _).
  assert (Hcalled : cargo.c_TrackingID called.1 = cargo.c_TrackingID c).
  { unfold called, engine.SpecifyNewRoute.
    by destruct (String.eqb (cargo.rs_Origin rs) _). }
  repeat match goal with |- _ /\ _ => split end.
  - exact Hl.
  - intros Heq. apply String.eqb_eq in Heq.
    unfold called, engine.SpecifyNewRoute. by rewrite Heq.
  - intros Hne. apply String.eqb_neq in Hne.
    unfold called, engine.SpecifyNewRoute. by rewrite Hne.
  - by rewrite Hr, Hstore.
  - intros Hnone. rewrite Hr in Hnone.
    destruct (mgo.failure (session located.2)) eqn:E; [done|].
    rewrite <- Hcid, <- Hcalled.
    by apply (on_record_after_Store v db called.1 (GARBAGE_CARGO w) (session located.2)).
Qed.

Lemma SpecifyNewRoute_via_ChangeDestination_witness :
  let w := sample.world Timed in
  let called :=
    engine.SpecifyNewRoute (H := sample.unspecified) sample.booked
      (cargo.mkRouteSpecification "SESTO" "SESTO" 1000000000) in
  let r := booking.ChangeDestination (H := sample.unspecified)
             (service_of Timed "goddd") "ABC123" "SESTO" w in
  ("ABC123" <> "" /\ "SESTO" <> ""
   /\ (cr_Find (cargo_repo Timed "goddd") "ABC123" w).1 = inl sample.booked
   /\ (lr_Find (location_repo Timed "goddd") "SESTO"
         (cr_Find (cargo_repo Timed "goddd") "ABC123" w).2).1 = inl sample.Stockholm)
  /\ called.2 = Some cargo_ErrInvalidState
  /\ called.1 = sample.booked
  /\ r.1 = (cr_Store (cargo_repo Timed "goddd") called.1
              (lr_Find (location_repo Timed "goddd") "SESTO"
                 (cr_Find (cargo_repo Timed "goddd") "ABC123" w).2).2).1.
Proof.
  intros w called r.
  assert (Hid : "ABC123" <> "") by discriminate.
  assert (Hdest : "SESTO" <> "") by discriminate.
  assert (Hc : (cr_Find (cargo_repo Timed "goddd") "ABC123" w).1 = inl sample.booked)
    by (vm_compute; reflexivity).
  assert (Hl : (lr_Find (location_repo Timed "goddd") "SESTO"
                  (cr_Find (cargo_repo Timed "goddd") "ABC123" w).2).1
               = inl sample.Stockholm)
    by (vm_compute; reflexivity).
  destruct (SpecifyNewRoute_via_ChangeDestination (H := sample.unspecified)
              Timed "goddd" "ABC123" "SESTO" w sample.booked sample.Stockholm
              Hid Hdest Hc Hl) as (_ & Hfails & _ & Hr & _).
  exact (conj (conj Hid (conj Hdest (conj Hc Hl)))
              (conj (proj1 (Hfails eq_refl)) (conj (proj2 (Hfails eq_refl)) Hr))).
Defined.




(** ** Listing the cargos *)
Section FindAll.

Lemma find_all (docs : list Doc) : mgo.find [] docs = docs.
Proof. unfold mgo.find. induction docs as [|d docs IH]; cbn; [done|]. by rewrite IH. Qed.

(** [FindAll] has no error to return: when its query fails it gives the
    empty list, otherwise a cargo decoded from every document of the
    collection, in collection order, and it stores nothing. *)
Lemma run_cargo_FindAll v db w :
  (cr_FindAll (cargo_repo v db) w).1
  = match mgo.failure (session w) with
    | Some _ => []
    | None => unmarshal <$> mgo.collection (session w) (C db "cargo")
    end
  /\ session (cr_FindAll (cargo_repo v db) w).2 = mgo.next (session w).
Proof.
  rewrite <- (find_all (mgo.collection _ _)).
  destruct w as [[d f l i] o k t e g]. destruct v; cbn.
  - unfold padded.cargoRepository_FindAll; run_body. unfold mgo.next; cbn.
    by case_requests.
  - unfold timed.timeCargoRepository_FindAll, timed.cargoRepository_FindAll; run_body.
    unfold mgo.next; cbn. by case_requests.
Qed.

(** In the time-tracked variant a store into an empty collection is listed
    as the cargo stored. *)
Lemma timed_FindAll_after_Store db c w :
  mgo.steady (session w) ->
  mgo.failure (session w) = None ->
  mgo.collection (session w) (C db "cargo") = [] ->
  (cr_FindAll (cargo_repo Timed db) (cr_Store (cargo_repo Timed db) c w).2).1
  = [kept_Cargo c].
Proof.
  intros Hst E Hempty.
  destruct (run_cargo_Store Timed db c w) as (_ & Hs & _).
  destruct (run_cargo_FindAll Timed db (cr_Store (cargo_repo Timed db) c w).2) as (-> & _).
  rewrite Hs, failure_stored, E, (stored_healthy _ _ _ _ _ Hst E), collection_set, Hempty
    by done.
  cbn. by rewrite unmarshal_marshal_cargo.
Qed.

(** In the padded variant the filler record is listed too, decoded as a
    cargo with every field at its zero value. *)
Lemma padded_FindAll_after_Store db c w :
  mgo.steady (session w) ->
  mgo.failure (session w) = None ->
  mgo.collection (session w) (C db "cargo") = [] ->
  (cr_FindAll (cargo_repo Padded db) (cr_Store (cargo_repo Padded db) c w).2).1
  = [kept_Cargo c; cargo.zeroCargo].
Proof.
  intros Hst E Hempty.
  destruct (run_cargo_Store Padded db c w) as (_ & Hs & _).
  destruct (run_cargo_FindAll Padded db (cr_Store (cargo_repo Padded db) c w).2) as (-> & _).
  rewrite Hs, failure_stored, E, (stored_healthy _ _ _ _ _ Hst E), collection_set, Hempty
    by done.
  unfold stored_docs. cbn [mgo.upsert].
  rewrite new_cargo_not_filler. cbn [mgo.upsert fmap list_fmap].
  rewrite unmarshal_marshal_cargo. by do 2 f_equal.
Qed.

End FindAll.

(** C8 at the failing input: in the padded variant, after the one cargo
    ABC123 is stored in an empty database, [FindAll] lists two cargos, the
    one stored and a zero-valued one decoded from its filler record; the
    time-tracked variant lists the one stored. *)
Theorem padded_FindAll_lists_filler :
  (cr_FindAll (cargo_repo Padded "goddd")
     (cr_Store (cargo_repo Padded "goddd") sample.booked (fresh ∅)).2).1
  = [sample.booked; cargo.zeroCargo]
  /\ (cr_FindAll (cargo_repo Timed "goddd")
        (cr_Store (cargo_repo Timed "goddd") sample.booked (fresh ∅)).2).1
     = [sample.booked].
Proof.
  split.
  - by rewrite padded_FindAll_after_Store.
  - by rewrite timed_FindAll_after_Store.
Qed.

(** * Further properties of the repositories *)

(** ** Removing *)
Section Removing.

Lemma find_app sel (l1 l2 : list Doc) :
  mgo.find sel (l1 ++ l2) = mgo.find sel l1 ++ mgo.find sel l2.
Proof. unfold mgo.find. apply List.filter_app. Qed.

Lemma remove_none sel (docs : list Doc) :
  mgo.remove sel docs = None <-> mgo.find sel docs = [].
Proof.
  unfold mgo.find. induction docs as [|d docs IH]; cbn; [done|].
  destruct (matches sel d); [done|].
  destruct (mgo.remove sel docs); cbn; [|tauto].
  split; [done|]. intros Hf. by apply IH in Hf.
Qed.

(** A removal takes the first selected document away. *)
Lemma find_remove sel (docs docs' : list Doc) :
  mgo.remove sel docs = Some docs' -> mgo.find sel docs' = tail (mgo.find sel docs).
Proof.
  unfold mgo.find. revert docs'. induction docs as [|d docs IH]; intros docs'; cbn; [done|].
  destruct (matches sel d) eqn:Hd.
  - by intros [= ->].
  - destruct (mgo.remove sel docs) as [docs0|]; cbn; [|done].
    intros [= <-]. cbn. rewrite Hd. by apply IH.
Qed.

(** What another query sees of a removal: a sublist. *)
Lemma find_remove_sublist sel sel' (docs docs' : list Doc) :
  mgo.remove sel docs = Some docs' -> sublist (mgo.find sel' docs') (mgo.find sel' docs).
Proof.
  unfold mgo.find. revert docs'. induction docs as [|d docs IH]; intros docs'; cbn; [done|].
  destruct (matches sel d).
  - intros [= ->]. destruct (matches sel' d); [by apply sublist_cons|done].
  - destruct (mgo.remove sel docs) as [docs0|]; cbn; [|done].
    intros [= <-]. cbn. destruct (matches sel' d); [apply sublist_skip|]; by apply IH.
Qed.

(** A removal by another value of the same key is not seen. *)
Lemma find_remove_other k key key' (docs docs' : list Doc) :
  key' <> key ->
  mgo.remove [(k, key)] docs = Some docs' ->
  mgo.find [(k, key')] docs' = mgo.find [(k, key')] docs.
Proof.
  intros Hne. unfold mgo.find. revert docs'.
  induction docs as [|d docs IH]; intros docs'; cbn [mgo.remove List.filter]; [done|].
  destruct (matches [(k, key)] d) eqn:Hd.
  - intros [= ->]. apply matches_single_true in Hd.
    rewrite matches_single, Hd.
    by replace (key =? key')%string with false by (symmetry; apply String.eqb_neq; congruence).
  - destruct (mgo.remove _ docs) as [docs0|]; cbn; [|done].
    intros [= <-]. cbn [List.filter]. by rewrite (IH docs0).
Qed.

Lemma upsert_absent sel fields (docs : list Doc) :
  mgo.find sel docs = [] -> mgo.upsert sel fields docs = docs ++ [fields ∪ of_selector sel].
Proof.
  unfold mgo.find. induction docs as [|d docs IH]; cbn; [done|].
  destruct (matches sel d); [done|]. intros Hf. by rewrite IH.
Qed.

Lemma remove_app sel (docs rest : list Doc) d :
  mgo.find sel docs = [] -> matches sel d = true ->
  mgo.remove sel (docs ++ d :: rest) = Some (docs ++ rest).
Proof.
  unfold mgo.find. intros Hf Hd. induction docs as [|d0 docs IH]; cbn in *.
  - by rewrite Hd.
  - destruct (matches sel d0); [done|]. by rewrite IH.
Qed.

(** On a connection that stays as it is a removal is what it is on the
    documents. *)
Lemma removed_steady c sel s :
  mgo.steady s ->
  removed c sel s
  = match mgo.failure s with
    | Some _ => s
    | None =>
        match mgo.remove sel (mgo.collection s c) with
        | Some docs => mgo.set_collection s c docs
        | None => s
        end
    end.
Proof.
  intros Hs. unfold removed. apply next_steady.
  destruct (mgo.failure s); [done|]. by destruct (mgo.remove _ _).
Qed.

Lemma steady_removed c sel s : mgo.steady s -> mgo.steady (removed c sel s).
Proof.
  intros Hs. rewrite removed_steady by done.
  destruct (mgo.failure s); [done|]. by destruct (mgo.remove _ _).
Qed.

Lemma failure_removed c sel s :
  mgo.steady s -> mgo.failure (removed c sel s) = mgo.failure s.
Proof.
  intros Hs. rewrite removed_steady by done.
  destruct (mgo.failure s) eqn:E; [done|]. by destruct (mgo.remove _ _).
Qed.

Lemma removed_healthy c sel s docs :
  mgo.steady s -> mgo.failure s = None ->
  mgo.remove sel (mgo.collection s c) = Some docs ->
  removed c sel s = mgo.set_collection s c docs.
Proof. intros Hs E R. rewrite removed_steady by done. by rewrite E, R. Qed.

Lemma removed_nothing c sel s :
  mgo.steady s -> mgo.failure s = None ->
  mgo.remove sel (mgo.collection s c) = None ->
  removed c sel s = s.
Proof. intros Hs E R. rewrite removed_steady by done. by rewrite E, R. Qed.

Lemma removed_broken c sel s msg :
  mgo.steady s -> mgo.failure s = Some msg -> removed c sel s = s.
Proof. intros Hs E. rewrite removed_steady by done. by rewrite E. Qed.

Lemma steady_unstored v db id s : mgo.steady s -> mgo.steady (unstored v db id s).
Proof. intros Hs. destruct v; cbn; by repeat apply steady_removed. Qed.

Lemma failure_unstored v db id s :
  mgo.steady s -> mgo.failure (unstored v db id s) = mgo.failure s.
Proof.
  intros Hs. destruct v; cbn; rewrite ?failure_removed; try done.
  by apply steady_removed.
Qed.

Lemma collection_removed c sel s :
  mgo.collection (removed c sel s) c
  = match mgo.failure s with
    | Some _ => mgo.collection s c
    | None => default (mgo.collection s c) (mgo.remove sel (mgo.collection s c))
    end.
Proof.
  unfold removed. rewrite collection_next. destruct (mgo.failure s); [done|].
  destruct (mgo.remove _ _); cbn; [|done]. apply collection_set.
Qed.

Lemma collection_removed_ne c c' sel s :
  c <> c' -> mgo.collection (removed c sel s) c' = mgo.collection s c'.
Proof.
  intros Hne. unfold removed. rewrite collection_next. destruct (mgo.failure s); [done|].
  destruct (mgo.remove _ _); [|done]. by apply collection_set_ne.
Qed.

Lemma run_cargo_Remove v db c w :
  let r := cr_Remove (cargo_repo v db) c w in
  r.1 = remove_error (C db "cargo") [("trackingid", cargo.c_TrackingID c)] (session w)
  /\ session r.2 = unstored v db (cargo.c_TrackingID c) (session w)
  /\ GARBAGE_CARGO r.2 = GARBAGE_CARGO w.
Proof.
  destruct w as [[d f l i] o k t e g]. destruct v; cbn.
  - unfold padded.cargoRepository_Remove; run_body.
    unfold remove_error, removed, mgo.next, mgo.collection; cbn.
    destruct f; cbn.
    + destruct l as [|[?|] ?]; cbn; try done.
      by destruct (mgo.remove [("trackingid_g", _)] _).
    + destruct (mgo.remove [("trackingid", _)] _) as [docs|] eqn:R; cbn;
        destruct l as [|[?|] ?]; cbn; rewrite ?lookup_insert_eq; cbn; try done;
        by destruct (mgo.remove [("trackingid_g", _)] _).
  - unfold timed.timeCargoRepository_Remove, timed.cargoRepository_Remove; run_body.
    unfold remove_error, removed, mgo.next; cbn. destruct f; cbn.
    + by destruct l.
    + destruct (mgo.remove _ _); cbn; by destruct l.
Qed.

End Removing.

Section RemovingCargos.

Lemma remove_split sel (docs docs' : list Doc) :
  mgo.remove sel docs = Some docs' ->
  exists l1 d l2,
    docs = l1 ++ d :: l2 /\ docs' = l1 ++ l2
    /\ matches sel d = true /\ mgo.find sel l1 = [].
Proof.
  unfold mgo.find. revert docs'. induction docs as [|d docs IH]; intros docs'; cbn; [done|].
  destruct (matches sel d) eqn:Hd.
  - intros [= ->]. by exists [], d, docs'.
  - destruct (mgo.remove sel docs) as [docs0|]; cbn; [|done].
    intros [= <-]. destruct (IH docs0 eq_refl) as (l1 & d1 & l2 & -> & -> & Hm & Hf).
    exists (d :: l1), d1, l2. cbn. by rewrite Hd.
Qed.

(** A removal is not seen by a query that does not select the document
    removed. *)
Lemma find_remove_unselected sel sel' (docs docs' : list Doc) :
  (forall d, matches sel d = true -> matches sel' d = false) ->
  mgo.remove sel docs = Some docs' ->
  mgo.find sel' docs' = mgo.find sel' docs.
Proof.
  intros Hsel (l1 & d & l2 & -> & -> & Hm & _)%remove_split.
  rewrite !find_app. f_equal. unfold mgo.find. cbn. by rewrite (Hsel d Hm).
Qed.

Lemma stored_docs_absent v (c : cargo.Cargo) g (docs : list Doc) :
  mgo.find [("trackingid", cargo.c_TrackingID c)] docs = [] ->
  (v = Padded -> mgo.find [("trackingid_g", cargo.c_TrackingID c)] docs = []) ->
  stored_docs v c g docs
  = docs ++ (marshal c ∪ of_selector [("trackingid", cargo.c_TrackingID c)])
         :: match v with
            | Padded => [marshal g ∪ of_selector [("trackingid_g", cargo.c_TrackingID c)]]
            | Timed => []
            end.
Proof.
  intros Hc Hg. unfold stored_docs. rewrite (upsert_absent _ _ docs Hc).
  destruct v; [|done].
  rewrite upsert_absent.
  - by rewrite <- app_assoc.
  - rewrite find_app, (Hg eq_refl). unfold mgo.find; cbn [List.filter].
    by rewrite new_cargo_not_filler.
Qed.

Lemma same_documents_set s c :
  mgo.failure s = None ->
  same_documents (mgo.set_collection s c (mgo.collection s c)) s.
Proof.
  intros E. split; [done|]. intros c'. destruct (decide (c = c')) as [<-|Hne].
  - apply collection_set.
  - by apply collection_set_ne.
Qed.

End RemovingCargos.

(** X1: on a connection that works and stays working, storing a cargo
    that is not on record and then removing it returns no error and leaves
    every collection with the documents it had; in the padded variant the
    filler record goes with the cargo record. *)
Theorem cargo_Store_then_Remove :
  forall (v : variant) (db : string) (c : cargo.Cargo) (w : World),
    mgo.steady (session w) ->
    mgo.failure (session w) = None ->
    cargo_records db (cargo.c_TrackingID c) w = [] ->
    (v = Padded -> filler_records db (cargo.c_TrackingID c) w = []) ->
    let r := cr_Remove (cargo_repo v db) c (cr_Store (cargo_repo v db) c w).2 in
    r.1 = None /\ same_documents (session r.2) (session w).
Proof.
  intros v db c w Hst E Hc Hg r.
  destruct (run_cargo_Store v db c w) as (_ & Hs & _).
  destruct (run_cargo_Remove v db c (cr_Store (cargo_repo v db) c w).2) as (Hr & Hs2 & _).
  fold r in Hr, Hs2. rewrite Hs in Hr, Hs2. clear Hs.
  rewrite (stored_healthy _ _ _ _ _ Hst E) in Hr, Hs2.
  rewrite (stored_docs_absent _ _ _ _ Hc Hg) in Hr, Hs2.
  set (docs := mgo.collection (session w) (C db "cargo")) in *.
  set (dc := marshal c ∪ _) in *.
  assert (Hdc : matches [("trackingid", cargo.c_TrackingID c)] dc = true)
    by apply cargo_selected.
  unfold remove_error in Hr. cbn [mgo.failure mgo.set_collection] in Hr.
  rewrite E, collection_set, (remove_app _ docs _ dc Hc Hdc) in Hr. split; [done|].
  rewrite Hs2. unfold unstored.
  rewrite (removed_healthy (C db "cargo") [("trackingid", cargo.c_TrackingID c)] _
             (docs ++ match v with
                      | Padded => [marshal (GARBAGE_CARGO w)
                                     ∪ of_selector [("trackingid_g", cargo.c_TrackingID c)]]
                      | Timed => []
                      end));
    [|done|done|by rewrite collection_set, (remove_app _ docs _ dc Hc Hdc)].
  rewrite set_collection_twice. destruct v.
  - rewrite (removed_healthy _ _ _ docs);
      [|done|done|
       rewrite collection_set;
       by rewrite (remove_app _ docs [] _ (Hg eq_refl) (filler_created _ _)), app_nil_r].
    rewrite set_collection_twice. by apply same_documents_set.
  - rewrite app_nil_r. by apply same_documents_set.
Qed.

Lemma cargo_Store_then_Remove_witness :
  let w := fresh ∅ in
  let r := cr_Remove (cargo_repo Padded "goddd") sample.booked
             (cr_Store (cargo_repo Padded "goddd") sample.booked w).2 in
  (mgo.steady (session w) /\ mgo.failure (session w) = None
   /\ cargo_records "goddd" (cargo.c_TrackingID sample.booked) w = []
   /\ filler_records "goddd" (cargo.c_TrackingID sample.booked) w = [])
  /\ r.1 = None /\ same_documents (session r.2) (session w).
Proof.
  intros w r.
  assert (Hst : mgo.steady (session w)) by reflexivity.
  assert (E : mgo.failure (session w) = None) by reflexivity.
  assert (Hc : cargo_records "goddd" (cargo.c_TrackingID sample.booked) w = [])
    by reflexivity.
  assert (Hg : filler_records "goddd" (cargo.c_TrackingID sample.booked) w = [])
    by reflexivity.
  exact (conj (conj Hst (conj E (conj Hc Hg)))
              (cargo_Store_then_Remove Padded "goddd" sample.booked w Hst E Hc
                 (fun _ => Hg))).
Defined.

(** X2: what [Remove] reports, on a connection that stays as it is.  On a
    broken connection it is the driver's error, and the database is left
    as it was.  For a cargo that is not on record it is [mgo.ErrNotFound],
    not [cargo.ErrUnknown]; the time-tracked variant then changes nothing,
    while the padded variant still deletes the first filler record of
    that identity when there is one. *)
Theorem cargo_Remove_errors :
  forall (v : variant) (db : string) (c : cargo.Cargo) (w : World),
    let id := cargo.c_TrackingID c in
    let r := cr_Remove (cargo_repo v db) c w in
    mgo.steady (session w) ->
    (forall msg, mgo.failure (session w) = Some msg ->
       r.1 = Some (driver_error msg) /\ session r.2 = session w)
    /\ (mgo.failure (session w) = None -> cargo_records db id w = [] ->
        r.1 = Some mgo_ErrNotFound
        /\ (v = Timed \/ filler_records db id w = [] -> session r.2 = session w)
        /\ (v = Padded -> filler_records db id r.2 = tail (filler_records db id w))).
Proof.
  intros v db c w id r Hst.
  destruct (run_cargo_Remove v db c w) as (Hr & Hs & _). fold r id in Hr, Hs.
  split.
  - intros msg E. rewrite Hr, Hs. unfold remove_error. rewrite E. split; [done|].
    destruct v; unfold unstored; by rewrite !(removed_broken _ _ _ msg Hst E).
  - intros E Hc. unfold cargo_records in Hc. apply remove_none in Hc as Hrm.
    assert (H1 : removed (C db "cargo") [("trackingid", id)] (session w) = session w)
      by (by apply removed_nothing).
    repeat match goal with |- _ /\ _ => split end.
    + rewrite Hr. unfold remove_error. by rewrite E, Hrm.
    + intros Hv. rewrite Hs. destruct v; unfold unstored; rewrite H1; [|done].
      destruct Hv as [Hv|Hf]; [done|]. apply remove_none in Hf.
      by apply removed_nothing.
    + intros ->. unfold filler_records. rewrite Hs. unfold unstored. rewrite H1.
      rewrite collection_removed, E.
      destruct (mgo.remove [("trackingid_g", id)] _) as [docs|] eqn:R; cbn.
      * by apply find_remove.
      * apply remove_none in R. by rewrite R.
Qed.

Lemma cargo_Remove_errors_witness :
  let w := sample.world Timed in
  let c := cargo.mkCargo "XYZ789" "" cargo.zeroRouteSpecification cargo.zeroItinerary
             cargo.zeroDelivery in
  (mgo.steady (session w) /\ mgo.failure (session w) = None
   /\ cargo_records "goddd" "XYZ789" w = [])
  /\ (cr_Remove (cargo_repo Timed "goddd") c w).1 = Some mgo_ErrNotFound.
Proof.
  intros w c.
  assert (Hst : mgo.steady (session w)) by (vm_compute; reflexivity).
  assert (E : mgo.failure (session w) = None) by (vm_compute; reflexivity).
  assert (Hc : cargo_records "goddd" "XYZ789" w = []) by (vm_compute; reflexivity).
  destruct (cargo_Remove_errors Timed "goddd" c w Hst) as (_ & Hab).
  exact (conj (conj Hst (conj E Hc)) (proj1 (Hab E Hc))).
Defined.

Section Uniqueness.

Lemma length_sublist_le {A} (l1 l2 : list A) : sublist l1 l2 -> (length l1 <= length l2)%nat.
Proof. apply sublist_length. Qed.

Lemma records_removed_le c sel sel' s :
  (length (mgo.find sel' (mgo.collection (removed c sel s) c))
   <= length (mgo.find sel' (mgo.collection s c)))%nat.
Proof.
  rewrite collection_removed. destruct (mgo.failure s); [done|].
  destruct (mgo.remove _ _) as [docs|] eqn:R; cbn; [|done].
  apply sublist_length. by apply (find_remove_sublist sel).
Qed.

Lemma records_unstored_le v db id id' s :
  (length (mgo.find [("trackingid", id')] (mgo.collection (unstored v db id s) (C db "cargo")))
   <= length (mgo.find [("trackingid", id')] (mgo.collection s (C db "cargo"))))%nat.
Proof.
  destruct v; unfold unstored.
  - etrans; [apply records_removed_le|apply records_removed_le].
  - apply records_removed_le.
Qed.

Lemma records_stored_le v db (c : cargo.Cargo) g id s :
  (length (mgo.find [("trackingid", id)] (mgo.collection s (C db "cargo"))) <= 1)%nat ->
  (length (mgo.find [("trackingid", id)] (mgo.collection (stored v db c g s) (C db "cargo")))
   <= 1)%nat.
Proof.
  intros Hle. rewrite <- (length_fmap (unmarshal (T := cargo.Cargo))), decoded_stored.
  destruct (mgo.failure s) as [msg|] eqn:E; [by rewrite length_fmap|].
  destruct (decide (id = cargo.c_TrackingID c)) as [->|Hne].
  - rewrite decoded_cargo_upsert. destruct (mgo.find _ _) as [|d rest]; [done|].
    cbn in *. by rewrite length_fmap.
  - rewrite decoded_other_upsert by done. by rewrite length_fmap.
Qed.

End Uniqueness.

(** X3: the repository keeps tracking identities unique.  If no identity
    has more than one cargo record, none has after a [Store] or a [Remove],
    of either variant, whatever the cargo and the state of the connection. *)
Theorem unique_cargos_kept :
  forall (v : variant) (db : string) (c : cargo.Cargo) (w : World),
    unique_cargos db w ->
    unique_cargos db (cr_Store (cargo_repo v db) c w).2
    /\ unique_cargos db (cr_Remove (cargo_repo v db) c w).2.
Proof.
  intros v db c w Hu. split; intros id; unfold cargo_records.
  - destruct (run_cargo_Store v db c w) as (_ & -> & _). apply records_stored_le, Hu.
  - destruct (run_cargo_Remove v db c w) as (_ & -> & _).
    etrans; [apply records_unstored_le|apply Hu].
Qed.

Lemma unique_cargos_kept_witness :
  unique_cargos "goddd" (fresh ∅)
  /\ unique_cargos "goddd" (cr_Store (cargo_repo Padded "goddd") sample.booked (fresh ∅)).2.
Proof.
  assert (Hu : unique_cargos "goddd" (fresh ∅)).
  { intros id. vm_compute. lia. }
  exact (conj Hu (proj1 (unique_cargos_kept Padded "goddd" sample.booked (fresh ∅) Hu))).
Defined.

Section Apart.

Lemma Forall_upsert (P : Doc -> Prop) sel fields (docs : list Doc) :
  Forall P docs ->
  (forall d, P d -> matches sel d = true -> P (fields ∪ d)) ->
  P (fields ∪ of_selector sel) ->
  Forall P (mgo.upsert sel fields docs).
Proof.
  intros Hall Hset Hnew. induction Hall as [|d docs Hd Hall IH]; cbn.
  - by constructor.
  - destruct (matches sel d) eqn:Hm; constructor; auto.
Qed.

Lemma Forall_remove (P : Doc -> Prop) sel (docs docs' : list Doc) :
  mgo.remove sel docs = Some docs' -> Forall P docs -> Forall P docs'.
Proof.
  intros (l1 & d & l2 & -> & -> & _)%remove_split.
  rewrite !Forall_app, Forall_cons. tauto.
Qed.

Lemma find_remove_unselected_in sel sel' (docs docs' : list Doc) :
  Forall (fun d => matches sel d = true -> matches sel' d = false) docs ->
  mgo.remove sel docs = Some docs' ->
  mgo.find sel' docs' = mgo.find sel' docs.
Proof.
  intros Hall (l1 & d & l2 & -> & -> & Hm & _)%remove_split.
  apply Forall_app in Hall as [_ [Hd _]%Forall_cons].
  rewrite !find_app. f_equal. unfold mgo.find. cbn. by rewrite (Hd Hm).
Qed.

Lemma apart_upsert_cargo (c : cargo.Cargo) (docs : list Doc) :
  Forall apart docs ->
  Forall apart (mgo.upsert [("trackingid", cargo.c_TrackingID c)] (marshal c) docs).
Proof.
  intros Hall. apply Forall_upsert; [done| |by left].
  intros d [Hd|Hd] Hm; [left|].
  - by rewrite lookup_union_r.
  - apply matches_single_true in Hm. congruence.
Qed.

Lemma apart_upsert_filler (g : Garbage) id (docs : list Doc) :
  Forall apart docs ->
  Forall apart (mgo.upsert [("trackingid_g", id)] (marshal g) docs).
Proof.
  intros Hall. apply Forall_upsert; [done| |by right].
  intros d [Hd|Hd] Hm; [|right].
  - apply matches_single_true in Hm. congruence.
  - by rewrite lookup_union_r.
Qed.

Lemma apart_stored v db c g s :
  Forall apart (mgo.collection s (C db "cargo")) ->
  Forall apart (mgo.collection (stored v db c g s) (C db "cargo")).
Proof.
  intros Hall.
  assert (H1 : Forall apart
                 (mgo.collection
                    (upserted (C db "cargo") [("trackingid", cargo.c_TrackingID c)]
                       (marshal c) s) (C db "cargo"))).
  { rewrite collection_upserted_any. destruct (mgo.failure s); [done|].
    by apply apart_upsert_cargo. }
  destruct v; cbn [stored]; [|done].
  rewrite collection_upserted_any. destruct (mgo.failure _); [done|].
  by apply apart_upsert_filler.
Qed.

Lemma apart_removed sel s c :
  Forall apart (mgo.collection s c) -> Forall apart (mgo.collection (removed c sel s) c).
Proof.
  intros Hall. rewrite collection_removed. destruct (mgo.failure s); [done|].
  destruct (mgo.remove _ _) as [docs|] eqn:R; cbn; [|done].
  by apply (Forall_remove _ _ _ _ R).
Qed.

Lemma apart_unstored v db id s :
  Forall apart (mgo.collection s (C db "cargo")) ->
  Forall apart (mgo.collection (unstored v db id s) (C db "cargo")).
Proof. intros Hall. destruct v; unfold unstored; by repeat apply apart_removed. Qed.

(** After a removal that found its cargo, a database with unique
    identities has no record of that identity left, and the records of
    other identities are found as before. *)
Lemma find_unstored v db id s :
  mgo.steady s ->
  mgo.failure s = None ->
  (length (mgo.find [("trackingid", id)] (mgo.collection s (C db "cargo"))) <= 1)%nat ->
  Forall apart (mgo.collection s (C db "cargo")) ->
  mgo.find [("trackingid", id)] (mgo.collection s (C db "cargo")) <> [] ->
  mgo.find [("trackingid", id)] (mgo.collection (unstored v db id s) (C db "cargo")) = []
  /\ forall id', id' <> id ->
       mgo.find [("trackingid", id')] (mgo.collection (unstored v db id s) (C db "cargo"))
       = mgo.find [("trackingid", id')] (mgo.collection s (C db "cargo")).
Proof.
  intros Hst E Hu Hap Hsome.
  set (s1 := removed (C db "cargo") [("trackingid", id)] s).
  assert (H1 : mgo.find [("trackingid", id)] (mgo.collection s1 (C db "cargo")) = []
               /\ forall id', id' <> id ->
                    mgo.find [("trackingid", id')] (mgo.collection s1 (C db "cargo"))
                    = mgo.find [("trackingid", id')] (mgo.collection s (C db "cargo"))).
  { unfold s1. rewrite collection_removed, E.
    destruct (mgo.remove _ _) as [docs|] eqn:R; cbn [default from_option Datatypes.id];
      [|by apply remove_none in R].
    split.
    - rewrite (find_remove _ _ _ R).
      destruct (mgo.find _ _) as [|d [|d' rest]]; cbn in *; [done..|lia].
    - intros id' Hne. by apply (find_remove_other _ id). }
  destruct v; unfold unstored; fold s1; [|done].
  destruct H1 as [H1 H1'].
  assert (Hap1 : Forall apart (mgo.collection s1 (C db "cargo"))) by by apply apart_removed.
  assert (E1 : mgo.failure s1 = None) by (unfold s1; by rewrite failure_removed).
  rewrite collection_removed, E1.
  destruct (mgo.remove _ _) as [docs|] eqn:R; cbn [default from_option Datatypes.id]; [|done].
  assert (Hun : forall id', mgo.find [("trackingid", id')] docs
                            = mgo.find [("trackingid", id')] (mgo.collection s1 (C db "cargo"))).
  { intros id'. apply (find_remove_unselected_in [("trackingid_g", id)]); [|done].
    eapply Forall_impl; [exact Hap1|]. intros d [Hd|Hd] Hm.
    - apply matches_single_true in Hm. congruence.
    - by rewrite matches_single, Hd. }
  split.
  - by rewrite Hun.
  - intros id' Hne. rewrite Hun. by apply H1'.
Qed.

End Apart.

(** X4: on a connection that stays as it is, after a [Remove] that
    returns no error, in a database where tracking identities are unique
    and cargo records and filler records are apart, [Find] of the removed
    identity returns [cargo.ErrUnknown] and every other identity is found
    as before. *)
Theorem cargo_Remove_then_Find :
  forall (v : variant) (db : string) (c : cargo.Cargo) (w : World),
    mgo.steady (session w) ->
    unique_cargos db w ->
    records_apart db w ->
    let id := cargo.c_TrackingID c in
    let r := cr_Remove (cargo_repo v db) c w in
    r.1 = None ->
    (cr_Find (cargo_repo v db) id r.2).1 = inr cargo_ErrUnknown
    /\ forall id', id' <> id ->
         (cr_Find (cargo_repo v db) id' r.2).1 = (cr_Find (cargo_repo v db) id' w).1.
Proof.
  intros v db c w Hst Hu Hap id r Hnone.
  destruct (run_cargo_Remove v db c w) as (Hr & Hs & _). fold r id in Hr, Hs.
  rewrite Hnone in Hr. unfold remove_error in Hr.
  destruct (mgo.failure (session w)) eqn:E; [done|].
  destruct (mgo.remove _ _) as [docs|] eqn:R; [|done].
  assert (Hsome : mgo.find [("trackingid", id)] (mgo.collection (session w) (C db "cargo"))
                  <> []).
  { intros Hf. apply remove_none in Hf. congruence. }
  destruct (find_unstored v db id (session w) Hst E (Hu id) Hap Hsome) as [Hgone Hothers].
  assert (Hst2 : mgo.steady (session r.2)) by (rewrite Hs; by apply steady_unstored).
  split.
  - destruct (run_cargo_Find v db id r.2) as (-> & _).
    rewrite (asked_steady _ _ Hst2), Hs.
    unfold found. by rewrite failure_unstored, E, Hgone.
  - intros id' Hne.
    destruct (run_cargo_Find v db id' r.2) as (-> & _).
    destruct (run_cargo_Find v db id' w) as (-> & _).
    rewrite (asked_steady _ _ Hst2), (asked_steady _ _ Hst), Hs.
    unfold found. by rewrite failure_unstored, E, (Hothers id' Hne).
Qed.

(** X5: cargo records and filler records stay apart.  If no document of the
    cargo collection carries both a tracking identity and a filler key,
    none does after a [Store] or a [Remove] of either variant. *)
Theorem records_apart_kept :
  forall (v : variant) (db : string) (c : cargo.Cargo) (w : World),
    records_apart db w ->
    records_apart db (cr_Store (cargo_repo v db) c w).2
    /\ records_apart db (cr_Remove (cargo_repo v db) c w).2.
Proof.
  intros v db c w Hap. unfold records_apart. split.
  - destruct (run_cargo_Store v db c w) as (_ & -> & _). by apply apart_stored.
  - destruct (run_cargo_Remove v db c w) as (_ & -> & _). by apply apart_unstored.
Qed.

Section FreshInvariants.

Lemma collection_fresh env c : mgo.collection (session (fresh env)) c = [].
Proof. unfold mgo.collection; cbn. by rewrite lookup_empty. Qed.

Lemma unique_fresh db env : unique_cargos db (fresh env).
Proof. intros id. unfold cargo_records. rewrite collection_fresh. cbn. lia. Qed.

Lemma apart_fresh db env : records_apart db (fresh env).
Proof. unfold records_apart. rewrite collection_fresh. constructor. Qed.

Lemma unique_after_Store v db c w :
  unique_cargos db w -> unique_cargos db (cr_Store (cargo_repo v db) c w).2.
Proof.
  intros Hu id. unfold cargo_records.
  destruct (run_cargo_Store v db c w) as (_ & -> & _). apply records_stored_le, Hu.
Qed.

Lemma apart_after_Store v db c w :
  records_apart db w -> records_apart db (cr_Store (cargo_repo v db) c w).2.
Proof.
  intros Hap. unfold records_apart.
  destruct (run_cargo_Store v db c w) as (_ & -> & _). by apply apart_stored.
Qed.

End FreshInvariants.

Lemma cargo_Remove_then_Find_witness :
  let w := (cr_Store (cargo_repo Padded "goddd") sample.booked (fresh ∅)).2 in
  let r := cr_Remove (cargo_repo Padded "goddd") sample.booked w in
  (mgo.steady (session w) /\ unique_cargos "goddd" w /\ records_apart "goddd" w
   /\ r.1 = None)
  /\ (cr_Find (cargo_repo Padded "goddd") (cargo.c_TrackingID sample.booked) r.2).1
     = inr cargo_ErrUnknown.
Proof.
  intros w r.
  assert (Hst : mgo.steady (session w)) by (vm_compute; reflexivity).
  assert (Hu : unique_cargos "goddd" w) by apply unique_after_Store, unique_fresh.
  assert (Hap : records_apart "goddd" w) by apply apart_after_Store, apart_fresh.
  assert (Hnone : r.1 = None) by (vm_compute; reflexivity).
  exact (conj (conj Hst (conj Hu (conj Hap Hnone)))
              (proj1 (cargo_Remove_then_Find Padded "goddd" sample.booked w
                        Hst Hu Hap Hnone))).
Defined.

Lemma records_apart_kept_witness :
  records_apart "goddd" (fresh ∅)
  /\ records_apart "goddd" (cr_Store (cargo_repo Padded "goddd") sample.booked (fresh ∅)).2.
Proof.
  exact (conj (apart_fresh "goddd" ∅)
              (proj1 (records_apart_kept Padded "goddd" sample.booked (fresh ∅)
                        (apart_fresh "goddd" ∅)))).
Defined.

(** ** Registering the initial records *)
Section Registering.

Context {T : Type} `{Marshal T}.
Variables (k : string) (key : T -> string).

(** The key field is among the fields written, and what is written is read
    back. *)
Hypothesis marshal_key : forall x, marshal x !! k = Some (VString (key x)).
Hypothesis round_trip : forall x (d : Doc), unmarshal (marshal x ∪ d) = x.

Lemma keyed_selected x (d : Doc) : matches [(k, key x)] (marshal x ∪ d) = true.
Proof using marshal_key. apply matches_union_set, marshal_key. Qed.

Lemma keyed_keeps x :
  forall d, matches [(k, key x)] d = true -> matches [(k, key x)] (marshal x ∪ d) = true.
Proof using marshal_key. intros d _. apply keyed_selected. Qed.

(** An upsert under one key is not seen by a query for another. *)
Lemma find_upsert_other_key x key' (docs : list Doc) :
  key' <> key x ->
  mgo.find [(k, key')] (mgo.upsert [(k, key x)] (marshal x) docs)
  = mgo.find [(k, key')] docs.
Proof using marshal_key.
  intros Hne.
  assert (Hc : forall d : Doc, matches [(k, key')] (marshal x ∪ d) = false).
  { intros d. rewrite matches_single.
    rewrite (lookup_union_Some_l _ d k (VString (key x))) by apply marshal_key.
    apply String.eqb_neq. congruence. }
  induction docs as [|d docs IH]; unfold mgo.find in *; cbn [mgo.upsert List.filter].
  - by rewrite Hc.
  - destruct (matches [(k, key x)] d) eqn:Hd; cbn [mgo.upsert List.filter].
    + rewrite Hc. apply matches_single_true in Hd. rewrite matches_single, Hd.
      by replace (key x =? key')%string with false
        by (symmetry; apply String.eqb_neq; congruence).
    + by rewrite IH.
Qed.

Lemma registered_cons x xs (docs : list Doc) :
  registered k key (x :: xs) docs
  = registered k key xs (mgo.upsert [(k, key x)] (marshal x) docs).
Proof. reflexivity. Qed.

Lemma find_registered_other xs key' (docs : list Doc) :
  key' ∉ key <$> xs ->
  mgo.find [(k, key')] (registered k key xs docs) = mgo.find [(k, key')] docs.
Proof using marshal_key.
  revert docs. induction xs as [|x xs IH]; intros docs Hnotin; [done|].
  rewrite fmap_cons in Hnotin. apply not_elem_of_cons in Hnotin as [Hne Hnotin].
  rewrite registered_cons, IH by done. by apply find_upsert_other_key.
Qed.

(** After registration the first document under the key of a registered
    record holds that record. *)
Lemma find_registered xs x (docs : list Doc) :
  NoDup (key <$> xs) -> x ∈ xs ->
  exists d rest,
    mgo.find [(k, key x)] (registered k key xs docs) = d :: rest /\ marshal x ∪ d = d.
Proof using marshal_key.
  revert docs. induction xs as [|y xs IH]; intros docs Hnd Hin; [by apply elem_of_nil in Hin|].
  rewrite fmap_cons in Hnd. apply NoDup_cons in Hnd as [Hy Hnd]. rewrite registered_cons.
  apply elem_of_cons in Hin as [->|Hin].
  - rewrite find_registered_other by done.
    rewrite find_upsert; [|apply keyed_keeps|apply keyed_selected].
    destruct (mgo.find _ docs); eexists _, _; (split; [done|]); apply union_absorb.
  - by apply IH.
Qed.

Lemma registered_fixpoint xs (docs : list Doc) :
  (forall x, x ∈ xs ->
     exists d rest, mgo.find [(k, key x)] docs = d :: rest /\ marshal x ∪ d = d) ->
  registered k key xs docs = docs.
Proof.
  induction xs as [|x xs IH]; intros Hall; [done|]. rewrite registered_cons.
  destruct (Hall x) as (d & rest & Hf & Hd); [by left|].
  rewrite (upsert_fixpoint _ _ docs d rest Hf Hd). apply IH.
  intros y Hy. apply Hall. by right.
Qed.

(** Registering a second time changes nothing. *)
Lemma registered_idempotent xs (docs : list Doc) :
  NoDup (key <$> xs) ->
  registered k key xs (registered k key xs docs) = registered k key xs docs.
Proof using marshal_key.
  intros Hnd. apply registered_fixpoint. intros x Hx. by apply find_registered.
Qed.

(** Registered in an empty collection, the records are listed in order. *)
Lemma registered_app xs (docs : list Doc) :
  NoDup (key <$> xs) ->
  (forall x, x ∈ xs -> mgo.find [(k, key x)] docs = []) ->
  registered k key xs docs
  = docs ++ ((fun x => marshal x ∪ of_selector [(k, key x)]) <$> xs).
Proof using marshal_key.
  revert docs. induction xs as [|x xs IH]; intros docs Hnd Hfree.
  - cbn. by rewrite app_nil_r.
  - rewrite fmap_cons in Hnd. apply NoDup_cons in Hnd as [Hx Hnd].
    rewrite registered_cons, fmap_cons.
    rewrite (upsert_absent _ _ docs) by (apply Hfree; by left).
    rewrite IH; [by rewrite <- app_assoc|done|].
    intros y Hy. rewrite find_app, Hfree by by right.
    unfold mgo.find; cbn [List.filter app].
    replace (matches [(k, key y)] (marshal x ∪ of_selector [(k, key x)])) with false; [done|].
    symmetry. rewrite matches_single.
    rewrite (lookup_union_Some_l _ _ k (VString (key x))) by apply marshal_key.
    apply String.eqb_neq. intros Heq. apply Hx. rewrite Heq.
    by apply list_elem_of_fmap_2.
Qed.

Lemma decode_registered_empty xs :
  NoDup (key <$> xs) ->
  unmarshal <$> registered k key xs [] = xs.
Proof using marshal_key round_trip.
  intros Hnd. rewrite registered_app by done. cbn.
  rewrite <- list_fmap_compose. rewrite <- (list_fmap_id xs) at 2.
  apply list_fmap_ext. intros i x _. cbn. apply round_trip.
Qed.

End Registering.

(** ** The constructors, run *)
Section Constructors.

Context `{Fixtures}.

Lemma for_each_session {A B} (f : A -> Go B) (g : A -> mgo.Session -> mgo.Session) xs w :
  (forall x w, session (f x w).2 = g x (session w)) ->
  session (for_each xs f w).2 = fold_left (fun s x => g x s) xs (session w).
Proof.
  intros Hf. revert w. induction xs as [|x xs IH]; intros w; [done|].
  rewrite for_each_cons, IH, Hf. done.
Qed.

Lemma fold_upserted {T} `{Marshal T} c k (key : T -> string) xs s :
  mgo.steady s ->
  mgo.failure s = None ->
  let s' := fold_left (fun s x => upserted c [(k, key x)] (marshal x) s) xs s in
  mgo.failure s' = None
  /\ mgo.collection s' c = registered k key xs (mgo.collection s c)
  /\ forall c', c <> c' -> mgo.collection s' c' = mgo.collection s c'.
Proof.
  revert s. induction xs as [|x xs IH]; intros s Hst E; [done|]. cbn [fold_left].
  destruct (IH (upserted c [(k, key x)] (marshal x) s)) as (E' & Hc & Hother).
  { by apply steady_upserted. }
  { by rewrite failure_upserted. }
  cbn zeta. rewrite E', Hc. repeat split.
  - by rewrite collection_upserted.
  - intros c' Hne. rewrite (Hother c' Hne). by apply collection_upserted_ne.
Qed.

Lemma fold_upserted_broken {T} `{Marshal T} c k (key : T -> string) xs s msg :
  mgo.steady s ->
  mgo.failure s = Some msg ->
  fold_left (fun s x => upserted c [(k, key x)] (marshal x) s) xs s = s.
Proof.
  intros Hst E. induction xs as [|x xs IH]; [done|]. cbn [fold_left].
  by rewrite (upserted_broken _ _ _ _ msg Hst E).
Qed.

Lemma run_location_store v db l w :
  session (match v with
           | Padded => padded.locationRepository_store (padded.mkLocationRepo db) l w
           | Timed => timed.locationRepository_store (timed.mkLocationRepo db) l w
           end).2
  = upserted (C db "location") [("unlocode", location.UNLocode_of l)] (marshal l) (session w).
Proof.
  destruct w as [[d f ls i] o k t e g]. destruct v.
  - unfold padded.locationRepository_store; run_body. unfold mgo.next; cbn.
    by case_requests.
  - unfold timed.locationRepository_store; run_body. unfold mgo.next; cbn.
    by case_requests.
Qed.

Lemma run_voyage_store v db x w :
  session (match v with
           | Padded => padded.voyageRepository_store (padded.mkVoyageRepo db) x w
           | Timed => timed.voyageRepository_store (timed.mkVoyageRepo db) x w
           end).2
  = upserted (C db "voyage") [("number", voyage.Number_of x)] (marshal x) (session w).
Proof.
  destruct w as [[d f ls i] o k t e g]. destruct v.
  - unfold padded.voyageRepository_store; run_body. unfold mgo.next; cbn.
    by case_requests.
  - unfold timed.voyageRepository_store; run_body. unfold mgo.next; cbn.
    by case_requests.
Qed.

(** Ensuring an index changes no document; on a connection that stays as
    it is it leaves the connection as it is. *)
Lemma collection_index_ensured c key s c' :
  mgo.collection (index_ensured c key s) c' = mgo.collection s c'.
Proof.
  unfold index_ensured. destruct (mgo.cached s c key); [done|].
  destruct (mgo.failure s); [apply collection_next|].
  unfold mgo.cache, mgo.collection; cbn. by rewrite data_next.
Qed.

Lemma steady_index_ensured c key s :
  mgo.steady s ->
  mgo.steady (index_ensured c key s)
  /\ mgo.failure (index_ensured c key s) = mgo.failure s.
Proof.
  intros Hst. unfold index_ensured. destruct (mgo.cached s c key); [done|].
  rewrite (next_steady _ Hst). by destruct (mgo.failure s) eqn:E.
Qed.

(** A failed [EnsureIndex] on a connection that stays as it is leaves the
    session as it was. *)
Lemma index_ensured_failed c key s err :
  mgo.steady s -> index_error c key s = Some err -> index_ensured c key s = s.
Proof.
  intros Hst. unfold index_error, index_ensured. destruct (mgo.cached s c key); [done|].
  rewrite (next_steady _ Hst). by destruct (mgo.failure s).
Qed.

(** The location constructor: when the index cannot be ensured, the
    driver's error and nothing stored; otherwise the repository, and the
    initial locations upserted in order. *)
Lemma run_NewLocationRepository v db w :
  let r := NewLocationRepository_of v db w in
  let s := index_ensured (C db "location") "unlocode" (session w) in
  match index_error (C db "location") "unlocode" (session w) with
  | Some err => r.1 = inr err /\ session r.2 = s
  | None =>
      r.1 = inl (location_repo v db)
      /\ session r.2
         = fold_left (fun s l => upserted (C db "location")
                                   [("unlocode", location.UNLocode_of l)] (marshal l) s)
                     initial_locations s
  end.
Proof.
  destruct v; cbn [NewLocationRepository_of].
  - unfold padded.NewLocationRepository, defer, Copy, Close.
    rewrite !bind_run. cbn [ret fst snd]. rewrite run_EnsureIndex. cbn [fst snd].
    destruct (index_error _ _ _) as [err|]; [by destruct w|].
    rewrite !bind_run. cbn [ret fst snd]. split; [done|].
    rewrite (for_each_session _ (fun l s => upserted (C db "location")
                                          [("unlocode", location.UNLocode_of l)]
                                          (marshal l) s));
      [by destruct w|].
    intros l w'. apply (run_location_store Padded).
  - unfold timed.NewLocationRepository, defer, Copy, Close.
    rewrite !bind_run. cbn [ret fst snd]. rewrite run_EnsureIndex. cbn [fst snd].
    destruct (index_error _ _ _) as [err|]; [by destruct w|].
    rewrite !bind_run. cbn [ret fst snd]. split; [done|].
    rewrite (for_each_session _ (fun l s => upserted (C db "location")
                                          [("unlocode", location.UNLocode_of l)]
                                          (marshal l) s));
      [by destruct w|].
    intros l w'. apply (run_location_store Timed).
Qed.

Lemma run_NewVoyageRepository v db w :
  let r := NewVoyageRepository_of v db w in
  let s := index_ensured (C db "voyage") "number" (session w) in
  match index_error (C db "voyage") "number" (session w) with
  | Some err => r.1 = inr err /\ session r.2 = s
  | None =>
      r.1 = inl (voyage_repo v db)
      /\ session r.2
         = fold_left (fun s x => upserted (C db "voyage")
                                   [("number", voyage.Number_of x)] (marshal x) s)
                     initial_voyages s
  end.
Proof.
  destruct v; cbn [NewVoyageRepository_of].
  - unfold padded.NewVoyageRepository, defer, Copy, Close.
    rewrite !bind_run. cbn [ret fst snd]. rewrite run_EnsureIndex. cbn [fst snd].
    destruct (index_error _ _ _) as [err|]; [by destruct w|].
    rewrite !bind_run. cbn [ret fst snd]. split; [done|].
    rewrite (for_each_session _ (fun x s => upserted (C db "voyage")
                                          [("number", voyage.Number_of x)]
                                          (marshal x) s));
      [by destruct w|].
    intros x w'. apply (run_voyage_store Padded).
  - unfold timed.NewVoyageRepository, defer, Copy, Close.
    rewrite !bind_run. cbn [ret fst snd]. rewrite run_EnsureIndex. cbn [fst snd].
    destruct (index_error _ _ _) as [err|]; [by destruct w|].
    rewrite !bind_run. cbn [ret fst snd]. split; [done|].
    rewrite (for_each_session _ (fun x s => upserted (C db "voyage")
                                          [("number", voyage.Number_of x)]
                                          (marshal x) s));
      [by destruct w|].
    intros x w'. apply (run_voyage_store Timed).
Qed.

(** What the constructors register on a connection that works and stays
    working. *)
Lemma registered_locations v db w :
  mgo.steady (session w) -> mgo.failure (session w) = None ->
  let r := NewLocationRepository_of v db w in
  r.1 = inl (location_repo v db)
  /\ mgo.steady (session r.2)
  /\ mgo.failure (session r.2) = None
  /\ mgo.collection (session r.2) (C db "location")
     = registered "unlocode" location.UNLocode_of initial_locations
         (mgo.collection (session w) (C db "location"))
  /\ forall c', C db "location" <> c' ->
       mgo.collection (session r.2) c' = mgo.collection (session w) c'.
Proof.
  intros Hst E. pose proof (run_NewLocationRepository v db w) as Hrun. cbn zeta in *.
  unfold index_error in Hrun. rewrite E in Hrun.
  assert (Hnone : (if mgo.cached (session w) (C db "location") "unlocode"
                   then None else driver_error <$> None) = None)
    by (by destruct (mgo.cached _ _ _)).
  rewrite Hnone in Hrun. destruct Hrun as [Hr Hs].
  destruct (steady_index_ensured (C db "location") "unlocode" _ Hst) as [Hst' E'].
  rewrite E in E'.
  destruct (fold_upserted (C db "location") "unlocode" location.UNLocode_of
              initial_locations _ Hst' E') as (E2 & Hc & Ho).
  cbn zeta in E2, Hc, Ho. rewrite <- Hs in E2, Hc, Ho.
  rewrite collection_index_ensured in Hc.
  repeat match goal with |- _ /\ _ => split end; [done| |done|done|].
  - rewrite Hs. clear -Hst'. revert Hst'.
    generalize (index_ensured (C db "location") "unlocode" (session w)).
    induction initial_locations as [|l ls IH]; intros s Hst'; [done|].
    cbn [fold_left]. by apply IH, steady_upserted.
  - intros c' Hne. by rewrite (Ho c' Hne), collection_index_ensured.
Qed.

(** On a connection that is broken and stays broken the constructor stores
    nothing; it returns the driver's error, unless the index is in the
    cache: then [EnsureIndex] sends no request and the repository is
    returned. *)
Lemma unregistered_locations v db w msg :
  mgo.steady (session w) -> mgo.failure (session w) = Some msg ->
  let r := NewLocationRepository_of v db w in
  r.1 = (if mgo.cached (session w) (C db "location") "unlocode"
         then inl (location_repo v db) else inr (driver_error msg))
  /\ session r.2 = session w.
Proof.
  intros Hst E. pose proof (run_NewLocationRepository v db w) as Hrun. cbn zeta in *.
  unfold index_error, index_ensured in Hrun. rewrite E in Hrun.
  destruct (mgo.cached _ _ _); cbn in Hrun; destruct Hrun as [Hr Hs].
  - split; [done|]. rewrite Hs. by apply (fold_upserted_broken _ _ _ _ _ msg).
  - split; [done|]. by rewrite Hs, next_steady.
Qed.

Lemma registered_voyages v db w :
  mgo.steady (session w) -> mgo.failure (session w) = None ->
  let r := NewVoyageRepository_of v db w in
  r.1 = inl (voyage_repo v db)
  /\ mgo.steady (session r.2)
  /\ mgo.failure (session r.2) = None
  /\ mgo.collection (session r.2) (C db "voyage")
     = registered "number" voyage.Number_of initial_voyages
         (mgo.collection (session w) (C db "voyage"))
  /\ forall c', C db "voyage" <> c' ->
       mgo.collection (session r.2) c' = mgo.collection (session w) c'.
Proof.
  intros Hst E. pose proof (run_NewVoyageRepository v db w) as Hrun. cbn zeta in *.
  unfold index_error in Hrun. rewrite E in Hrun.
  assert (Hnone : (if mgo.cached (session w) (C db "voyage") "number"
                   then None else driver_error <$> None) = None)
    by (by destruct (mgo.cached _ _ _)).
  rewrite Hnone in Hrun. destruct Hrun as [Hr Hs].
  destruct (steady_index_ensured (C db "voyage") "number" _ Hst) as [Hst' E'].
  rewrite E in E'.
  destruct (fold_upserted (C db "voyage") "number" voyage.Number_of
              initial_voyages _ Hst' E') as (E2 & Hc & Ho).
  cbn zeta in E2, Hc, Ho. rewrite <- Hs in E2, Hc, Ho.
  rewrite collection_index_ensured in Hc.
  repeat match goal with |- _ /\ _ => split end; [done| |done|done|].
  - rewrite Hs. clear -Hst'. revert Hst'.
    generalize (index_ensured (C db "voyage") "number" (session w)).
    induction initial_voyages as [|x xs IH]; intros s Hst'; [done|].
    cbn [fold_left]. by apply IH, steady_upserted.
  - intros c' Hne. by rewrite (Ho c' Hne), collection_index_ensured.
Qed.

(** On a connection that is broken and stays broken the constructor stores
    nothing; it returns the driver's error, unless the index is in the
    cache: then [EnsureIndex] sends no request and the repository is
    returned. *)
Lemma unregistered_voyages v db w msg :
  mgo.steady (session w) -> mgo.failure (session w) = Some msg ->
  let r := NewVoyageRepository_of v db w in
  r.1 = (if mgo.cached (session w) (C db "voyage") "number"
         then inl (voyage_repo v db) else inr (driver_error msg))
  /\ session r.2 = session w.
Proof.
  intros Hst E. pose proof (run_NewVoyageRepository v db w) as Hrun. cbn zeta in *.
  unfold index_error, index_ensured in Hrun. rewrite E in Hrun.
  destruct (mgo.cached _ _ _); cbn in Hrun; destruct Hrun as [Hr Hs].
  - split; [done|]. rewrite Hs. by apply (fold_upserted_broken _ _ _ _ _ msg).
  - split; [done|]. by rewrite Hs, next_steady.
Qed.

End Constructors.

Section Registered.

Context `{Fixtures}.

Lemma location_key (l : location.Location) :
  marshal l !! "unlocode" = Some (VString (location.UNLocode_of l)).
Proof. by destruct l. Qed.

Lemma voyage_key (x : voyage.Voyage) :
  marshal x !! "number" = Some (VString (voyage.Number_of x)).
Proof. by destruct x. Qed.

Lemma found_holds {T} `{Marshal T} c k key unknown s (x : T) d rest :
  (forall d : Doc, unmarshal (marshal x ∪ d) = x) ->
  mgo.failure s = None ->
  mgo.find [(k, key)] (mgo.collection s c) = d :: rest ->
  marshal x ∪ d = d ->
  found c k key unknown s = inl x.
Proof.
  intros Hround E Hf Hd. unfold found. rewrite E, Hf, <- Hd. by rewrite Hround.
Qed.

Lemma found_same_records {T} `{Marshal T} c k key unknown s s' :
  mgo.failure s = mgo.failure s' ->
  mgo.find [(k, key)] (mgo.collection s c) = mgo.find [(k, key)] (mgo.collection s' c) ->
  found (T := T) c k key unknown s = found c k key unknown s'.
Proof. intros E Hf. unfold found. by rewrite E, Hf. Qed.

End Registered.

(** X6: on a connection that works and stays working the location and
    voyage constructors return their repository and leave every initial
    record findable under its key, provided the initial records have
    distinct keys; a key that is not among them is found as before. *)
Theorem constructors_register `{Fixtures} :
  forall (v : variant) (db : string) (w : World),
    mgo.steady (session w) ->
    mgo.failure (session w) = None ->
    NoDup (location.UNLocode_of <$> initial_locations) ->
    NoDup (voyage.Number_of <$> initial_voyages) ->
    let rl := NewLocationRepository_of v db w in
    let rv := NewVoyageRepository_of v db w in
    (rl.1 = inl (location_repo v db)
     /\ (forall l, l ∈ initial_locations ->
           (lr_Find (location_repo v db) (location.UNLocode_of l) rl.2).1 = inl l)
     /\ (forall k, k ∉ location.UNLocode_of <$> initial_locations ->
           (lr_Find (location_repo v db) k rl.2).1 = (lr_Find (location_repo v db) k w).1))
    /\ (rv.1 = inl (voyage_repo v db)
        /\ (forall x, x ∈ initial_voyages ->
              (vr_Find (voyage_repo v db) (voyage.Number_of x) rv.2).1 = inl x)
        /\ (forall k, k ∉ voyage.Number_of <$> initial_voyages ->
              (vr_Find (voyage_repo v db) k rv.2).1 = (vr_Find (voyage_repo v db) k w).1)).
Proof.
  intros v db w Hst E Hl Hv rl rv. split.
  - destruct (registered_locations v db w Hst E) as (Hr & _ & E' & Hc & _).
    fold rl in Hr, E', Hc.
    repeat match goal with |- _ /\ _ => split end; [done| |].
    + intros l Hin. destruct (run_location_Find v db (location.UNLocode_of l) rl.2) as (-> & _).
      destruct (find_registered "unlocode" location.UNLocode_of location_key
                  initial_locations l (mgo.collection (session w) (C db "location")) Hl Hin)
        as (d & rest & Hf & Hd).
      apply (found_holds _ _ _ _ _ l d rest); [apply unmarshal_marshal_location|done| |done].
      by rewrite Hc.
    + intros k Hk.
      destruct (run_location_Find v db k rl.2) as (-> & _).
      destruct (run_location_Find v db k w) as (-> & _).
      apply found_same_records; [congruence|]. rewrite Hc.
      by apply find_registered_other; [apply location_key|].
  - destruct (registered_voyages v db w Hst E) as (Hr & _ & E' & Hc & _).
    fold rv in Hr, E', Hc.
    repeat match goal with |- _ /\ _ => split end; [done| |].
    + intros x Hin. destruct (run_voyage_Find v db (voyage.Number_of x) rv.2) as (-> & _).
      destruct (find_registered "number" voyage.Number_of voyage_key
                  initial_voyages x (mgo.collection (session w) (C db "voyage")) Hv Hin)
        as (d & rest & Hf & Hd).
      apply (found_holds _ _ _ _ _ x d rest); [apply unmarshal_marshal_voyage|done| |done].
      by rewrite Hc.
    + intros k Hk.
      destruct (run_voyage_Find v db k rv.2) as (-> & _).
      destruct (run_voyage_Find v db k w) as (-> & _).
      apply found_same_records; [congruence|]. rewrite Hc.
      by apply find_registered_other; [apply voyage_key|].
Qed.

Lemma constructors_register_witness :
  let w := fresh ∅ in
  let rl := NewLocationRepository_of (H := sample.fixtures) Timed "goddd" w in
  (mgo.steady (session w) /\ mgo.failure (session w) = None
   /\ NoDup (location.UNLocode_of <$> initial_locations (Fixtures := sample.fixtures))
   /\ NoDup (voyage.Number_of <$> initial_voyages (Fixtures := sample.fixtures))
   /\ sample.Hamburg ∈ initial_locations (Fixtures := sample.fixtures))
  /\ (lr_Find (location_repo Timed "goddd") (location.UNLocode_of sample.Hamburg) rl.2).1
     = inl sample.Hamburg.
Proof.
  intros w rl.
  assert (Hst : mgo.steady (session w)) by reflexivity.
  assert (E : mgo.failure (session w) = None) by reflexivity.
  assert (Hl : NoDup (location.UNLocode_of <$> initial_locations (Fixtures := sample.fixtures)))
    by (refine (bool_decide_unpack _ _); vm_compute; exact I).
  assert (Hv : NoDup (voyage.Number_of <$> initial_voyages (Fixtures := sample.fixtures)))
    by (refine (bool_decide_unpack _ _); vm_compute; exact I).
  assert (Hin : sample.Hamburg ∈ initial_locations (Fixtures := sample.fixtures))
    by (cbn; set_solver).
  destruct (constructors_register (H := sample.fixtures) Timed "goddd" w Hst E Hl Hv)
    as ((_ & Hfind & _) & _).
  exact (conj (conj Hst (conj E (conj Hl (conj Hv Hin)))) (Hfind sample.Hamburg Hin)).
Defined.

Section Restart.

Context `{Fixtures}.

Lemma same_documents_refl s : same_documents s s.
Proof. by split. Qed.

Lemma run_location_FindAll v db w :
  (lr_FindAll (location_repo v db) w).1
  = match mgo.failure (session w) with
    | Some _ => []
    | None => unmarshal <$> mgo.collection (session w) (C db "location")
    end
  /\ session (lr_FindAll (location_repo v db) w).2 = mgo.next (session w).
Proof.
  rewrite <- (find_all (mgo.collection _ _)).
  destruct w as [[d f l i] o k t e g]. destruct v; cbn.
  - unfold padded.locationRepository_FindAll; run_body. unfold mgo.next; cbn.
    by case_requests.
  - unfold timed.timeLocationRepository_FindAll, timed.locationRepository_FindAll; run_body.
    unfold mgo.next; cbn. by case_requests.
Qed.

End Restart.

(** X7: the location and voyage constructors can be run again.  On a
    connection that stays as it is, with initial records of distinct keys,
    a second run leaves every collection with the documents the first run
    left, whatever was stored before and whether or not the connection
    works. *)
Theorem constructors_run_again `{Fixtures} :
  forall (v : variant) (db : string) (w : World),
    mgo.steady (session w) ->
    NoDup (location.UNLocode_of <$> initial_locations) ->
    NoDup (voyage.Number_of <$> initial_voyages) ->
    let l1 := (NewLocationRepository_of v db w).2 in
    let v1 := (NewVoyageRepository_of v db w).2 in
    same_documents (session (NewLocationRepository_of v db l1).2) (session l1)
    /\ same_documents (session (NewVoyageRepository_of v db v1).2) (session v1).
Proof.
  intros v db w Hst Hl Hv l1 v1.
  destruct (mgo.failure (session w)) as [msg|] eqn:E.
  - destruct (unregistered_locations v db w msg Hst E) as (_ & Hs1). fold l1 in Hs1.
    destruct (unregistered_voyages v db w msg Hst E) as (_ & Hs2). fold v1 in Hs2.
    rewrite <- Hs1 in Hst, E.
    destruct (unregistered_locations v db l1 msg Hst E) as (_ & ->).
    rewrite Hs1, <- Hs2 in Hst, E.
    destruct (unregistered_voyages v db v1 msg Hst E) as (_ & ->).
    split; apply same_documents_refl.
  - split.
    + destruct (registered_locations v db w Hst E) as (_ & Hst1 & E1 & Hc1 & _).
      fold l1 in Hst1, E1, Hc1.
      destruct (registered_locations v db l1 Hst1 E1) as (_ & _ & E2 & Hc2 & Ho2).
      split; [congruence|]. intros c'.
      destruct (decide (C db "location" = c')) as [<-|Hne]; [|by apply Ho2].
      rewrite Hc2, Hc1. by apply registered_idempotent; [apply location_key|].
    + destruct (registered_voyages v db w Hst E) as (_ & Hst1 & E1 & Hc1 & _).
      fold v1 in Hst1, E1, Hc1.
      destruct (registered_voyages v db v1 Hst1 E1) as (_ & _ & E2 & Hc2 & Ho2).
      split; [congruence|]. intros c'.
      destruct (decide (C db "voyage" = c')) as [<-|Hne]; [|by apply Ho2].
      rewrite Hc2, Hc1. by apply registered_idempotent; [apply voyage_key|].
Qed.

Lemma constructors_run_again_witness :
  let l1 := (NewLocationRepository_of (H := sample.fixtures) Padded "goddd" (fresh ∅)).2 in
  (mgo.steady (session (fresh ∅))
   /\ NoDup (location.UNLocode_of <$> initial_locations (Fixtures := sample.fixtures))
   /\ NoDup (voyage.Number_of <$> initial_voyages (Fixtures := sample.fixtures)))
  /\ same_documents
       (session (NewLocationRepository_of (H := sample.fixtures) Padded "goddd" l1).2)
       (session l1).
Proof.
  intros l1.
  assert (Hst : mgo.steady (session (fresh ∅))) by reflexivity.
  assert (Hl : NoDup (location.UNLocode_of <$> initial_locations (Fixtures := sample.fixtures)))
    by (refine (bool_decide_unpack _ _); vm_compute; exact I).
  assert (Hv : NoDup (voyage.Number_of <$> initial_voyages (Fixtures := sample.fixtures)))
    by (refine (bool_decide_unpack _ _); vm_compute; exact I).
  exact (conj (conj Hst (conj Hl Hv))
              (proj1 (constructors_run_again (H := sample.fixtures) Padded "goddd" (fresh ∅)
                        Hst Hl Hv))).
Defined.

(** X8: in a database without locations, on a connection that works and
    stays working, the location constructor followed by [FindAll] lists
    exactly the initial locations, in their order, provided their codes
    are distinct. *)
Theorem NewLocationRepository_then_FindAll `{Fixtures} :
  forall (v : variant) (db : string) (w : World),
    mgo.steady (session w) ->
    mgo.failure (session w) = None ->
    mgo.collection (session w) (C db "location") = [] ->
    NoDup (location.UNLocode_of <$> initial_locations) ->
    (lr_FindAll (location_repo v db) (NewLocationRepository_of v db w).2).1
    = initial_locations.
Proof.
  intros v db w Hst E Hempty Hnd.
  destruct (registered_locations v db w Hst E) as (_ & _ & E' & Hc & _).
  destruct (run_location_FindAll v db (NewLocationRepository_of v db w).2) as (-> & _).
  rewrite E', Hc, Hempty.
  apply decode_registered_empty; [apply location_key|apply unmarshal_marshal_location|done].
Qed.

Lemma NewLocationRepository_then_FindAll_witness :
  let w := fresh ∅ in
  (mgo.steady (session w) /\ mgo.failure (session w) = None
   /\ mgo.collection (session w) (C "goddd" "location") = []
   /\ NoDup (location.UNLocode_of <$> initial_locations (Fixtures := sample.fixtures)))
  /\ (lr_FindAll (location_repo Timed "goddd")
        (NewLocationRepository_of (H := sample.fixtures) Timed "goddd" w).2).1
     = [sample.Stockholm; sample.Hamburg].
Proof.
  intros w.
  assert (Hst : mgo.steady (session w)) by reflexivity.
  assert (E : mgo.failure (session w) = None) by reflexivity.
  assert (Hempty : mgo.collection (session w) (C "goddd" "location") = []) by reflexivity.
  assert (Hl : NoDup (location.UNLocode_of <$> initial_locations (Fixtures := sample.fixtures)))
    by (refine (bool_decide_unpack _ _); vm_compute; exact I).
  exact (conj (conj Hst (conj E (conj Hempty Hl)))
              (NewLocationRepository_then_FindAll (H := sample.fixtures) Timed "goddd" w
                 Hst E Hempty Hl)).
Defined.

Section ConstructorFailure.

Lemma run_NewCargoRepository_of v db w :
  let r := NewCargoRepository_of v db w in
  r.1 = match index_error (C db "cargo") "trackingid" (session w) with
        | Some err => inr err
        | None => inl (cargo_repo v db)
        end
  /\ session r.2 = index_ensured (C db "cargo") "trackingid" (session w).
Proof.
  destruct v; cbn [NewCargoRepository_of].
  - destruct (run_NewCargoRepository db w) as (Hs & Hr & _). by split.
  - unfold timed.NewCargoRepository, defer, Copy, Close.
    rewrite !bind_run. cbn [ret fst snd]. rewrite run_EnsureIndex. cbn [fst snd].
    destruct (index_error _ _ _); by destruct w.
Qed.

End ConstructorFailure.

(** X9: the constructors on a connection that is broken and stays broken.
    A constructor whose index has not been ensured before in this process
    returns the driver's error instead of a repository; one whose index is
    in the driver's cache returns its repository and no error, because
    [EnsureIndex] then sends no request, and the stores of the initial
    records fail unnoticed.  Either way nothing is stored.  The padded
    cargo constructor has by then already grown its filler when NO_PADDING
    is unset or empty. *)
Theorem constructors_fail `{Fixtures} :
  forall (v : variant) (db : string) (w : World) (msg : string),
    mgo.steady (session w) ->
    mgo.failure (session w) = Some msg ->
    ((NewCargoRepository_of v db w).1
       = (if mgo.cached (session w) (C db "cargo") "trackingid"
          then inl (cargo_repo v db) else inr (driver_error msg))
     /\ session (NewCargoRepository_of v db w).2 = session w)
    /\ ((NewLocationRepository_of v db w).1
          = (if mgo.cached (session w) (C db "location") "unlocode"
             then inl (location_repo v db) else inr (driver_error msg))
        /\ session (NewLocationRepository_of v db w).2 = session w)
    /\ ((NewVoyageRepository_of v db w).1
          = (if mgo.cached (session w) (C db "voyage") "number"
             then inl (voyage_repo v db) else inr (driver_error msg))
        /\ session (NewVoyageRepository_of v db w).2 = session w)
    /\ ((os_Getenv "NO_PADDING" w).1 = "" ->
        N.of_nat (String.length (Garbage_of (GARBAGE_CARGO (padded.NewCargoRepository db w).2)))
        = (N.of_nat (String.length (Garbage_of (GARBAGE_CARGO w))) + 60 * 1024)%N).
Proof.
  intros v db w msg Hst E. repeat match goal with |- _ /\ _ => split end.
  - destruct (run_NewCargoRepository_of v db w) as (-> & _).
    unfold index_error. rewrite E. by destruct (mgo.cached _ _ _).
  - destruct (run_NewCargoRepository_of v db w) as (_ & ->).
    unfold index_ensured. rewrite E, (next_steady _ Hst). by destruct (mgo.cached _ _ _).
  - by apply unregistered_locations.
  - by apply (unregistered_locations v db w msg).
  - by apply unregistered_voyages.
  - by apply (unregistered_voyages v db w msg).
  - intros Hunset. destruct (run_NewCargoRepository db w) as (_ & _ & ->).
    rewrite Hunset. cbn [String.eqb]. apply for_range_grow.
Qed.

Lemma constructors_fail_witness :
  let w := sample.offline Timed in
  (mgo.steady (session w) /\ mgo.failure (session w) = Some "no reachable servers")
  /\ (NewCargoRepository_of Timed "goddd" w).1 = inr (driver_error "no reachable servers")
  /\ (NewLocationRepository_of (H := sample.fixtures) Timed "goddd" w).1
     = inl (location_repo Timed "goddd").
Proof.
  intros w.
  assert (Hst : mgo.steady (session w)) by reflexivity.
  assert (E : mgo.failure (session w) = Some "no reachable servers") by reflexivity.
  destruct (constructors_fail (H := sample.fixtures) Timed "goddd" w _ Hst E)
    as ((Hc & _) & (Hl & _) & _).
  exact (conj (conj Hst E) (conj Hc Hl)).
Defined.

Section ReadOnly.

Lemma unchanged_next s s' :
  s' = mgo.next s ->
  mgo.data s' = mgo.data s /\ (mgo.steady s -> s' = s).
Proof.
  intros ->. split; [apply data_next|apply next_steady].
Qed.

Lemma unchanged_asked v s s' :
  s' = mgo.next (asked v s) ->
  mgo.data s' = mgo.data s /\ (mgo.steady s -> s' = s).
Proof.
  intros ->. split.
  - by rewrite data_next, data_asked.
  - intros Hst. by rewrite (asked_steady _ _ Hst), next_steady.
Qed.

End ReadOnly.

(** X10: the queries are read-only.  [Find] and [FindAll] of the cargo and
    location repositories, [Find] of the voyage repository and
    [QueryHandlingHistory] leave the documents of the database exactly as
    they were, in either variant, whatever they return and whatever the
    connection does; on a connection that stays as it is the whole session
    is as before. *)
Theorem queries_read_only :
  forall (v : variant) (db : string) (w : World),
    let unchanged (w' : World) :=
      mgo.data (session w') = mgo.data (session w)
      /\ (mgo.steady (session w) -> session w' = session w) in
    (forall id, unchanged (cr_Find (cargo_repo v db) id w).2)
    /\ unchanged (cr_FindAll (cargo_repo v db) w).2
    /\ (forall k, unchanged (lr_Find (location_repo v db) k w).2)
    /\ unchanged (lr_FindAll (location_repo v db) w).2
    /\ (forall k, unchanged (vr_Find (voyage_repo v db) k w).2)
    /\ (forall id, unchanged (her_QueryHandlingHistory (event_repo v db) id w).2).
Proof.
  intros v db w. cbn zeta.
  split; [|split; [|split; [|split; [|split]]]].
  - intros id. apply (unchanged_asked v), run_cargo_Find.
  - apply unchanged_next, run_cargo_FindAll.
  - intros k. apply unchanged_next, run_location_Find.
  - apply unchanged_next, run_location_FindAll.
  - intros k. apply unchanged_next, run_voyage_Find.
  - intros id. apply unchanged_next, run_event_Query.
Qed.

Lemma queries_read_only_witness :
  let w := sample.world Padded in
  mgo.steady (session w)
  /\ session (cr_Find (cargo_repo Padded "goddd") "ABC123" w).2 = session w.
Proof.
  intros w.
  assert (Hst : mgo.steady (session w)) by reflexivity.
  destruct (queries_read_only Padded "goddd" w) as (Hfind & _).
  exact (conj Hst (proj2 (Hfind "ABC123") Hst)).
Defined.

(** X11: the handling-event repository swallows the driver's errors.  A
    [Store] whose request fails records nothing and has nothing to report:
    the documents are as before, and so is the session when the connection
    stays as it is.  A [QueryHandlingHistory] whose request fails returns
    the empty history, as for a cargo without events. *)
Theorem events_swallow_errors :
  forall (v : variant) (db : string) (w : World) (msg : string),
    mgo.failure (session w) = Some msg ->
    (forall e,
        mgo.data (session (her_Store (event_repo v db) e w).2) = mgo.data (session w)
        /\ (mgo.steady (session w) ->
            session (her_Store (event_repo v db) e w).2 = session w))
    /\ (forall id, cargo.HandlingEvents (her_QueryHandlingHistory (event_repo v db) id w).1 = []).
Proof.
  intros v db w msg E. split.
  - intros e. apply unchanged_next. rewrite run_event_Store. unfold inserted. by rewrite E.
  - intros id. destruct (run_event_Query v db id w) as (-> & _). by rewrite E.
Qed.

Lemma events_swallow_errors_witness :
  let w := with_session (mgo.mkSession ∅ (Some "no reachable servers") [] []) (fresh ∅) in
  mgo.failure (session w) = Some "no reachable servers"
  /\ cargo.HandlingEvents (her_QueryHandlingHistory (event_repo Timed "goddd") "ABC123" w).1
     = [].
Proof.
  intros w.
  assert (E : mgo.failure (session w) = Some "no reachable servers") by reflexivity.
  exact (conj E (proj2 (events_swallow_errors Timed "goddd" w _ E) "ABC123")).
Defined.

(** * Further properties of the booking service *)

(** X12: a command of the booking service that reports an error has
    changed nothing.  On a connection that stays as it is during the call,
    when [AssignCargoToRoute] or [ChangeDestination] returns an error,
    whether for its arguments, from a look-up or from the driver, the
    database is as it was before the call. *)
Theorem booking_errors_change_nothing `{Unspecified} :
  forall (v : variant) (db : string) (id : cargo.TrackingID)
         (itinerary : cargo.Itinerary) (destination : location.UNLocode) (w : World),
    mgo.steady (session w) ->
    let assigned := booking.AssignCargoToRoute (service_of v db) id itinerary w in
    let changed := booking.ChangeDestination (service_of v db) id destination w in
    (assigned.1 <> None -> session assigned.2 = session w)
    /\ (changed.1 <> None -> session changed.2 = session w).
Proof.
  intros v db id itinerary destination w Hst. cbn zeta. split; intros Herr.
  - pose proof (run_AssignCargoToRoute_steady v db id itinerary w Hst) as Hr. cbn zeta in Hr.
    destruct (_ || _); [by rewrite Hr|].
    destruct (found _ _ _ _ _) as [c|err]; destruct Hr as [Hr Hs]; [done|exact Hs].
  - pose proof (run_ChangeDestination_steady v db id destination w Hst) as Hr. cbn zeta in Hr.
    destruct (_ || _); [by rewrite Hr|].
    destruct (found (C db "cargo") _ _ _ _) as [c|err]; [|by destruct Hr].
    destruct (found (C db "location") _ _ _ _) as [l|err]; destruct Hr as [Hr Hs];
      [done|exact Hs].
Qed.

Lemma booking_errors_change_nothing_witness :
  let w := sample.offline Timed in
  let changed :=
    booking.ChangeDestination (H := sample.unspecified) (service_of Timed "goddd")
      "ABC123" "DEHAM" w in
  (mgo.steady (session w) /\ changed.1 <> None) /\ session changed.2 = session w.
Proof.
  intros w changed.
  assert (Hst : mgo.steady (session w)) by reflexivity.
  assert (Herr : changed.1 <> None) by (vm_compute; discriminate).
  exact (conj (conj Hst Herr)
           (proj2 (booking_errors_change_nothing (H := sample.unspecified) Timed "goddd"
                     "ABC123" sample.detour "DEHAM" w Hst) Herr)).
Defined.

(** X13: [ChangeDestination] looks the cargo up before the destination.
    On a connection that works and stays working, with a destination that
    is not registered, it reports [cargo.ErrUnknown] when the cargo is not
    on record and [location.ErrUnknown] when it is, and stores nothing. *)
Theorem ChangeDestination_lookup_order `{Unspecified} :
  forall (v : variant) (db : string) (id : cargo.TrackingID)
         (destination : location.UNLocode) (w : World),
    id <> "" -> destination <> "" ->
    mgo.steady (session w) ->
    mgo.failure (session w) = None ->
    location_records db destination w = [] ->
    let r := booking.ChangeDestination (service_of v db) id destination w in
    r.1 = Some (match cargo_records db id w with
                | [] => cargo_ErrUnknown
                | _ :: _ => location_ErrUnknown
                end)
    /\ session r.2 = session w.
Proof.
  intros v db id destination w Hid Hdest Hst E Hloc. cbn zeta.
  pose proof (run_ChangeDestination_steady v db id destination w Hst) as Hr. cbn zeta in Hr.
  apply String.eqb_neq in Hid, Hdest. rewrite Hid, Hdest in Hr. cbn [orb] in Hr.
  assert (Hl : found (T := location.Location) (C db "location") "unlocode" destination
                 location_ErrUnknown (session w) = inr location_ErrUnknown)
    by (by apply found_none).
  rewrite Hl in Hr.
  unfold cargo_records.
  destruct (mgo.find [("trackingid", id)] _) as [|d rest] eqn:Hc.
  - assert (Hf : found (T := cargo.Cargo) (C db "cargo") "trackingid" id
                   cargo_ErrUnknown (session w) = inr cargo_ErrUnknown)
      by (by apply found_none).
    by rewrite Hf in Hr.
  - by rewrite (found_some _ _ _ _ _ d rest E Hc) in Hr.
Qed.

Lemma ChangeDestination_lookup_order_witness :
  let w := sample.world Timed in
  ("ABC123" <> "" /\ "CNHKG" <> "" /\ mgo.steady (session w)
   /\ mgo.failure (session w) = None
   /\ location_records "goddd" "CNHKG" w = [])
  /\ (booking.ChangeDestination (H := sample.unspecified) (service_of Timed "goddd")
        "ABC123" "CNHKG" w).1 = Some location_ErrUnknown.
Proof.
  intros w.
  assert (Hid : "ABC123" <> "") by discriminate.
  assert (Hdest : "CNHKG" <> "") by discriminate.
  assert (Hst : mgo.steady (session w)) by reflexivity.
  assert (E : mgo.failure (session w) = None) by reflexivity.
  assert (Hloc : location_records "goddd" "CNHKG" w = []) by (vm_compute; reflexivity).
  split; [done|].
  destruct (ChangeDestination_lookup_order (H := sample.unspecified) Timed "goddd"
              "ABC123" "CNHKG" w Hid Hdest Hst E Hloc) as [Hr _].
  rewrite Hr.
  assert (Hlen : length (cargo_records "goddd" "ABC123" w) = 1%nat) by (vm_compute; reflexivity).
  by destruct (cargo_records "goddd" "ABC123" w).
Defined.

Section Views.

(** The loops of [Cargos] and [Locations] append one read model per
    element, in order. *)
Lemma fold_append {A B} (f : A -> B) (xs : list A) (acc : list B) :
  fold_left (fun result x => result ++ [f x]) xs acc = acc ++ (f <$> xs).
Proof.
  revert acc; induction xs as [|x xs IH]; intros acc; cbn.
  - by rewrite app_nil_r.
  - by rewrite IH, <- app_assoc.
Qed.

Lemma run_LoadCargo v db rs icons id w :
  let r := views.LoadCargo (views_of v db rs icons) id w in
  r.1 = (if String.eqb id "" then (views.zeroCargo, Some booking_ErrInvalidArgument)
         else match found (C db "cargo") "trackingid" id cargo_ErrUnknown
                          (asked v (session w)) with
              | inr err => (views.zeroCargo, Some err)
              | inl c => (views.assemble c (event_repo v db), None)
              end)
  /\ session r.2 = (if String.eqb id "" then session w
                    else mgo.next (asked v (session w))).
Proof.
  unfold views.LoadCargo. destruct (String.eqb id ""); [done|].
  cbn [views_of views.repositories service_of booking.cargos booking.handlingEvents].
  rewrite bind_run.
  destruct (run_cargo_Find v db id w) as (Hf & Hs & _). rewrite Hf.
  by destruct (found _ _ _ _ _).
Qed.

Lemma run_RequestPossibleRoutesForCargo v db rs icons id w :
  let r := views.RequestPossibleRoutesForCargo (views_of v db rs icons) id w in
  if String.eqb id "" then r = ([], w)
  else
    match found (C db "cargo") "trackingid" id cargo_ErrUnknown (asked v (session w)) with
    | inr err =>
        r.1 = [] /\ session r.2 = mgo.next (asked v (session w))
        /\ last (stdout r.2)
           = Some (mkPrinted
                     "Unable to find cargo %s in RequestPossibleRoutesForCargo, error: %s\n"
                     [AString id; AError err])
    | inl c =>
        exists w1, session w1 = mgo.next (asked v (session w))
                   /\ GARBAGE_CARGO w1 = GARBAGE_CARGO w
                   /\ r = FetchRoutesForSpecification rs (cargo.c_RouteSpecification c) w1
    end.
Proof.
  unfold views.RequestPossibleRoutesForCargo. destruct (String.eqb id ""); [done|].
  cbn [views_of views.repositories views.routingService service_of booking.cargos].
  rewrite bind_run.
  destruct (run_cargo_Find v db id w) as (Hf & Hs & Hg). rewrite Hf.
  destruct (found _ _ _ _ _) as [c|err].
  - by eexists.
  - rewrite bind_run. unfold fmt_Printf, ret. cbn [fst snd session stdout].
    by rewrite last_snoc.
Qed.

Lemma run_Cargos v db rs icons w :
  (views.Cargos (views_of v db rs icons) w).1
  = (fun c => views.assemble c (event_repo v db)) <$> (cr_FindAll (cargo_repo v db) w).1
  /\ session (views.Cargos (views_of v db rs icons) w).2 = mgo.next (session w).
Proof.
  unfold views.Cargos.
  cbn [views_of views.repositories service_of booking.cargos booking.handlingEvents].
  rewrite bind_run. unfold ret. cbn [fst snd].
  rewrite fold_append. split; [done|apply run_cargo_FindAll].
Qed.

Lemma run_Locations v db rs icons w :
  (views.Locations (views_of v db rs icons) w).1
  = (fun l => views.mkLocation (location.UNLocode_of l) (location.Name l))
      <$> (lr_FindAll (location_repo v db) w).1
  /\ session (views.Locations (views_of v db rs icons) w).2 = mgo.next (session w).
Proof.
  unfold views.Locations.
  cbn [views_of views.repositories service_of booking.locations].
  rewrite bind_run. unfold ret. cbn [fst snd].
  rewrite fold_append. split; [done|apply run_location_FindAll].
Qed.

End Views.

(** X14: a cargo that has been stored can be loaded.  On a connection that
    works and stays working, after [Store] of a cargo with a non-empty
    tracking identity, [LoadCargo] of that identity returns no error and
    the read model assembled from the cargo as its document keeps it, that
    is with every instant cut down to the millisecond, and leaves the
    database as [Store] left it. *)
Theorem LoadCargo_after_Store :
  forall (v : variant) (db : string) (rs : routing_Service) (icons : list CargoIcon)
         (c : cargo.Cargo) (w : World),
    mgo.steady (session w) ->
    mgo.failure (session w) = None ->
    cargo.c_TrackingID c <> "" ->
    let w' := (cr_Store (cargo_repo v db) c w).2 in
    let r := views.LoadCargo (views_of v db rs icons) (cargo.c_TrackingID c) w' in
    r.1 = (views.assemble (kept_Cargo c) (event_repo v db), None)
    /\ session r.2 = session w'.
Proof.
  intros v db rs icons c w Hst E Hid. cbn zeta.
  destruct (run_LoadCargo v db rs icons (cargo.c_TrackingID c)
              (cr_Store (cargo_repo v db) c w).2) as (-> & ->).
  apply String.eqb_neq in Hid. rewrite Hid.
  destruct (run_cargo_Store v db c w) as (_ & -> & _).
  pose proof (steady_stored v db c (GARBAGE_CARGO w) _ Hst) as Hst'.
  rewrite (asked_steady _ _ Hst'), (next_steady _ Hst').
  by rewrite found_stored.
Qed.

Lemma LoadCargo_after_Store_witness :
  let w := fresh ∅ in
  let w' := (cr_Store (cargo_repo Padded "goddd") sample.booked w).2 in
  (mgo.steady (session w) /\ mgo.failure (session w) = None
   /\ cargo.c_TrackingID sample.booked <> "")
  /\ (views.LoadCargo (views_of Padded "goddd" (mkRoutingService (fun _ => ret [])) [])
        "ABC123" w').1
     = (views.mkCargo 1000000000 "CNHKG" [sample.leg] false "SESTO" true "ABC123", None).
Proof.
  intros w w'.
  assert (Hst : mgo.steady (session w)) by reflexivity.
  assert (E : mgo.failure (session w) = None) by reflexivity.
  assert (Hid : cargo.c_TrackingID sample.booked <> "") by discriminate.
  exact (conj (conj Hst (conj E Hid))
           (proj1 (LoadCargo_after_Store Padded "goddd" (mkRoutingService (fun _ => ret []))
                     [] sample.booked w Hst E Hid))).
Defined.

(** X15: an assigned route shows in the read model.  On a connection that
    stays as it is, after [AssignCargoToRoute] has returned without error,
    [LoadCargo] of the same identity returns without error a read model
    that is routed, carries the legs of the itinerary assigned with their
    times cut down to the millisecond, and has the origin, destination and
    deadline the cargo had before.  The method [Cargo.AssignToRoute] the
    command calls is the one modelled from section 4.3 of the
    specification. *)
Theorem AssignCargoToRoute_then_LoadCargo `{Unspecified} :
  forall (v : variant) (db : string) (rs : routing_Service) (icons : list CargoIcon)
         (id : cargo.TrackingID) (itinerary : cargo.Itinerary) (w : World),
    let s := views_of v db rs icons in
    let assigned := booking.AssignCargoToRoute (service_of v db) id itinerary w in
    mgo.steady (session w) ->
    assigned.1 = None ->
    exists before after : views.Cargo,
      (views.LoadCargo s id w).1 = (before, None)
      /\ (views.LoadCargo s id assigned.2).1 = (after, None)
      /\ views.TrackingID after = id
      /\ views.Routed after = true
      /\ views.Legs after = cargo.Legs (kept_Itinerary itinerary)
      /\ views.Origin after = views.Origin before
      /\ views.Destination after = views.Destination before
      /\ views.ArrivalDeadline after = views.ArrivalDeadline before.
Proof.
  intros v db rs icons id itinerary w. cbn zeta. intros Hst Hok.
  pose proof (run_AssignCargoToRoute_steady v db id itinerary w Hst) as Hr. cbn zeta in Hr.
  destruct (String.eqb id "") eqn:Hid;
    [cbn [orb] in Hr; by rewrite Hr in Hok|].
  destruct (Nat.eqb (length (cargo.Legs itinerary)) 0) eqn:Hlegs;
    [cbn [orb] in Hr; by rewrite Hr in Hok|].
  cbn [orb] in Hr.
  destruct (found _ _ _ _ _) as [c|err] eqn:Hc; [|destruct Hr as [Hr _]; congruence].
  destruct Hr as [_ Hs].
  pose proof (found_cargo_id _ _ _ _ Hc) as [E Hcid].
  pose proof (found_on_record _ _ _ _ Hc) as [_ Hkept].
  destruct (run_LoadCargo v db rs icons id w) as (Hb & _).
  destruct (run_LoadCargo v db rs icons id
              (booking.AssignCargoToRoute (service_of v db) id itinerary w).2) as (Ha & _).
  rewrite Hid in Hb, Ha. rewrite (asked_steady _ _ Hst), Hc in Hb. rewrite Hs in Ha.
  pose proof (steady_stored v db (engine.AssignToRoute c itinerary) (GARBAGE_CARGO w) _ Hst)
    as Hst'.
  rewrite (asked_steady _ _ Hst') in Ha.
  assert (Hf : found (C db "cargo") "trackingid" id cargo_ErrUnknown
                 (stored v db (engine.AssignToRoute c itinerary) (GARBAGE_CARGO w) (session w))
               = inl (kept_Cargo (engine.AssignToRoute c itinerary))).
  { rewrite <- Hcid at 1.
    by apply (found_stored v db (engine.AssignToRoute c itinerary)). }
  rewrite Hf in Ha.
  eexists _, _. split; [exact Hb|]. split; [exact Ha|].
  cbn. repeat split; [done| |].
  - unfold cargo.IsEmpty. cbn. by destruct (cargo.Legs itinerary).
  - rewrite <- Hkept at 2. done.
Qed.

Lemma AssignCargoToRoute_then_LoadCargo_witness :
  let w := sample.world Padded in
  let assigned :=
    booking.AssignCargoToRoute (H := sample.unspecified) (service_of Padded "goddd")
      "ABC123" sample.detour w in
  (mgo.steady (session w) /\ assigned.1 = None)
  /\ exists before after : views.Cargo,
      (views.LoadCargo (views_of Padded "goddd" (mkRoutingService (fun _ => ret [])) [])
         "ABC123" w).1 = (before, None)
      /\ (views.LoadCargo (views_of Padded "goddd" (mkRoutingService (fun _ => ret [])) [])
            "ABC123" assigned.2).1 = (after, None)
      /\ views.TrackingID after = "ABC123"
      /\ views.Routed after = true
      /\ views.Legs after = cargo.Legs (kept_Itinerary sample.detour)
      /\ views.Origin after = views.Origin before
      /\ views.Destination after = views.Destination before
      /\ views.ArrivalDeadline after = views.ArrivalDeadline before.
Proof.
  intros w assigned.
  assert (Hst : mgo.steady (session w)) by reflexivity.
  assert (Hok : assigned.1 = None) by (vm_compute; reflexivity).
  exact (conj (conj Hst Hok)
           (AssignCargoToRoute_then_LoadCargo (H := sample.unspecified) Padded "goddd"
              (mkRoutingService (fun _ => ret [])) [] "ABC123" sample.detour w Hst Hok)).
Defined.

(** X16: the queries of the booking service on a connection that is broken
    and stays broken.  [LoadCargo] returns the driver's error with a blank
    read model; [RequestPossibleRoutesForCargo], [Cargos] and [Locations]
    return nothing and report no error, and the routing service, whatever
    it is, has no part in the answer; the database is left as it was. *)
Theorem views_offline :
  forall (v : variant) (db : string) (rs : routing_Service) (icons : list CargoIcon)
         (w : World) (msg : string),
    mgo.steady (session w) ->
    mgo.failure (session w) = Some msg ->
    let s := views_of v db rs icons in
    (forall id, id <> "" ->
                (views.LoadCargo s id w).1 = (views.zeroCargo, Some (driver_error msg)))
    /\ (forall id, (views.RequestPossibleRoutesForCargo s id w).1 = []
                   /\ session (views.RequestPossibleRoutesForCargo s id w).2 = session w)
    /\ (views.Cargos s w).1 = []
    /\ (views.Locations s w).1 = [].
Proof.
  intros v db rs icons w msg Hst E. cbn zeta.
  repeat match goal with |- _ /\ _ => split end.
  - intros id Hid. destruct (run_LoadCargo v db rs icons id w) as (-> & _).
    apply String.eqb_neq in Hid.
    by rewrite Hid, (asked_steady _ _ Hst), (found_broken _ _ _ _ _ msg).
  - intros id.
    pose proof (run_RequestPossibleRoutesForCargo v db rs icons id w) as Hr.
    cbn zeta in Hr. destruct (String.eqb id ""); [by rewrite Hr|].
    rewrite (asked_steady _ _ Hst), (found_broken _ _ _ _ _ msg E), (next_steady _ Hst) in Hr.
    split; apply Hr.
  - destruct (run_Cargos v db rs icons w) as (-> & _).
    destruct (run_cargo_FindAll v db w) as (-> & _). by rewrite E.
  - destruct (run_Locations v db rs icons w) as (-> & _).
    destruct (run_location_FindAll v db w) as (-> & _). by rewrite E.
Qed.

Lemma views_offline_witness :
  let w := sample.offline Padded in
  (mgo.steady (session w) /\ mgo.failure (session w) = Some "no reachable servers")
  /\ (views.Cargos (views_of Padded "goddd" (mkRoutingService (fun _ => ret [])) []) w).1
     = [].
Proof.
  intros w.
  assert (Hst : mgo.steady (session w)) by reflexivity.
  assert (E : mgo.failure (session w) = Some "no reachable servers") by reflexivity.
  destruct (views_offline Padded "goddd" (mkRoutingService (fun _ => ret [])) [] w _ Hst E)
    as (_ & _ & Hc & _).
  exact (conj (conj Hst E) Hc).
Defined.

(** X17: the routing service is asked about cargos on record only.  On a
    connection that works and stays working,
    [RequestPossibleRoutesForCargo] of an identity without a cargo record
    returns no itinerary, whatever the routing service is, prints that the
    cargo could not be found and leaves the database as it was; after
    [Store] of a cargo with a non-empty identity it is the call of the
    routing service with the route specification as the document keeps it,
    the deadline cut down to the millisecond, on the database as [Store]
    left it. *)
Theorem RequestPossibleRoutes_known_only :
  forall (v : variant) (db : string) (rs : routing_Service) (icons : list CargoIcon)
         (w : World),
    mgo.steady (session w) ->
    mgo.failure (session w) = None ->
    let s := views_of v db rs icons in
    (forall id,
        cargo_records db id w = [] ->
        let r := views.RequestPossibleRoutesForCargo s id w in
        r.1 = [] /\ session r.2 = session w
        /\ (id <> "" ->
            last (stdout r.2)
            = Some (mkPrinted
                      "Unable to find cargo %s in RequestPossibleRoutesForCargo, error: %s\n"
                      [AString id; AError cargo_ErrUnknown])))
    /\ (forall c,
           cargo.c_TrackingID c <> "" ->
           let w' := (cr_Store (cargo_repo v db) c w).2 in
           exists w1,
             session w1 = session w'
             /\ views.RequestPossibleRoutesForCargo s (cargo.c_TrackingID c) w'
                = FetchRoutesForSpecification rs
                    (kept_RouteSpecification (cargo.c_RouteSpecification c)) w1).
Proof.
  intros v db rs icons w Hst E. cbn zeta. split.
  - intros id Hnone.
    pose proof (run_RequestPossibleRoutesForCargo v db rs icons id w) as Hr.
    cbn zeta in Hr. destruct (String.eqb id "") eqn:Hid.
    + rewrite Hr. repeat split. intros Hne. apply String.eqb_neq in Hne. congruence.
    + assert (Hf : found (T := cargo.Cargo) (C db "cargo") "trackingid" id
                     cargo_ErrUnknown (session w) = inr cargo_ErrUnknown)
        by (by apply found_none).
      rewrite (asked_steady _ _ Hst), Hf, (next_steady _ Hst) in Hr.
      destruct Hr as (Hr & Hs & Hp). by repeat split.
  - intros c Hid.
    pose proof (run_RequestPossibleRoutesForCargo v db rs icons (cargo.c_TrackingID c)
                  (cr_Store (cargo_repo v db) c w).2) as Hr.
    cbn zeta in Hr. apply String.eqb_neq in Hid. rewrite Hid in Hr.
    destruct (run_cargo_Store v db c w) as (_ & Hs & _).
    pose proof (steady_stored v db c (GARBAGE_CARGO w) _ Hst) as Hst'.
    rewrite Hs, (asked_steady _ _ Hst'), (next_steady _ Hst'),
      (found_stored v db c _ _ Hst E) in Hr.
    destruct Hr as (w1 & Hs1 & _ & Hr). exists w1. by rewrite Hs.
Qed.

Lemma RequestPossibleRoutes_known_only_witness :
  let w := fresh ∅ in
  let rs := mkRoutingService (fun spec => ret [sample.detour]) in
  (mgo.steady (session w) /\ mgo.failure (session w) = None)
  /\ (views.RequestPossibleRoutesForCargo (views_of Timed "goddd" rs []) "ABC123" w).1 = [].
Proof.
  intros w rs.
  assert (Hst : mgo.steady (session w)) by reflexivity.
  assert (E : mgo.failure (session w) = None) by reflexivity.
  assert (Hnone : cargo_records "goddd" "ABC123" w = []) by reflexivity.
  exact (conj (conj Hst E)
           (proj1 (proj1 (RequestPossibleRoutes_known_only Timed "goddd" rs [] w Hst E)
                     "ABC123" Hnone))).
Defined.

(** X18: in a database without locations, on a connection that works and
    stays working, the location constructor followed by [Locations] of the
    booking service lists the read models of the initial locations, one
    each and in their order, provided their codes are distinct. *)
Theorem Locations_after_constructor `{Fixtures} :
  forall (v : variant) (db : string) (rs : routing_Service) (icons : list CargoIcon)
         (w : World),
    mgo.steady (session w) ->
    mgo.failure (session w) = None ->
    mgo.collection (session w) (C db "location") = [] ->
    NoDup (location.UNLocode_of <$> initial_locations) ->
    (views.Locations (views_of v db rs icons) (NewLocationRepository_of v db w).2).1
    = (fun l => views.mkLocation (location.UNLocode_of l) (location.Name l))
        <$> initial_locations.
Proof.
  intros v db rs icons w Hst E Hempty Hnd.
  destruct (run_Locations v db rs icons (NewLocationRepository_of v db w).2) as (-> & _).
  f_equal.
  destruct (registered_locations v db w Hst E) as (_ & _ & E' & Hc & _).
  destruct (run_location_FindAll v db (NewLocationRepository_of v db w).2) as (-> & _).
  rewrite E', Hc, Hempty.
  apply decode_registered_empty; [apply location_key|apply unmarshal_marshal_location|done].
Qed.

Lemma Locations_after_constructor_witness :
  let w := fresh ∅ in
  let rs := mkRoutingService (fun spec => ret []) in
  (mgo.steady (session w) /\ mgo.failure (session w) = None
   /\ mgo.collection (session w) (C "goddd" "location") = []
   /\ NoDup (location.UNLocode_of <$> initial_locations (Fixtures := sample.fixtures)))
  /\ (views.Locations (views_of Padded "goddd" rs [])
        (NewLocationRepository_of (H := sample.fixtures) Padded "goddd" w).2).1
     = [views.mkLocation "SESTO" "Stockholm"; views.mkLocation "DEHAM" "Hamburg"].
Proof.
  intros w rs.
  assert (Hst : mgo.steady (session w)) by reflexivity.
  assert (E : mgo.failure (session w) = None) by reflexivity.
  assert (Hempty : mgo.collection (session w) (C "goddd" "location") = []) by reflexivity.
  assert (Hl : NoDup (location.UNLocode_of <$> initial_locations (Fixtures := sample.fixtures)))
    by (refine (bool_decide_unpack _ _); vm_compute; exact I).
  exact (conj (conj Hst (conj E (conj Hempty Hl)))
              (Locations_after_constructor (H := sample.fixtures) Padded "goddd" rs [] w
                 Hst E Hempty Hl)).
Defined.

(** X19: [pickIcon] never panics.  It returns [nil] exactly when the
    service has no icons, and then leaves the generator alone; otherwise
    the argument of [Intn] is positive, the index drawn is in range and
    the icon returned is one of the icons of the service. *)
Theorem pickIcon_safe `{Rand} :
  forall (s : views.service) (g : Rng),
    exists picked : option CargoIcon,
      (views.pickIcon s g).1 = returned picked
      /\ (picked = None <-> views.icons s = [])
      /\ (forall icon, picked = Some icon -> icon ∈ views.icons s)
      /\ (views.icons s = [] -> (views.pickIcon s g).2 = g).
Proof.
  intros s g. unfold views.pickIcon.
  destruct (views.icons s) as [|icon icons] eqn:Hicons.
  - exists None. cbn. repeat split; [done..|]. intros i Hi. discriminate.
  - cbn [length Nat.eqb]. unfold Intn.
    set (n := Z.of_nat (S (length icons))).
    assert (Hn : 0 < n) by (unfold n; lia).
    destruct (Z.leb_spec n 0) as [Hle|_]; [lia|].
    pose proof (draw_range n g Hn) as Hi.
    unfold index. destruct (Z.ltb_spec (draw n g).1 0) as [Hlt|_]; [lia|].
    destruct ((icon :: icons) !! Z.to_nat (draw n g).1) as [x|] eqn:Hx.
    + exists (Some x). cbn [fst snd]. repeat split; try done.
      intros i [= <-]. apply list_elem_of_lookup. by eexists.
    + apply lookup_ge_None in Hx. cbn [length] in Hx. lia.
Qed.

Lemma pickIcon_safe_witness :
  let s := views_of Timed "goddd" (mkRoutingService (fun _ => ret []))
             [mkCargoIcon [Byte.x01]; mkCargoIcon [Byte.x02]] in
  exists picked : option CargoIcon,
    (views.pickIcon (H := sample_rand) s 7).1 = returned picked
    /\ (picked = None <-> views.icons s = [])
    /\ (forall icon, picked = Some icon -> icon ∈ views.icons s)
    /\ (views.icons s = [] -> (views.pickIcon (H := sample_rand) s 7).2 = 7).
Proof.
  intros s. exact (pickIcon_safe (H := sample_rand) s 7).
Defined.
